(** * PhonePe Pulse ETL: the normalisation engine of [etl_load_phonepe.py]

    A shallow embedding of the loader: the Python values that [json.load]
    produces, the built-ins the loader calls on them, the five extractor
    functions, the path context resolver and the load orchestrator, followed
    by the properties of the specification that concern them.

    Conventions of the embedding.
    - A Python [str] is a [string]; its characters are the code points below
      256.
    - A Python [float] is an IEEE-754 binary64 number ([spec_float] with
      precision 53 and maximal exponent 1024).
    - A Python [dict] is the list of its items in iteration order; a dict that
      [json.load] builds has no repeated key.
    - [pathlib] is the POSIX flavour, and [stem] drops the last suffix unless
      the dot is the first or the last character of the name.
    - [sum] adds floats from left to right, with no compensation term.
    - [int] converts a [str] of at most 4300 digits, the interpreter's
      default limit, and raises [ValueError] beyond it.
    - The file system and the database are the outside of a run: what the
      existence test and the listing of a folder, the reading of a file and
      the writing of a batch return or raise is given by a [tree] and a
      [world].
    - A computation that may raise returns a [result]; a computation that
      assigns variables or performs I/O before it may raise threads its state
      through [M], so that what was done before the exception stays done. *)

From Stdlib Require Import ZArith List String Ascii Bool Lia.
From Stdlib Require Import Floats.SpecFloat.
Import ListNotations.

Set Warnings "-register-all".

Local Open Scope string_scope.
Local Open Scope list_scope.
Local Open Scope Z_scope.

(** ** Exceptions and the two effect layers *)

Inductive exn : Type :=
| TypeError | ValueError | OverflowError | AttributeError | IndexError
| OSError | DatabaseError.

Inductive result (A : Type) : Type :=
| Ok (a : A)
| Raise (e : exn).
Arguments Ok {A} a.
Arguments Raise {A} e.

Definition rbind {A B} (r : result A) (k : A -> result B) : result B :=
  match r with
  | Ok a => k a
  | Raise e => Raise e
  end.

Declare Scope result_scope.
Delimit Scope result_scope with res.
Notation "x <- c ;; k" := (rbind c (fun x => k))
  (at level 61, c at next level, right associativity) : result_scope.

(** [flat_mapM f l]: the loop [for x in l: rows.extend(f(x))], stopped by the
    first exception. *)
Fixpoint flat_mapM {A B} (f : A -> result (list B)) (l : list A)
  : result (list B) :=
  match l with
  | [] => Ok []
  | x :: l' =>
      (bs <- f x ;; rest <- flat_mapM f l' ;; Ok (bs ++ rest)%list)%res
  end.

Fixpoint mapM {A B} (f : A -> result B) (l : list A) : result (list B) :=
  match l with
  | [] => Ok []
  | x :: l' => (b <- f x ;; rest <- mapM f l' ;; Ok (b :: rest))%res
  end.

(** State that survives an exception: the variables already assigned, or the
    I/O already performed. *)
Definition M (S A : Type) : Type := S -> result A * S.

Definition ret {S A} (a : A) : M S A := fun s => (Ok a, s).
Definition throw {S A} (e : exn) : M S A := fun s => (Raise e, s).
Definition bind {S A B} (m : M S A) (k : A -> M S B) : M S B :=
  fun s => match m s with
           | (Ok a, s') => k a s'
           | (Raise e, s') => (Raise e, s')
           end.
Definition lift {S A} (r : result A) : M S A := fun s => (r, s).
Definition modify {S} (f : S -> S) : M S unit := fun s => (Ok tt, f s).

(** [try: body / except Exception: pass]. *)
Definition try_pass {S} (body : M S unit) : M S unit :=
  fun s => (Ok tt, snd (body s)).

(** [try: body / except Exception: handler]. *)
Definition try_except {S A} (body handler : M S A) : M S A :=
  fun s => match body s with
           | (Ok a, s') => (Ok a, s')
           | (Raise _, s') => handler s'
           end.

Declare Scope io_scope.
Delimit Scope io_scope with io.
Notation "x <- c ;; k" := (bind c (fun x => k))
  (at level 61, c at next level, right associativity) : io_scope.
Notation "c ;; k" := (bind c (fun _ => k))
  (at level 61, right associativity) : io_scope.

Definition when {S} (b : bool) (m : M S unit) : M S unit :=
  if b then m else ret tt.

(** ** Python values *)

Module Py.

Definition float : Type := spec_float.
Definition prec : Z := 53.
Definition emax : Z := 1024.

Inductive value : Type :=
| VNone
| VBool (b : bool)
| VInt (z : Z)
| VFloat (f : float)
| VStr (s : string)
| VList (l : list value)
| VDict (d : list (string * value)).

Definition float_zero : float := S754_zero false.

(** Truth value of an object, as [or], [not] and [if] test it. *)
Definition truthy (v : value) : bool :=
  match v with
  | VNone => false
  | VBool b => b
  | VInt z => negb (z =? 0)
  | VFloat (S754_zero _) => false
  | VFloat _ => true
  | VStr s => negb (s =? "")%string
  | VList l => match l with [] => false | _ => true end
  | VDict d => match d with [] => false | _ => true end
  end.

(** [a or b] when evaluating [b] cannot raise. *)
Definition or_else (a b : value) : value := if truthy a then a else b.

Definition is_dict (v : value) : bool :=
  match v with VDict _ => true | _ => false end.
Definition is_list (v : value) : bool :=
  match v with VList _ => true | _ => false end.
Definition is_none (v : value) : bool :=
  match v with VNone => true | _ => false end.

Fixpoint lookup {A} (k : string) (d : list (string * A)) : option A :=
  match d with
  | [] => None
  | (k', v) :: d' => if (k' =? k)%string then Some v else lookup k d'
  end.

(** [k in d] for a dict [d]. *)
Definition has_key (k : string) (d : list (string * value)) : bool :=
  match lookup k d with Some _ => true | None => false end.

(** [d.get(k)] for a dict [d]: [None] when the key is missing. *)
Definition dict_get (d : list (string * value)) (k : string) : value :=
  match lookup k d with Some v => v | None => VNone end.

(** [x.get(k)] for any object [x]: only a dict has the method. *)
Definition get (x : value) (k : string) : result value :=
  match x with
  | VDict d => Ok (dict_get d k)
  | _ => Raise AttributeError
  end.

(** [x.get(k, default)]. *)
Definition get_default (x : value) (k : string) (dflt : value) : result value :=
  match x with
  | VDict d => Ok (match lookup k d with Some v => v | None => dflt end)
  | _ => Raise AttributeError
  end.

(** [a or b]: [b] is evaluated only when [a] is falsy. *)
Definition or_lazy (a b : result value) : result value :=
  (v <- a ;; if truthy v then Ok v else b)%res.

Definition chars (s : string) : list value :=
  map (fun c => VStr (String c "")) (list_ascii_of_string s).

(** The items a [for] loop over [x] visits. *)
Definition iterate (x : value) : result (list value) :=
  match x with
  | VList l => Ok l
  | VDict d => Ok (map (fun kv => VStr (fst kv)) d)
  | VStr s => Ok (chars s)
  | _ => Raise TypeError
  end.

(** *** Characters and strings *)

Definition code (c : ascii) : nat := nat_of_ascii c.

Definition is_decimal (c : ascii) : bool :=
  ((48 <=? code c) && (code c <=? 57))%nat.

(** [str.isdigit] also accepts the superscript digits U+00B2, U+00B3 and
    U+00B9, which [int] rejects. *)
Definition is_digit_char (c : ascii) : bool :=
  is_decimal c
  || (code c =? 178)%nat || (code c =? 179)%nat || (code c =? 185)%nat.

Definition digit_val (c : ascii) : Z := Z.of_nat (code c) - 48.

Fixpoint all_chars (p : ascii -> bool) (s : string) : bool :=
  match s with
  | EmptyString => true
  | String c s' => p c && all_chars p s'
  end.

(** [s.isdigit()]. *)
Definition isdigit (s : string) : bool :=
  negb (s =? "")%string && all_chars is_digit_char s.

(** White space that [int] and [float] strip: the ASCII blanks and, among the
    other characters, NEL and the no-break space. *)
Definition is_space (c : ascii) : bool :=
  ((9 <=? code c) && (code c <=? 13) || (code c =? 32)
   || (code c =? 133) || (code c =? 160))%nat.

Fixpoint lstrip (s : string) : string :=
  match s with
  | String c s' => if is_space c then lstrip s' else s
  | EmptyString => s
  end.

Fixpoint rstrip (s : string) : string :=
  match s with
  | EmptyString => EmptyString
  | String c s' =>
      match rstrip s' with
      | EmptyString => if is_space c then EmptyString else String c EmptyString
      | r => String c r
      end
  end.

Definition strip (s : string) : string := rstrip (lstrip s).

(** A run of decimal digits in which single underscores may separate digits:
    its value, the number of digits read, and the text that follows. *)
Fixpoint read_digits (acc : Z) (n : nat) (s : string) : Z * nat * string :=
  match s with
  | String c s' =>
      if is_decimal c then read_digits (10 * acc + digit_val c) (S n) s'
      else if (c =? "_")%char then
        match n, s' with
        | S _, String c' _ =>
            if is_decimal c' then read_digits acc n s' else (acc, n, s)
        | _, _ => (acc, n, s)
        end
      else (acc, n, s)
  | EmptyString => (acc, n, s)
  end.

(** An optional sign: [true] for minus. *)
Definition read_sign (s : string) : bool * string :=
  match s with
  | String "-" s' => (true, s')
  | String "+" s' => (false, s')
  | _ => (false, s)
  end.

(** The most digits [int] converts from a [str]: the interpreter's default
    [sys.int_max_str_digits]. *)
Definition int_max_str_digits : Z := 4300.

(** [int(s)] in base ten: [None] for the [ValueError] of a text that is no
    number, or that has more digits than the limit (the sign, the blanks
    and the underscores are not counted). *)
Definition int_of_str (s : string) : option Z :=
  let (neg, body) := read_sign (strip s) in
  match read_digits 0 0 body with
  | (z, S n, EmptyString) =>
      if Z.of_nat (S n) <=? int_max_str_digits
      then Some (if neg then - z else z) else None
  | _ => None
  end.

(** *** Numbers *)

Definition fadd : float -> float -> float := SFadd prec emax.

(** The binary64 number nearest to [m * 10 ^ e10] (ties to even), signed by
    [neg]; too large a magnitude rounds to an infinity. *)
Definition float_of_decimal (neg : bool) (m : Z) (e10 : Z) : float :=
  match m with
  | Zpos p =>
      if 0 <=? e10
      then binary_round prec emax neg (Z.to_pos (Zpos p * 10 ^ e10)) 0
      else
        let '(q, e, loc) :=
          SFdiv_core_binary prec emax (Zpos p) 0 (10 ^ (- e10)) 0 in
        binary_round_aux prec emax neg q e loc
  | _ => S754_zero neg
  end.

Definition lower (c : ascii) : ascii :=
  if ((65 <=? code c) && (code c <=? 90))%nat
  then ascii_of_nat (code c + 32) else c.

Fixpoint lower_str (s : string) : string :=
  match s with
  | EmptyString => EmptyString
  | String c s' => String (lower c) (lower_str s')
  end.

(** The exponent part of a float literal, when there is one. *)
Definition read_exponent (s : string) : option (Z * string) :=
  match s with
  | String c s' =>
      if (lower c =? "e")%char then
        let (neg, s1) := read_sign s' in
        match read_digits 0 0 s1 with
        | (z, S _, r) => Some (if neg then - z else z, r)
        | _ => None
        end
      else Some (0, s)
  | EmptyString => Some (0, s)
  end.

(** [float(s)]. *)
Definition float_of_str (s : string) : option float :=
  let (neg, body) := read_sign (strip s) in
  let low := lower_str body in
  if ((low =? "inf") || (low =? "infinity"))%string then Some (S754_infinity neg)
  else if (low =? "nan")%string then Some S754_nan
  else
    let '(ip, ni, r1) := read_digits 0 0 body in
    let '(m, nf, r2) :=
      match r1 with
      | String "." r => read_digits ip 0 r
      | _ => (ip, 0%nat, r1)
      end in
    if (ni + nf =? 0)%nat then None
    else
      match read_exponent r2 with
      | Some (e, EmptyString) => Some (float_of_decimal neg m (e - Z.of_nat nf))
      | _ => None
      end.

(** [float(n)] for an int [n]: the nearest binary64 number, or
    [OverflowError]. *)
Definition float_of_Z (z : Z) : result float :=
  match binary_normalize prec emax z 0 false with
  | S754_infinity _ => Raise OverflowError
  | f => Ok f
  end.

(** [int(f)] for a float [f]: truncation towards zero. *)
Definition trunc (f : float) : result Z :=
  match f with
  | S754_zero _ => Ok 0
  | S754_infinity _ => Raise OverflowError
  | S754_nan => Raise ValueError
  | S754_finite s m e =>
      let a := Z.shiftl (Zpos m) e in Ok (if s then - a else a)
  end.

(** [int(x)]. *)
Definition int (x : value) : result Z :=
  match x with
  | VBool b => Ok (if b then 1 else 0)
  | VInt z => Ok z
  | VFloat f => trunc f
  | VStr s =>
      match int_of_str s with Some z => Ok z | None => Raise ValueError end
  | _ => Raise TypeError
  end.

(** [float(x)]. *)
Definition to_float (x : value) : result float :=
  match x with
  | VBool b => Ok (if b then binary_normalize prec emax 1 0 false else float_zero)
  | VInt z => float_of_Z z
  | VFloat f => Ok f
  | VStr s =>
      match float_of_str s with Some f => Ok f | None => Raise ValueError end
  | _ => Raise TypeError
  end.

(** [sum] over ints. *)
Definition sum_int (l : list Z) : Z := fold_left Z.add l 0.

(** [sum] over floats, added left to right onto the int [0] it starts from:
    the sum of no float at all is that int. *)
Definition sum_float (l : list float) : value :=
  match l with
  | [] => VInt 0
  | _ => VFloat (fold_left fadd l float_zero)
  end.

(** [x not in (None, "")]. *)
Definition not_blank (x : value) : bool :=
  match x with
  | VNone => false
  | VStr s => negb (s =? "")%string
  | _ => true
  end.

(** *** Text and paths *)

(** [sub in s]. *)
Fixpoint contains (sub s : string) : bool :=
  String.prefix sub s
  || match s with
     | EmptyString => false
     | String _ s' => contains sub s'
     end.

Fixpoint replace_from (old new : string) (skip : nat) (s : string) : string :=
  match s with
  | EmptyString => EmptyString
  | String c s' =>
      match skip with
      | S k => replace_from old new k s'
      | O =>
          if String.prefix old s
          then (new ++ replace_from old new (String.length old - 1) s')%string
          else String c (replace_from old new 0 s')
      end
  end.

Fixpoint interleave (new s : string) : string :=
  match s with
  | EmptyString => EmptyString
  | String c s' => String c (new ++ interleave new s')%string
  end.

(** [s.replace(old, new)]: every occurrence, scanning from the left. *)
Definition replace (old new s : string) : string :=
  match old with
  | EmptyString => (new ++ interleave new s)%string
  | _ => replace_from old new 0 s
  end.

Fixpoint split_on (sep : ascii) (s : string) : list string :=
  match s with
  | EmptyString => [EmptyString]
  | String c s' =>
      let r := split_on sep s' in
      if (c =? sep)%char then EmptyString :: r
      else match r with
           | h :: t => String c h :: t
           | [] => [String c EmptyString]
           end
  end.

Definition path_root (p : string) : list string :=
  match p with
  | String "/" (String "/" (String "/" _)) => ["/"]
  | String "/" (String "/" _) => ["//"]
  | String "/" _ => ["/"]
  | _ => []
  end.

Definition path_tail (p : string) : list string :=
  filter (fun x => negb (x =? "")%string && negb (x =? ".")%string)
         (split_on "/" p).

(** [Path(p).parts], for the POSIX flavour of [pathlib]. *)
Definition parts (p : string) : list string := path_root p ++ path_tail p.

(** [Path(p).name]. *)
Definition name (p : string) : string := last (path_tail p) "".

Fixpoint rfind (c : ascii) (s : string) : option nat :=
  match s with
  | EmptyString => None
  | String a s' =>
      match rfind c s' with
      | Some i => Some (S i)
      | None => if (a =? c)%char then Some 0%nat else None
      end
  end.

(** [Path(p).stem]: the name without its last suffix; a leading or a final
    dot starts no suffix. *)
Definition stem (p : string) : string :=
  let n := name p in
  match rfind "." n with
  | Some i =>
      if ((0 <? i) && (i <? String.length n - 1))%nat
      then substring 0 i n else n
  | None => n
  end.

(** [l.index(x)]. *)
Fixpoint index (x : string) (l : list string) : result nat :=
  match l with
  | [] => Raise ValueError
  | y :: l' => if (y =? x)%string then Ok 0%nat
               else (i <- index x l' ;; Ok (S i))%res
  end.

(** [x in l] for a tuple of strings. *)
Definition mem (x : string) (l : list string) : bool :=
  existsb (fun y => (y =? x)%string) l.

(** [l[i]] for [i >= 0]. *)
Definition item (l : list string) (i : nat) : result string :=
  match nth_error l i with
  | Some x => Ok x
  | None => Raise IndexError
  end.

(** [l[-k]] for [k >= 1]. *)
Definition item_back (l : list string) (k : nat) : result string :=
  if (k <=? List.length l)%nat then item l (List.length l - k) else Raise IndexError.

End Py.

Import Py.

Notation "a 'orelse' b" := (or_lazy a b)
  (at level 59, right associativity) : result_scope.

(** ** The extractors *)

Module Etl.

Local Open Scope result_scope.

(** A row is the dict the extractor appends: its items in the order of the
    dict display. *)
Definition row : Type := list (string * value).

Fixpoint safe_get (d : value) (keys : list string) : value :=
  match keys with
  | [] => d
  | k :: keys' =>
      match d with
      | VDict m =>
          match dict_get m k with
          | VNone => VNone
          | cur => safe_get cur keys'
          end
      | _ => VNone
      end
  end.

(** The six columns every row starts with. *)
Definition header (source country state district year quarter : value) : row :=
  [("source_path", source); ("country", country); ("state", state);
   ("district", district); ("year", year); ("quarter", quarter)].

Definition eq_str (v : value) (s : string) : bool :=
  match v with VStr s' => (s' =? s)%string | _ => false end.

(** *** aggregated / transaction *)

(** The [for inst in instruments] loop with its [break]: the values of
    [total_count] and [total_amount] when it ends. *)
Fixpoint find_total (instruments : list value) : result (value * value) :=
  match instruments with
  | [] => Ok (VNone, VNone)
  | inst :: rest =>
      t <- get inst "type" ;;
      if eq_str t "TOTAL"
      then c <- get inst "count" ;; a <- get inst "amount" ;; Ok (c, a)
      else find_total rest
  end.

(** [try: sum(int(i.get("count") or 0) for i in instruments)
    except Exception: None]. *)
Definition sum_counts (instruments : list value) : value :=
  match mapM (fun i => v <- get i "count" orelse Ok (VInt 0) ;; int v)
             instruments with
  | Ok zs => VInt (sum_int zs)
  | Raise _ => VNone
  end.

(** [try: sum(float(i.get("amount") or 0) for i in instruments)
    except Exception: None]. *)
Definition sum_amounts (instruments : list value) : value :=
  match mapM (fun i => v <- get i "amount" orelse Ok (VInt 0) ;; to_float v)
             instruments with
  | Ok fs => sum_float fs
  | Raise _ => VNone
  end.

(** [int(x) if x not in (None, "") else None]. *)
Definition int_or_none (x : value) : result value :=
  if not_blank x then z <- int x ;; Ok (VInt z) else Ok VNone.

(** [float(x) if x not in (None, "") else None]. *)
Definition float_or_none (x : value) : result value :=
  if not_blank x then f <- to_float x ;; Ok (VFloat f) else Ok VNone.

(** The body of the loop over the transaction-type entries. *)
Definition transaction_row (hdr : row) (rec : value) : result row :=
  ttype <- get rec "name" ;;
  instruments <- get_default rec "paymentInstruments" (VList []) ;;
  insts <- iterate instruments ;;
  totals <- find_total insts ;;
  let total_count :=
    if is_none (fst totals) then sum_counts insts else fst totals in
  let total_amount :=
    if is_none (snd totals) then sum_amounts insts else snd totals in
  count <- int_or_none total_count ;;
  amount <- float_or_none total_amount ;;
  Ok (hdr ++ [("transaction_type", ttype);
              ("transaction_count", count);
              ("transaction_amount", amount)]).

Definition parse_aggregated_transaction
  (j country state district year quarter source : value) : result (list row) :=
  let tdata := or_else (safe_get j ["data"; "transactionData"]) (VList []) in
  recs <- iterate tdata ;;
  mapM (transaction_row (header source country state district year quarter)) recs.

(** *** aggregated / user *)

(** The loop over [usersByDevice]: the two running totals. *)
Fixpoint sum_devices (recs : list value) (total_registered total_app_opens : Z)
  : result (Z * Z) :=
  match recs with
  | [] => Ok (total_registered, total_app_opens)
  | rec :: rest =>
      r <- (v <- get rec "registeredUsers" orelse get rec "count"
                 orelse Ok (VInt 0) ;; int v) ;;
      a <- (v <- get rec "appOpens" orelse get rec "appOpensCount"
                 orelse Ok (VInt 0) ;; int v) ;;
      sum_devices rest (total_registered + r) (total_app_opens + a)
  end.

Definition summary_keys : list string :=
  ["registeredUsers"; "appOpens"; "activeUsers"].

Definition parse_aggregated_user
  (j country state district year quarter source : value) : result (list row) :=
  let hdr := header source country state district year quarter in
  let data := or_else (safe_get j ["data"]) (VDict []) in
  match data with
  | VDict d =>
      if existsb (fun k => has_key k d) summary_keys then
        registered <- (v <- get data "registeredUsers" orelse Ok (VInt 0) ;; int v) ;;
        opens <- (v <- get data "appOpens" orelse Ok (VInt 0) ;; int v) ;;
        active <- (if is_none (dict_get d "activeUsers") then Ok VNone
                   else z <- (v <- get data "activeUsers" orelse Ok (VInt 0) ;; int v) ;;
                        Ok (VInt z)) ;;
        Ok [hdr ++ [("registered_users", VInt registered);
                    ("app_opens", VInt opens);
                    ("active_users", active)]]
      else
        match dict_get d "usersByDevice" with
        | VList (rec :: rest) =>
            totals <- sum_devices (rec :: rest) 0 0 ;;
            Ok [hdr ++ [("registered_users", VInt (fst totals));
                        ("app_opens", VInt (snd totals));
                        ("active_users", VNone)]]
        | _ => Ok []
        end
  | _ => Ok []
  end.

(** *** aggregated / insurance *)

Definition insurance_row (hdr : row) (rec : value) : result row :=
  ty <- get rec "name" orelse get rec "insuranceType" ;;
  policies <- (v <- get rec "count" orelse get rec "policies"
                    orelse Ok (VInt 0) ;; int v) ;;
  premium <- (v <- get rec "amount" orelse get rec "premium"
                   orelse Ok (VFloat float_zero) ;; to_float v) ;;
  Ok (hdr ++ [("insurance_type", ty);
              ("total_policies", VInt policies);
              ("total_premium", VFloat premium)]).

Definition parse_aggregated_insurance
  (j country state district year quarter source : value) : result (list row) :=
  let ins_list :=
    or_else (safe_get j ["data"; "insurance"])
      (or_else (safe_get j ["data"; "insuranceData"]) (VList [])) in
  let ins_list := if is_dict ins_list then VList [ins_list] else ins_list in
  recs <- iterate ins_list ;;
  mapM (insurance_row (header source country state district year quarter)) recs.

(** *** map *)

Definition metric_int (metric : value) (k1 k2 : string) : result value :=
  if is_dict metric
  then v <- get metric k1 orelse get metric k2 orelse Ok (VInt 0) ;;
       z <- int v ;; Ok (VInt z)
  else Ok VNone.

Definition metric_float (metric : value) (k1 k2 : string) : result value :=
  if is_dict metric
  then v <- get metric k1 orelse get metric k2 orelse Ok (VFloat float_zero) ;;
       f <- to_float v ;; Ok (VFloat f)
  else Ok VNone.

(** The containers of hover entries a transaction map file may use. *)
Definition transaction_candidates (data : value) : list (list value) :=
  match data with
  | VDict d =>
      flat_map (fun k => match lookup k d with
                         | Some (VList l) => [l]
                         | _ => []
                         end)
               ["hoverDataList"; "data"; "hoverData"; "states"]
  | VList l => [l]
  | _ => []
  end.

(** The body of the loop over the hover entries of a transaction map file:
    no row for an entry that is not a dict. *)
Definition map_transaction_item
  (source country state year quarter : value) (item : value) : result (list row) :=
  if negb (is_dict item) then Ok []
  else
    name <- get item "name" orelse get item "district" orelse get item "state"
            orelse Ok (VStr "Unknown") ;;
    metric <- get item "metric" orelse get item "values" orelse get item "value"
              orelse Ok (VDict []) ;;
    total_count <- metric_int metric "count" "totalCount" ;;
    total_amount <- metric_float metric "amount" "totalAmount" ;;
    Ok [header source country state name year quarter
        ++ [("total_tx_count", total_count); ("total_tx_amount", total_amount)]].

(** The body of the loop over the items of a [hoverData] dict. *)
Definition map_user_item
  (source country state year quarter : value) (kv : string * value)
  : result (list row) :=
  let (name, metric) := kv in
  if negb (is_dict metric) then Ok []
  else
    registered <- (v <- get metric "registeredUsers" orelse get metric "registered"
                        orelse Ok (VInt 0) ;; int v) ;;
    opens <- (v <- get metric "appOpens" orelse get metric "appOpensCount"
                   orelse Ok (VInt 0) ;; int v) ;;
    Ok [header source country state (VStr name) year quarter
        ++ [("registered_users", VInt registered); ("app_opens", VInt opens)]].

(** The row of a metric object of an insurance map file. *)
Definition map_insurance_metric
  (source country state year quarter : value) (name metric : value) : result row :=
  policies <- (v <- get metric "count" orelse get metric "policies"
                    orelse Ok (VInt 0) ;; int v) ;;
  premium <- (v <- get metric "amount" orelse get metric "premium"
                   orelse Ok (VFloat float_zero) ;; to_float v) ;;
  Ok (header source country state name year quarter
      ++ [("total_policies", VInt policies); ("total_premium", VFloat premium)]).

Definition map_insurance_candidate
  (source country state year quarter : value) (cand : value) : result (list row) :=
  match cand with
  | VList items =>
      flat_mapM (fun item =>
        if negb (is_dict item) then Ok []
        else
          name <- get item "name" orelse get item "district"
                  orelse Ok (VStr "Unknown") ;;
          r <- map_insurance_metric source country state year quarter name item ;;
          Ok [r]) items
  | VDict d =>
      flat_mapM (fun kv : string * value =>
        if negb (is_dict (snd kv)) then Ok []
        else
          r <- map_insurance_metric source country state year quarter
                 (VStr (fst kv)) (snd kv) ;;
          Ok [r]) d
  | _ => Ok []
  end.

Definition parse_map_json
  (j : value) (kind : string) (country state year quarter source : value)
  : result (list row) :=
  let data := or_else (safe_get j ["data"]) (VDict []) in
  if (kind =? "transaction")%string then
    flat_mapM (map_transaction_item source country state year quarter)
              (List.concat (transaction_candidates data))
  else if (kind =? "user")%string then
    h <- get data "hoverData" orelse Ok (VDict []) ;;
    match h with
    | VDict items =>
        flat_mapM (map_user_item source country state year quarter) items
    | _ => Ok []
    end
  else if (kind =? "insurance")%string then
    let candidates :=
      match data with
      | VDict d =>
          flat_map (fun k => match lookup k d with Some v => [v] | None => [] end)
                   ["hoverDataList"; "insurance"; "data"]
      | _ => []
      end in
    flat_mapM (map_insurance_candidate source country state year quarter)
              candidates
  else Ok [].

(** *** top *)

(** Every list that is the value of a key of [d] or of a dict nested in it,
    in iteration order. *)
Fixpoint find_lists (d : value) : list (list value) :=
  match d with
  | VDict m =>
      (fix items (m : list (string * value)) : list (list value) :=
         match m with
         | [] => []
         | (_, v) :: m' =>
             match v with
             | VList l => [l]
             | VDict _ => find_lists v
             | _ => []
             end ++ items m'
         end) m
  | _ => []
  end.

Definition top_item
  (kind : string) (source country state year quarter : value) (item : value)
  : result (list row) :=
  if negb (is_dict item) then Ok []
  else
    name <- get item "name" orelse get item "district" orelse get item "state" ;;
    pincode <- get item "pincode" orelse get item "pin" ;;
    rank <- (v <- get item "rank" orelse get item "position"
                  orelse Ok (VInt 0) ;; int v) ;;
    let hdr := header source country state name year quarter
               ++ [("pin_code", pincode); ("rank", VInt rank)] in
    if (kind =? "user")%string then
      reg <- (v <- get item "registeredUsers" orelse get item "count"
                   orelse Ok (VInt 0) ;; int v) ;;
      opens <- (v <- get item "appOpens" orelse Ok (VInt 0) ;; int v) ;;
      Ok [hdr ++ [("registered_users", VInt reg); ("app_opens", VInt opens)]]
    else if (kind =? "transaction")%string then
      tx_count <- (v <- get item "count" orelse get item "transactions"
                        orelse Ok (VInt 0) ;; int v) ;;
      tx_amount <- (v <- get item "amount" orelse get item "value"
                         orelse Ok (VFloat float_zero) ;; to_float v) ;;
      Ok [hdr ++ [("total_tx_count", VInt tx_count);
                  ("total_tx_amount", VFloat tx_amount)]]
    else if (kind =? "insurance")%string then
      pol <- (v <- get item "count" orelse get item "policies"
                   orelse Ok (VInt 0) ;; int v) ;;
      prem <- (v <- get item "amount" orelse get item "premium"
                    orelse Ok (VFloat float_zero) ;; to_float v) ;;
      Ok [hdr ++ [("total_policies", VInt pol); ("total_premium", VFloat prem)]]
    else Ok [].

Definition parse_top_json
  (j : value) (kind : string) (country state year quarter source : value)
  : result (list row) :=
  let data := or_else (safe_get j ["data"]) (VDict []) in
  let lists := find_lists data in
  let lists :=
    match lists, data with
    | [], VList l => [l]
    | _, _ => lists
    end in
  flat_mapM (top_item kind source country state year quarter) (List.concat lists).

(** ** The path context resolver *)

(** The five variables [parse_path_context] returns. *)
Record context : Type := Context {
  ctx_country : option string;
  ctx_state : option string;
  ctx_district : option string;
  ctx_year : option Z;
  ctx_quarter : option Z
}.

Definition no_context : context := Context None None None None None.

Definition set_country (c : string) (x : context) : context :=
  Context (Some c) (ctx_state x) (ctx_district x) (ctx_year x) (ctx_quarter x).
Definition set_state (s : string) (x : context) : context :=
  Context (ctx_country x) (Some s) (ctx_district x) (ctx_year x) (ctx_quarter x).
Definition set_year (y : Z) (x : context) : context :=
  Context (ctx_country x) (ctx_state x) (ctx_district x) (Some y) (ctx_quarter x).
Definition set_quarter (q : Z) (x : context) : context :=
  Context (ctx_country x) (ctx_state x) (ctx_district x) (ctx_year x) (Some q).

Local Open Scope io_scope.

(** The three statements every year-and-quarter branch ends with:
    [if tail[-2].isdigit(): year = int(tail[-2])],
    [q = Path(tail[-1]).stem], [if q.isdigit(): quarter = int(q)]. *)
Definition year_and_quarter (tail : list string) : M context unit :=
  y <- lift (item_back tail 2) ;;
  when (isdigit y) (n <- lift (int (VStr y)) ;; modify (set_year n)) ;;
  l <- lift (item_back tail 1) ;;
  let q := stem l in
  when (isdigit q) (n <- lift (int (VStr q)) ;; modify (set_quarter n)).

(** The statements of [parse_path_context] after [tail] is known. *)
Definition resolve (tail : list string) : M context unit :=
  when (4 <=? List.length tail)%nat
    (first <- lift (item tail 0) ;;
     if (first =? "aggregated")%string then
       when (mem "country" tail)
         (try_pass
            (ci <- lift (index "country" tail) ;;
             c <- lift (item tail (ci + 1)) ;;
             modify (set_country c) ;;
             year_and_quarter tail)) ;;
       when (mem "state" tail)
         (try_pass
            (si <- lift (index "state" tail) ;;
             st <- lift (item tail (si + 1)) ;;
             modify (set_state st) ;;
             year_and_quarter tail))
     else
       when (mem "country" tail && mem "india" tail)
         (try_pass (year_and_quarter tail)) ;;
       when (mem "state-wise" tail)
         (try_pass
            (si <- lift (index "state-wise" tail) ;;
             st <- lift (item tail (si + 1)) ;;
             modify (set_state st)))) ;;
  modify (fun x => match ctx_state x with
                   | Some st => set_state (replace "%20" " " st) x
                   | None => x
                   end).

(** The segments after the first [data] segment; after the first segment
    when there is none. *)
Definition tail_of (path_str : string) : list string :=
  let ps := parts path_str in
  let idx := match index "data" ps with Ok i => i | Raise _ => 0%nat end in
  skipn (idx + 1) ps.

Definition parse_path_context (path_str : string) : result context :=
  match resolve (tail_of path_str) no_context with
  | (Ok _, x) => Ok x
  | (Raise e, _) => Raise e
  end.

(** ** The load orchestrator *)

Inductive encoding : Type := Utf8 | Latin1.

(** What the run does to the outside, in the order it does it. *)
Inductive event : Type :=
| Opened (path : string) (enc : encoding)
| ToSql (table : string) (rows : list row)
| Logged (level : string).

Definition trace : Type := list event.

(** The outside of a run: the files [discover_json_files] lists for each
    category (sorted), what opening a file with an encoding and parsing it
    yields, and what the database does with a batch. *)
Record world : Type := World {
  discovered : string -> list string;
  read_json : string -> encoding -> result value;
  to_sql : string -> list row -> result unit
}.

Definition emit (e : event) : M trace unit := modify (fun t => t ++ [e]).

Definition bulk_insert (w : world) (df : list row) (table : string) : M trace nat :=
  match df with
  | [] => ret 0%nat
  | _ =>
      emit (ToSql table df) ;;
      match to_sql w table df with
      | Ok _ => ret (List.length df)
      | Raise e => emit (Logged "ERROR") ;; throw e
      end
  end.

(** [try: open as utf-8 and parse / except Exception: open as latin-1 and
    parse]. *)
Definition load_json (w : world) (p : string) : M trace value :=
  try_except
    (emit (Opened p Utf8) ;; lift (read_json w p Utf8))
    (emit (Opened p Latin1) ;; lift (read_json w p Latin1)).

Definition of_str (o : option string) : value :=
  match o with Some s => VStr s | None => VNone end.
Definition of_int (o : option Z) : value :=
  match o with Some z => VInt z | None => VNone end.

(** [df = pd.DataFrame(rows)], [if not df.empty: total += bulk_insert(...)]. *)
Definition insert (w : world) (rows : result (list row)) (table : string)
  (total : nat) : M trace nat :=
  df <- lift rows ;;
  match df with
  | [] => ret total
  | _ => n <- bulk_insert w df table ;; ret (total + n)%nat
  end.

(** The country the extractors receive: [country or 'india']. *)
Definition country_or_india (x : context) : value :=
  or_else (of_str (ctx_country x)) (VStr "india").

Definition aggregated_file (w : world) (total : nat) (p : string) : M trace nat :=
  j <- load_json w p ;;
  x <- lift (parse_path_context p) ;;
  let pp := replace "\" "/" p in
  let country := country_or_india x in
  let state := of_str (ctx_state x) in
  let district := of_str (ctx_district x) in
  let year := of_int (ctx_year x) in
  let quarter := of_int (ctx_quarter x) in
  if contains "/aggregated/transaction/" pp then
    insert w (parse_aggregated_transaction j country state district year quarter (VStr p))
           "aggregated_transaction" total
  else if contains "/aggregated/user/" pp then
    insert w (parse_aggregated_user j country state district year quarter (VStr p))
           "aggregated_user" total
  else if contains "/aggregated/insurance/" pp then
    insert w (parse_aggregated_insurance j country state district year quarter (VStr p))
           "aggregated_insurance" total
  else ret total.

Definition map_file (w : world) (total : nat) (p : string) : M trace nat :=
  j <- load_json w p ;;
  x <- lift (parse_path_context p) ;;
  let pp := replace "\" "/" p in
  let country := country_or_india x in
  let state := of_str (ctx_state x) in
  let year := of_int (ctx_year x) in
  let quarter := of_int (ctx_quarter x) in
  if contains "/map/transaction/" pp then
    insert w (parse_map_json j "transaction" country state year quarter (VStr p))
           "map_map" total
  else if contains "/map/user/" pp then
    insert w (parse_map_json j "user" country state year quarter (VStr p))
           "map_user" total
  else if contains "/map/insurance/" pp then
    insert w (parse_map_json j "insurance" country state year quarter (VStr p))
           "map_insurance" total
  else ret total.

Definition top_file (w : world) (total : nat) (p : string) : M trace nat :=
  j <- load_json w p ;;
  x <- lift (parse_path_context p) ;;
  let pp := replace "\" "/" p in
  let country := country_or_india x in
  let state := of_str (ctx_state x) in
  let year := of_int (ctx_year x) in
  let quarter := of_int (ctx_quarter x) in
  if contains "/top/transaction/" pp then
    insert w (parse_top_json j "transaction" country state year quarter (VStr p))
           "top_map" total
  else if contains "/top/user/" pp then
    insert w (parse_top_json j "user" country state year quarter (VStr p))
           "top_user" total
  else if contains "/top/insurance/" pp then
    insert w (parse_top_json j "insurance" country state year quarter (VStr p))
           "top_insurance" total
  else ret total.

(** A [for p in files] loop that updates [total]. *)
Fixpoint for_files (body : nat -> string -> M trace nat) (files : list string)
  (total : nat) : M trace nat :=
  match files with
  | [] => ret total
  | p :: rest => total' <- body total p ;; for_files body rest total'
  end.

Definition process_and_load (w : world) : M trace nat :=
  total <- for_files (aggregated_file w) (discovered w "aggregated") 0%nat ;;
  total <- for_files (map_file w) (discovered w "map") total ;;
  total <- for_files (top_file w) (discovered w "top") total ;;
  emit (Logged "INFO") ;;
  ret total.

End Etl.

Import Etl.

(** ** The tables *)

Module Tables.

(** The columns each [CREATE TABLE] statement of [DDLS] declares, in the
    order of the statement. *)
Definition DDLS : list (string * list string) :=
  [("aggregated_transaction",
    ["id"; "source_path"; "country"; "state"; "district"; "year"; "quarter";
     "transaction_type"; "transaction_count"; "transaction_amount"]);
   ("aggregated_user",
    ["id"; "source_path"; "country"; "state"; "district"; "year"; "quarter";
     "registered_users"; "app_opens"; "active_users"]);
   ("aggregated_insurance",
    ["id"; "source_path"; "country"; "state"; "district"; "year"; "quarter";
     "insurance_type"; "total_policies"; "total_premium"]);
   ("map_user",
    ["id"; "source_path"; "country"; "state"; "district"; "year"; "quarter";
     "registered_users"; "app_opens"]);
   ("map_map",
    ["id"; "source_path"; "country"; "state"; "district"; "year"; "quarter";
     "total_tx_count"; "total_tx_amount"]);
   ("map_insurance",
    ["id"; "source_path"; "country"; "state"; "district"; "year"; "quarter";
     "total_policies"; "total_premium"]);
   ("top_user",
    ["id"; "source_path"; "country"; "state"; "district"; "year"; "quarter";
     "pin_code"; "rank"; "registered_users"; "app_opens"]);
   ("top_map",
    ["id"; "source_path"; "country"; "state"; "district"; "year"; "quarter";
     "pin_code"; "rank"; "total_tx_count"; "total_tx_amount"]);
   ("top_insurance",
    ["id"; "source_path"; "country"; "state"; "district"; "year"; "quarter";
     "pin_code"; "rank"; "total_policies"; "total_premium"])].

End Tables.

(** ** File discovery *)

From Stdlib Require Import Sorting.Mergesort Sorting.Sorted Sorting.Permutation.
From Stdlib Require Import Orders Relations.

(** The order [list.sort] puts paths in: that of their code points. *)
Module PathOrder <: Orders.TotalLeBool.
Definition t : Type := string.
Definition leb : string -> string -> bool := String.leb.
Lemma leb_total : forall a1 a2, leb a1 a2 = true \/ leb a2 a1 = true.
Proof. exact String.leb_total. Qed.
End PathOrder.

Module PathSort := Sort PathOrder.

Module Discovery.

(** The source tree, as the loader sees it: what [base.exists()] returns for
    [data/<category>], and the paths [base.rglob("*.json")] lists under it,
    in the order the file system gives them. Either may raise: [exists]
    re-raises what [stat] raises for a folder that cannot be examined, and
    the listing what [scandir] raises for one that cannot be read. *)
Record tree : Type := Tree {
  exists_dir : string -> result bool;
  rglob_json : string -> result (list string)
}.

(** [results[k].sort()]. *)
Definition sort (l : list string) : list string := PathSort.sort l.

(** The body of the loop over the categories. *)
Definition category_files (fs : tree) (cat : string) : M trace (list string) :=
  (there <- lift (exists_dir fs cat) ;;
   if there then lift (rglob_json fs cat)
   else (emit (Logged "WARNING") ;; ret []))%io.

Fixpoint for_categories (fs : tree) (cats : list string)
  : M trace (list (string * list string)) :=
  match cats with
  | [] => ret []
  | cat :: rest =>
      (found <- category_files fs cat ;;
       results <- for_categories fs rest ;;
       ret ((cat, found) :: results))%io
  end.

Definition discover_json_files (fs : tree) : M trace (list (string * list string)) :=
  (results <- for_categories fs ["aggregated"; "map"; "top"] ;;
   let results := map (fun kv => (fst kv, sort (snd kv))) results in
   emit (Logged "INFO") ;;
   ret results)%io.

(** [files.get(category, [])]. *)
Definition files_get (files : list (string * list string)) (category : string)
  : list string :=
  match lookup category files with Some l => l | None => [] end.

(** [process_and_load], from the discovery of the files on. *)
Definition discover_and_load (fs : tree)
  (read : string -> encoding -> result value)
  (sql : string -> list row -> result unit) : M trace nat :=
  (files <- discover_json_files fs ;;
   process_and_load (World (files_get files) read sql))%io.

End Discovery.

Import Tables Discovery.

(** * The vocabulary of the specification *)

(** ** Path segments *)

(** A numeric segment: one or more of the characters 0 to 9. *)
Definition decimal (s : string) : bool :=
  negb (s =? "")%string && all_chars is_decimal s.

Fixpoint digits_value (acc : Z) (s : string) : Z :=
  match s with
  | EmptyString => acc
  | String c s' => digits_value (10 * acc + digit_val c) s'
  end.

(** The number a numeric segment writes in base ten. *)
Definition decimal_value (s : string) : Z := digits_value 0 s.

(** A numeric segment that is not too long to be converted: it has at most
    4300 digits. *)
Definition numeric (s : string) : bool :=
  decimal s && (Z.of_nat (String.length s) <=? 4300).

(** What the resolver reads from a segment that is numeric, or that
    [isdigit] rejects. *)
Definition read_int (s : string) : option Z :=
  if numeric s then Some (decimal_value s) else None.

(** A segment on which [isdigit] and [int] agree: it is numeric, or it does
    not look numeric at all. *)
Definition regular (s : string) : Prop := numeric s = true \/ isdigit s = false.

(** A piece of a name: a text in which [%20] does not occur. *)
Definition plain (w : string) : Prop := contains "%20" w = false.

(** A name written with [%20] between its pieces, and with spaces. *)
Definition encoded_name (pieces : list string) : string :=
  String.concat "%20" pieces.
Definition spaced_name (pieces : list string) : string :=
  String.concat " " pieces.

Definition with_year (o : option Z) (x : context) : context :=
  match o with Some n => set_year n x | None => x end.
Definition with_quarter (o : option Z) (x : context) : context :=
  match o with Some n => set_quarter n x | None => x end.

(** The last statement of the resolver. *)
Definition decoded (x : context) : context :=
  match ctx_state x with
  | Some st => set_state (replace "%20" " " st) x
  | None => x
  end.

(** What becomes of a segment the resolver reads a number from. *)
Inductive reading : Type :=
| Skipped
| Converted (n : Z)
| Rejected.

(** A segment that [isdigit] turns down is skipped; one it accepts is handed
    to [int], which converts a numeric segment and rejects the others: those
    with a superscript digit (U+00B2, U+00B3, U+00B9), and those of more than
    4300 digits. *)
Definition read_segment (s : string) : reading :=
  if isdigit s
  then if numeric s then Converted (decimal_value s) else Rejected
  else Skipped.

Definition year_read (y : string) : option Z :=
  match read_segment y with Converted n => Some n | _ => None end.

(** The quarter is read after the year, under the same handler: a rejected
    year segment leaves it unread. *)
Definition quarter_read (y q : string) : option Z :=
  match read_segment y with
  | Rejected => None
  | _ => match read_segment q with Converted n => Some n | _ => None end
  end.

(** The segment after the first occurrence of a marker, when there is such a
    segment. *)
Fixpoint follower (m : string) (tail : list string) : option string :=
  match tail with
  | [] => None
  | s :: rest => if (s =? m)%string then hd_error rest else follower m rest
  end.

Definition is_some {A} (o : option A) : bool :=
  match o with Some _ => true | None => false end.

(** The context of a path, from the segments after its data segment.
    - Fewer than four segments: nothing.
    - An aggregated path: the country and the state are the segments after
      the first country and state markers; the year and the quarter are read,
      from the last two segments, when one of the two names was.
    - A map or a top path: no country; the state is the segment after the
      first state-wise marker; the year and the quarter are read when both a
      country and an india segment occur. *)
Definition expected_context (tail : list string) : context :=
  match rev tail with
  | l :: y :: _ :: _ :: _ =>
      if (hd "" tail =? "aggregated")%string then
        let country := follower "country" tail in
        let state := follower "state" tail in
        let reached := is_some country || is_some state in
        Context country (option_map (replace "%20" " ") state) None
                (if reached then year_read y else None)
                (if reached then quarter_read y (stem l) else None)
      else
        let reached := mem "country" tail && mem "india" tail in
        Context None
                (option_map (replace "%20" " ") (follower "state-wise" tail)) None
                (if reached then year_read y else None)
                (if reached then quarter_read y (stem l) else None)
  | _ => no_context
  end.

Definition kinds : list string := ["transaction"; "user"; "insurance"].
Definition categories : list string := ["aggregated"; "map"; "top"].

(** ** Documents *)

(** The keys under which a hover entry may carry its measurement group. *)
Definition group_keys : list string := ["metric"; "values"; "value"].

(** The first truthy value stored under one of the keys, taken in their
    order: what a chain [d.get(k1) or d.get(k2) or ...] stops at. *)
Definition first_truthy (d : list (string * value)) (keys : list string)
  : option value :=
  find truthy (map (dict_get d) keys).

Definition field (x : value) (k : string) : value :=
  match x with VDict d => dict_get d k | _ => VNone end.

Definition is_total (inst : value) : bool := eq_str (field inst "type") "TOTAL".

(** The count an instrument adds to the fallback sum. *)
Definition count_of (inst : value) : Z :=
  match field inst "count" with VInt n => n | _ => 0 end.

(** The amount an instrument adds to the fallback sum; a zero of either sign
    counts as [0.0]. *)
Definition amount_of (inst : value) : float :=
  match field inst "amount" with
  | VFloat f => if truthy (VFloat f) then f else float_zero
  | _ => float_zero
  end.

(** An instrument entry: an object whose count, when present, is an int and
    whose amount, when present, is a float. *)
Definition is_instrument (inst : value) : bool :=
  match inst with
  | VDict d =>
      match dict_get d "count" with VNone | VInt _ => true | _ => false end
      && match dict_get d "amount" with VNone | VFloat _ => true | _ => false end
  | _ => false
  end.

Definition instruments_of (rec : value) : list value :=
  match rec with
  | VDict d =>
      match lookup "paymentInstruments" d with Some (VList l) => l | _ => [] end
  | _ => []
  end.

(** A transaction-type entry: an object whose [paymentInstruments], when
    present, is a list of instrument entries. *)
Definition is_entry (rec : value) : bool :=
  match rec with
  | VDict d =>
      match lookup "paymentInstruments" d with
      | None => true
      | Some (VList l) => forallb is_instrument l
      | Some _ => false
      end
  | _ => false
  end.

(** The count of a transaction type: that of the first instrument tagged
    TOTAL when it has one, the sum over all instruments otherwise. *)
Definition expected_count (insts : list value) : Z :=
  match find is_total insts with
  | Some t =>
      match field t "count" with
      | VInt n => n
      | _ => sum_int (map count_of insts)
      end
  | None => sum_int (map count_of insts)
  end.

Definition expected_amount (insts : list value) : float :=
  match find is_total insts with
  | Some t =>
      match field t "amount" with
      | VFloat f => f
      | _ => fold_left fadd (map amount_of insts) float_zero
      end
  | None => fold_left fadd (map amount_of insts) float_zero
  end.

Definition expected_transaction_row (hdr : row) (rec : value) : row :=
  hdr ++ [("transaction_type", field rec "name");
          ("transaction_count", VInt (expected_count (instruments_of rec)));
          ("transaction_amount", VFloat (expected_amount (instruments_of rec)))].

(** The int stored under [k]; [0] when the key is missing or null. *)
Definition int_under (d : list (string * value)) (k : string) : Z :=
  match lookup k d with Some (VInt n) => n | _ => 0 end.

(** A counter read under its two names: the first, unless it is missing or
    zero. *)
Definition alias_int (rec : value) (k1 k2 : string) : Z :=
  match rec with
  | VDict d => if int_under d k1 =? 0 then int_under d k2 else int_under d k1
  | _ => 0
  end.

Definition int_or_missing (d : list (string * value)) (k : string) : bool :=
  match lookup k d with
  | None | Some VNone | Some (VInt _) => true
  | _ => false
  end.

(** A per-device breakdown: an object whose counters, where present, are
    ints. *)
Definition is_breakdown (rec : value) : bool :=
  match rec with
  | VDict d =>
      int_or_missing d "registeredUsers" && int_or_missing d "count"
      && int_or_missing d "appOpens" && int_or_missing d "appOpensCount"
  | _ => false
  end.

Definition total (f : value -> Z) (l : list value) : Z :=
  fold_right Z.add 0 (map f l).

(** ** Runs *)

(** The three loop bodies of [process_and_load]. *)
Definition bodies (w : world) : list (nat -> string -> M trace nat) :=
  [aggregated_file w; map_file w; top_file w].

(** The route of a path: the table whose marker it holds. *)
Definition route_marker (category kind : string) : string :=
  ("/" ++ category ++ "/" ++ kind ++ "/")%string.

(** The country of a file: the one its path names, 'india' when it names
    none. *)
Definition country_name (x : context) : string :=
  match ctx_country x with Some c => c | None => "india" end.

(** A row of the file [p]: it names the file, and its country. *)
Definition row_of (p : string) (x : context) (r : row) : Prop :=
  lookup "source_path" r = Some (VStr p)
  /\ lookup "country" r = Some (VStr (country_name x)).

(** What a file was read as: what utf-8 yields, or what latin-1 yields when
    utf-8 fails. *)
Definition read_as (w : world) (p : string) (j : value) : Prop :=
  read_json w p Utf8 = Ok j
  \/ (exists e, read_json w p Utf8 = Raise e) /\ read_json w p Latin1 = Ok j.

(** The table of a category and kind. *)
Definition table_of (category kind : string) : string :=
  if (category =? "aggregated")%string then ("aggregated_" ++ kind)%string
  else if (kind =? "transaction")%string then (category ++ "_map")%string
  else (category ++ "_" ++ kind)%string.

(** The extractor call of a category and kind, on the document [j] of the
    file [p] whose context is [x]. *)
Definition extract (category kind : string) (j : value) (x : context)
  (p : string) : result (list row) :=
  let country := VStr (country_name x) in
  let state := of_str (ctx_state x) in
  let district := of_str (ctx_district x) in
  let year := of_int (ctx_year x) in
  let quarter := of_int (ctx_quarter x) in
  if (category =? "aggregated")%string then
    if (kind =? "transaction")%string then
      parse_aggregated_transaction j country state district year quarter (VStr p)
    else if (kind =? "user")%string then
      parse_aggregated_user j country state district year quarter (VStr p)
    else
      parse_aggregated_insurance j country state district year quarter (VStr p)
  else if (category =? "map")%string then
    parse_map_json j kind country state year quarter (VStr p)
  else
    parse_top_json j kind country state year quarter (VStr p).

(** A batch of a table: the rows the table's extractor returned for a file
    that was discovered under the table's category, whose path holds the
    table's marker, on the document the file was read as and the context of
    its path. *)
Definition batch_of (w : world) (table : string) (rows : list row) : Prop :=
  exists category kind p j x,
    In category categories /\ In kind kinds
    /\ In p (discovered w category)
    /\ read_as w p j
    /\ parse_path_context p = Ok x
    /\ contains (route_marker category kind) (replace "\" "/" p) = true
    /\ table = table_of category kind
    /\ extract category kind j x p = Ok rows.

Definition linked_event (w : world) (ev : event) : Prop :=
  match ev with
  | ToSql table rows => rows <> [] /\ batch_of w table rows
  | _ => True
  end.

(** The three loops of [process_and_load]: the category and the body. *)
Definition loops (w : world) : list (string * (nat -> string -> M trace nat)) :=
  [("aggregated", aggregated_file w); ("map", map_file w); ("top", top_file w)].

(** * Sample inputs *)

(** The float written [m * 10 ^ e10]. *)
Definition dec (m e10 : Z) : float := float_of_decimal false m e10.

(** The header of a row of the first quarter of 2022, for all of India. *)
Definition sample_header : row :=
  header (VStr "1.json") (VStr "india") VNone VNone (VInt 2022) (VInt 1).

(** An aggregated-transaction document with one transaction type. *)
Definition transaction_doc (instruments : list value) : value :=
  VDict [("data", VDict [("transactionData",
    VList [VDict [("name", VStr "Peer-to-peer payments");
                  ("paymentInstruments", VList instruments)]])])].

Definition instruments_with_total : list value :=
  [VDict [("type", VStr "TOTAL"); ("count", VInt 100); ("amount", VFloat (dec 5000 0))];
   VDict [("type", VStr "PhonePe"); ("count", VInt 60); ("amount", VFloat (dec 3000 0))]].

Definition instruments_without_total : list value :=
  [VDict [("type", VStr "UPI"); ("count", VInt 10); ("amount", VFloat (dec 15 (-1)))];
   VDict [("type", VStr "Card"); ("count", VInt 20); ("amount", VFloat (dec 25 (-1)))]].

(** The instrument tagged TOTAL carries an amount and no count. *)
Definition instruments_total_without_count : list value :=
  [VDict [("type", VStr "TOTAL"); ("amount", VFloat (dec 5000 0))];
   VDict [("type", VStr "PhonePe"); ("count", VInt 60); ("amount", VFloat (dec 3000 0))]].

Definition doc_summary : value :=
  VDict [("data", VDict [("registeredUsers", VInt 500)])].

Definition devices : list value :=
  [VDict [("brand", VStr "Xiaomi"); ("count", VInt 10)];
   VDict [("registeredUsers", VInt 5); ("appOpens", VInt 7)]].

Definition doc_devices : value :=
  VDict [("data", VDict [("usersByDevice", VList devices)])].

Definition doc_no_devices : value :=
  VDict [("data", VDict [("usersByDevice", VList [])])].

Definition hover_without_group : list (string * value) := [("name", VStr "Pune")].

(** A hover entry whose measurement group is a number. *)
Definition hover_with_number : list (string * value) :=
  [("name", VStr "Pune"); ("metric", VInt 5)].

Definition doc_hover_without_group : value :=
  VDict [("data", VDict [("hoverDataList", VList [VDict hover_without_group])])].

Definition doc_pune : value :=
  VDict [("data", VDict [("hoverDataList",
    VList [VDict [("name", VStr "Pune");
                  ("metric", VDict [("count", VInt 5);
                                    ("amount", VFloat (dec 12005 (-1)))])]])])].

Definition path_country : string :=
  "/repo/pulse/data/aggregated/transaction/country/india/2022/1.json".

Definition path_state_wise : string :=
  "/repo/pulse/data/top/transaction/state-wise/Tamil%20Nadu/2022/1.json".

(** A state marker with no segment after it, behind a numeric segment. *)
Definition path_state_last : string := "data/aggregated/transaction/2022/state".

Definition path_karnataka : string :=
  "/repo/pulse/data/map/transaction/hover/state-wise/Karnataka/2021/4.json".

(** A country marker and a year, then a state marker with nothing after
    it. *)
Definition path_state_after_year : string :=
  "data/aggregated/transaction/country/india/2022/state".

Fixpoint ones (n : nat) : string :=
  match n with
  | O => EmptyString
  | S n' => String "1" (ones n')
  end.

(** A year segment of 4301 digits, one more than [int] converts. *)
Definition path_overlong_year : string :=
  ("data/aggregated/user/country/india/" ++ ones (Z.to_nat 4301) ++ "/3.json")%string.

(** A year segment written with the superscript two (U+00B2). *)
Definition path_superscript_year : string :=
  ("data/aggregated/user/country/india/20"
   ++ String (ascii_of_nat 178) "2/3.json")%string.

Definition file_a : string :=
  "/repo/pulse/data/aggregated/user/country/india/2022/1.json".
Definition file_b : string :=
  "/repo/pulse/data/aggregated/user/country/india/2022/2.json".

Definition aggregated_only (files : list string) (category : string) : list string :=
  if (category =? "aggregated")%string then files else [].

(** [file_a] cannot be read in either encoding; [file_b] is fine. *)
Definition world_unreadable : world :=
  World (aggregated_only [file_a; file_b])
        (fun p _ => if (p =? file_a)%string then Raise ValueError else Ok doc_summary)
        (fun _ _ => Ok tt).

(** [file_a] holds the empty object. *)
Definition world_empty_object : world :=
  World (aggregated_only [file_a; file_b])
        (fun p _ => if (p =? file_a)%string then Ok (VDict []) else Ok doc_summary)
        (fun _ _ => Ok tt).

Definition world_single : world :=
  World (aggregated_only [file_a]) (fun _ _ => Ok doc_summary) (fun _ _ => Ok tt).

Definition file_map : string :=
  "/repo/pulse/data/map/transaction/hover/country/india/2022/1.json".

(** One map file, whose path names no country. *)
Definition world_map : world :=
  World (fun category => if (category =? "map")%string then [file_map] else [])
        (fun _ _ => Ok doc_pune) (fun _ _ => Ok tt).

Definition pune_map_row : row :=
  header (VStr file_map) (VStr "india") VNone (VStr "Pune") (VInt 2022) (VInt 1)
  ++ [("total_tx_count", VInt 5); ("total_tx_amount", VFloat (dec 12005 (-1)))].

Definition summary_row : row :=
  header (VStr file_a) (VStr "india") VNone VNone (VInt 2022) (VInt 1)
  ++ [("registered_users", VInt 500); ("app_opens", VInt 0); ("active_users", VNone)].

(** * The vocabulary of the further properties *)

(** ** Nested documents *)

(** The document [{k1: {k2: ... {kn: v}}}]. *)
Fixpoint nested (keys : list string) (v : value) : value :=
  match keys with
  | [] => v
  | k :: keys' => VDict [(k, nested keys' v)]
  end.

(** ** Aggregated user payloads *)

(** A data payload that has neither shape of an aggregated-user document: no
    summary key, and no non-empty [usersByDevice] list. *)
Definition neither_shape (data : value) : bool :=
  match data with
  | VDict d =>
      negb (existsb (fun k => has_key k d) summary_keys)
      && match dict_get d "usersByDevice" with
         | VList (_ :: _) => false
         | _ => true
         end
  | _ => true
  end.


(** ** Insurance entries *)

(** The first of the two insurance containers that is truthy. *)
Definition insurance_source (j : value) : value :=
  or_else (safe_get j ["data"; "insurance"]) (safe_get j ["data"; "insuranceData"]).

(** The entries of a container: those of a list, or the object itself. *)
Definition policies_of (payload : value) : option (list value) :=
  match payload with
  | VList l => Some l
  | VDict _ => Some [payload]
  | _ => None
  end.

Definition float_or_missing (d : list (string * value)) (k : string) : bool :=
  match lookup k d with
  | None | Some VNone | Some (VFloat _) => true
  | _ => false
  end.

(** The float stored under [k]; [0.0] when it is missing, null or a zero. *)
Definition float_under (d : list (string * value)) (k : string) : float :=
  match lookup k d with
  | Some (VFloat f) => if truthy (VFloat f) then f else float_zero
  | _ => float_zero
  end.

(** An amount read under its two names: the first, unless it is missing or
    zero. *)
Definition alias_float (rec : value) (k1 k2 : string) : float :=
  match rec with
  | VDict d =>
      if truthy (VFloat (float_under d k1)) then float_under d k1
      else float_under d k2
  | _ => float_zero
  end.

(** An insurance entry: an object whose counts, where present, are ints and
    whose amounts, where present, are floats. *)
Definition is_policy (rec : value) : bool :=
  match rec with
  | VDict d =>
      int_or_missing d "count" && int_or_missing d "policies"
      && float_or_missing d "amount" && float_or_missing d "premium"
  | _ => false
  end.

Definition expected_insurance_row (hdr : row) (rec : value) : row :=
  hdr ++ [("insurance_type",
           or_else (field rec "name") (field rec "insuranceType"));
          ("total_policies", VInt (alias_int rec "count" "policies"));
          ("total_premium", VFloat (alias_float rec "amount" "premium"))].

(** ** Instruments *)

(** An object that is not tagged TOTAL. *)
Definition plain_instrument (inst : value) : bool :=
  is_dict inst && negb (is_total inst).


(** ** Map and top documents *)

(** The document [{"data": {key: payload}}]. *)
Definition data_doc (key : string) (payload : value) : value :=
  VDict [("data", VDict [(key, payload)])].

(** The data payload an extractor works on: [safe_get(j, "data") or {}]. *)
Definition payload_of (j : value) : value :=
  or_else (safe_get j ["data"]) (VDict []).

(** The lists [find_lists] is meant to find: the values of the keys of a
    dict, and of the dicts nested in it through dict values. *)
Inductive held_list : value -> list value -> Prop :=
| held_here (d : list (string * value)) (k : string) (l : list value) :
    In (k, VList l) d -> held_list (VDict d) l
| held_below (d d' : list (string * value)) (k : string) (l : list value) :
    In (k, VDict d') d -> held_list (VDict d') l -> held_list (VDict d) l.

Fixpoint size (v : value) : nat :=
  match v with
  | VList l => S (fold_right (fun x n => size x + n)%nat 0%nat l)
  | VDict d =>
      S ((fix items (d : list (string * value)) : nat :=
            match d with
            | [] => 0
            | (_, x) :: d' => size x + items d'
            end%nat) d)
  | _ => 1%nat
  end.

Definition count_objects (items : list value) : nat :=
  List.length (filter is_dict items).

(** The items [parse_top_json] visits. *)
Definition top_items (data : value) : list value :=
  let lists := find_lists data in
  List.concat (match lists, data with
               | [], VList l => [l]
               | _, _ => lists
               end).

(** ** Paths *)

(** Where a country comes from: the segment after the first country marker
    of an aggregated path. *)
Definition country_source (tail : list string) (x : context) : Prop :=
  forall c, ctx_country x = Some c ->
    exists rest i, tail = "aggregated" :: rest
                   /\ index "country" tail = Ok i /\ item tail (i + 1) = Ok c.

(** ** Batches *)

(** The batches the loader can hand to a table: the rows one extractor call
    returned, for the extractor and kind that belong to the table. *)
Inductive batch : string -> list row -> Prop :=
| batch_aggregated_transaction j c s d y q src rows :
    parse_aggregated_transaction j c s d y q src = Ok rows ->
    batch "aggregated_transaction" rows
| batch_aggregated_user j c s d y q src rows :
    parse_aggregated_user j c s d y q src = Ok rows ->
    batch "aggregated_user" rows
| batch_aggregated_insurance j c s d y q src rows :
    parse_aggregated_insurance j c s d y q src = Ok rows ->
    batch "aggregated_insurance" rows
| batch_map_map j c s y q src rows :
    parse_map_json j "transaction" c s y q src = Ok rows -> batch "map_map" rows
| batch_map_user j c s y q src rows :
    parse_map_json j "user" c s y q src = Ok rows -> batch "map_user" rows
| batch_map_insurance j c s y q src rows :
    parse_map_json j "insurance" c s y q src = Ok rows ->
    batch "map_insurance" rows
| batch_top_map j c s y q src rows :
    parse_top_json j "transaction" c s y q src = Ok rows -> batch "top_map" rows
| batch_top_user j c s y q src rows :
    parse_top_json j "user" c s y q src = Ok rows -> batch "top_user" rows
| batch_top_insurance j c s y q src rows :
    parse_top_json j "insurance" c s y q src = Ok rows ->
    batch "top_insurance" rows.

(** A row that supplies every column of its table but the generated id, in
    the order of the table. *)
Definition fits (table : string) (r : row) : Prop :=
  lookup table DDLS = Some ("id" :: map fst r).

(** The number of rows the sink was handed. *)
Definition rows_written (t : trace) : nat :=
  fold_right (fun ev n => match ev with
                          | ToSql _ rows => List.length rows + n
                          | _ => n
                          end)%nat 0%nat t.

(** The files opened as utf-8, in order. *)
Definition opened_first (t : trace) : list string :=
  flat_map (fun ev => match ev with Opened p Utf8 => [p] | _ => [] end) t.

(** ** Outcomes of a run *)

Definition no_error (t : trace) : Prop := ~ In (Logged "ERROR") t.

(** The trace of a run that the sink stopped with [e]: it ends with the batch
    the sink refused and the ERROR line. *)
Definition failed_at (w : world) (e : exn) (t : trace) : Prop :=
  exists t0 table rows,
    t = t0 ++ [ToSql table rows; Logged "ERROR"]
    /\ to_sql w table rows = Raise e.

Definition outcome_ok {A} (w : world) (out : result A * trace) : Prop :=
  match fst out with
  | Ok _ => no_error (snd out)
  | Raise e => no_error (snd out) \/ failed_at w e (snd out)
  end.

(** ** Discovered files *)

(** What examining a category yields: its files, none for a folder that
    does not exist, or the exception of the existence test or of the
    listing. *)
Definition listing (fs : tree) (category : string) : result (list string) :=
  (there <- exists_dir fs category ;;
   if there then rglob_json fs category else Ok [])%res.

(** What the loader finds under a category. *)
Definition found (fs : tree) (category : string) : list string :=
  match listing fs category with Ok l => l | Raise _ => [] end.

(** The folder of the category is reported missing. *)
Definition is_missing (fs : tree) (category : string) : bool :=
  match exists_dir fs category with Ok false => true | _ => false end.

Definition missing (fs : tree) : list string :=
  filter (is_missing fs) categories.

(** Two outcomes of examining a category that hold the same files, or raise
    the same exception. *)
Definition same_files (r1 r2 : result (list string)) : Prop :=
  match r1, r2 with
  | Ok l1, Ok l2 => Permutation l1 l2
  | Raise e1, Raise e2 => e1 = e2
  | _, _ => False
  end.

Definition leb_path (a b : string) : Prop := String.leb a b = true.

(** ** Further sample inputs *)


(** A single insurance object under the second container name. *)
Definition policy : value :=
  VDict [("name", VStr "Insurance"); ("count", VInt 3);
         ("amount", VFloat (dec 1005 (-1)))].

Definition doc_policy : value := VDict [("data", VDict [("insuranceData", policy)])].


Definition entry_with_text_total : list (string * value) :=
  [("name", VStr "Recharge");
   ("paymentInstruments",
    VList [VDict [("type", VStr "TOTAL"); ("count", VStr "abc")]])].

Definition pune : value :=
  VDict [("name", VStr "Pune");
         ("metric", VDict [("count", VInt 5); ("amount", VFloat (dec 12005 (-1)))])].

(** A top document: one list of districts, nested under [districts]. *)
Definition doc_top : value :=
  VDict [("data", VDict [("districts",
    VList [VDict [("name", VStr "Pune"); ("rank", VInt 1); ("count", VInt 9)];
           VStr "n/a"]);
    ("pincodes", VNone)])].

Definition top_rows : list row :=
  Eval vm_compute in
    match parse_top_json doc_top "transaction"
            (VStr "india") VNone (VInt 2022) (VInt 1) (VStr "1.json") with
    | Ok rows => rows
    | Raise _ => []
    end.

Definition path_short : string := "/repo/pulse/data/aggregated/2022/1.json".

Definition path_aggregated_state : string :=
  "/repo/pulse/data/aggregated/transaction/country/india/state/tamil-nadu/2022/1.json".

Definition path_map_state : string :=
  "/repo/pulse/data/map/transaction/hover/country/india/state/tamil-nadu/2022/1.json".

(** The sink refuses every batch. *)
Definition world_sink_down : world :=
  World (aggregated_only [file_a; file_b]) (fun _ _ => Ok doc_summary)
        (fun _ _ => Raise DatabaseError).

Definition file_unrouted : string := "/repo/pulse/data/aggregated/misc/2022/1.json".

Definition world_unrouted : world :=
  World (aggregated_only [file_unrouted]) (fun _ _ => Ok doc_summary)
        (fun _ _ => Ok tt).

(** Two trees that hold the same two aggregated files, listed in opposite
    orders; neither has a map or a top folder. *)
Definition tree_ab : tree :=
  Tree (fun c => Ok (c =? "aggregated")%string)
       (fun c => Ok (aggregated_only [file_a; file_b] c)).
Definition tree_ba : tree :=
  Tree (fun c => Ok (c =? "aggregated")%string)
       (fun c => Ok (aggregated_only [file_b; file_a] c)).

(** The aggregated folder holds [file_a]; the map folder cannot be
    examined. *)
Definition tree_locked : tree :=
  Tree (fun c => if (c =? "map")%string then Raise OSError else Ok true)
       (fun c => Ok (aggregated_only [file_a] c)).

(** * Properties *)

(** ** Reading the monadic definitions *)

Lemma rbind_ok {A B} (c : result A) (k : A -> result B) (b : B) :
  rbind c k = Ok b -> exists a, c = Ok a /\ k a = Ok b.
Proof.
  destruct c as [a|e]; simpl; intro H; [exists a; auto | discriminate].
Qed.

(** Take apart a hypothesis stating that a chain of binds returned. *)
Ltac ok_inv :=
  repeat match goal with
    | H : rbind _ _ = Ok _ |- _ =>
        let a := fresh "a" in
        let Ha := fresh "Ha" in
        apply rbind_ok in H; destruct H as (a & Ha & H)
    | H : Ok _ = Ok _ |- _ => injection H as H; try subst
    | H : Raise _ = Ok _ |- _ => discriminate H
    | H : (if ?b then _ else _) = Ok _ |- _ => destruct b eqn:?
    end.

Lemma mapM_Forall {A B} (P : B -> Prop) (f : A -> result B) :
  (forall a b, f a = Ok b -> P b) ->
  forall l bs, mapM f l = Ok bs -> Forall P bs.
Proof.
  intros Hf; induction l as [|x l IH]; simpl; intros bs H.
  - injection H as <-. constructor.
  - ok_inv. constructor; eauto.
Qed.

Lemma flat_mapM_Forall {A B} (P : B -> Prop) (f : A -> result (list B)) :
  (forall a bs, f a = Ok bs -> Forall P bs) ->
  forall l bs, flat_mapM f l = Ok bs -> Forall P bs.
Proof.
  intros Hf; induction l as [|x l IH]; simpl; intros bs H.
  - injection H as <-. constructor.
  - ok_inv. apply Forall_app; split; eauto.
Qed.

Lemma mapM_pure {A B} (f : A -> result B) (g : A -> B) :
  forall l, Forall (fun a => f a = Ok (g a)) l -> mapM f l = Ok (map g l).
Proof.
  induction 1 as [|x l Hx _ IH]; simpl; [reflexivity|].
  rewrite Hx, IH. reflexivity.
Qed.

(** A chain of [get]s on a dict, closed by a constant, returns. *)
Lemma alias_chain_ok (d : list (string * value)) (keys : list string) (dflt : value) :
  exists v,
    fold_right (fun k acc => or_lazy (get (VDict d) k) acc) (Ok dflt) keys = Ok v.
Proof.
  induction keys as [|k keys [v IH]]; cbn [fold_right]; [eauto|].
  unfold or_lazy at 1. cbn [get rbind]. destruct (truthy (dict_get d k)); eauto.
Qed.

Lemma or_zero_int (n : Z) :
  rbind (or_lazy (Ok (VInt n)) (Ok (VInt 0))) (fun v => int v) = Ok n.
Proof.
  unfold or_lazy; simpl. destruct (Z.eqb_spec n 0) as [->|]; reflexivity.
Qed.

(** ** Aggregated user documents *)

(** C6. An aggregated-user document whose data payload has the summary shape
    with [registeredUsers] = n (500 in the specification's example), no
    [activeUsers] key, and [appOpens] missing or an int, yields exactly one
    row, with registered_users = n and active_users null, not 0. *)
Theorem aggregated_user_summary_without_active_users
  (j country state district year quarter source : value)
  (d : list (string * value)) (n opens : Z)
  (Hdata : safe_get j ["data"] = VDict d)
  (Hreg : lookup "registeredUsers" d = Some (VInt n))
  (Hopens : lookup "appOpens" d = None /\ opens = 0
            \/ lookup "appOpens" d = Some (VInt opens))
  (Hactive : lookup "activeUsers" d = None) :
  parse_aggregated_user j country state district year quarter source
  = Ok [header source country state district year quarter
        ++ [("registered_users", VInt n); ("app_opens", VInt opens);
            ("active_users", VNone)]].
Proof.
  unfold parse_aggregated_user. rewrite Hdata.
  assert (Ht : truthy (VDict d) = true)
    by (destruct d; [discriminate Hreg | reflexivity]).
  unfold or_else. rewrite Ht.
  assert (Hk : existsb (fun k => has_key k d) summary_keys = true).
  { simpl. unfold has_key at 1. rewrite Hreg. reflexivity. }
  rewrite Hk. unfold get, dict_get. rewrite Hreg, Hactive.
  change (is_none VNone) with true. cbv iota.
  rewrite or_zero_int. cbn [rbind].
  destruct Hopens as [[-> ->] | ->].
  - reflexivity.
  - rewrite or_zero_int. reflexivity.
Qed.

(** The specification's example: [registeredUsers] = 500 and nothing else. *)
Lemma summary_of_500_users :
  parse_aggregated_user doc_summary (VStr "india") VNone VNone
    (VInt 2022) (VInt 1) (VStr "1.json")
  = Ok [sample_header ++ [("registered_users", VInt 500); ("app_opens", VInt 0);
                          ("active_users", VNone)]].
Proof.
  apply (aggregated_user_summary_without_active_users
           doc_summary _ _ _ _ _ _ [("registeredUsers", VInt 500)] 500 0).
  - reflexivity.
  - reflexivity.
  - left. split; reflexivity.
  - reflexivity.
Defined.

Lemma alias_read (d : list (string * value)) (k1 k2 : string) :
  int_or_missing d k1 = true -> int_or_missing d k2 = true ->
  rbind (or_lazy (get (VDict d) k1) (or_lazy (get (VDict d) k2) (Ok (VInt 0))))
        (fun v => int v)
  = Ok (alias_int (VDict d) k1 k2).
Proof.
  unfold int_or_missing, alias_int, int_under, or_lazy, get, dict_get.
  intros H1 H2. cbn [rbind].
  destruct (lookup k1 d) as [[| | n1 | | | |]|]; try discriminate H1;
    destruct (lookup k2 d) as [[| | n2 | | | |]|]; try discriminate H2;
    cbn [truthy rbind int negb];
    try destruct (Z.eqb_spec n1 0); try destruct (Z.eqb_spec n2 0);
    cbn [truthy rbind int negb]; try subst; try reflexivity.
Qed.

Lemma sum_devices_total (recs : list value) :
  forallb is_breakdown recs = true ->
  forall a b,
    sum_devices recs a b
    = Ok (a + total (fun r => alias_int r "registeredUsers" "count") recs,
          b + total (fun r => alias_int r "appOpens" "appOpensCount") recs).
Proof.
  unfold total.
  induction recs as [|rec recs IH]; intros Hall a b.
  - simpl. now rewrite !Z.add_0_r.
  - cbn [forallb] in Hall. apply andb_prop in Hall as [Hrec Hall].
    destruct rec as [| | | | | |d]; try discriminate Hrec.
    cbn [is_breakdown] in Hrec.
    apply andb_prop in Hrec as [Hrec H4]. apply andb_prop in Hrec as [Hrec H3].
    apply andb_prop in Hrec as [H1 H2].
    cbn [sum_devices]. rewrite (alias_read d _ _ H1 H2). cbn [rbind].
    rewrite (alias_read d _ _ H3 H4). cbn [rbind].
    rewrite (IH Hall). cbn [map fold_right]. f_equal. f_equal; lia.
Qed.

(** C5, amended. An aggregated-user document whose data payload contains none
    of the top-level summary keys and a NON-EMPTY [usersByDevice] list of
    per-device breakdowns yields exactly one row: registered_users and
    app_opens are the sums over the entries, each read under its two names,
    and active_users is null. *)
Theorem aggregated_user_device_breakdown
  (j country state district year quarter source : value)
  (d : list (string * value)) (rec : value) (recs : list value)
  (Hdata : safe_get j ["data"] = VDict d)
  (Hnone : existsb (fun k => has_key k d) summary_keys = false)
  (Hdev : lookup "usersByDevice" d = Some (VList (rec :: recs)))
  (Hrecs : forallb is_breakdown (rec :: recs) = true) :
  parse_aggregated_user j country state district year quarter source
  = Ok [header source country state district year quarter
        ++ [("registered_users",
             VInt (total (fun r => alias_int r "registeredUsers" "count")
                         (rec :: recs)));
            ("app_opens",
             VInt (total (fun r => alias_int r "appOpens" "appOpensCount")
                         (rec :: recs)));
            ("active_users", VNone)]].
Proof.
  unfold parse_aggregated_user. rewrite Hdata.
  assert (Ht : truthy (VDict d) = true)
    by (destruct d; [discriminate Hdev | reflexivity]).
  unfold or_else. rewrite Ht, Hnone. unfold dict_get. rewrite Hdev.
  rewrite (sum_devices_total _ Hrecs). reflexivity.
Qed.

(** Two devices: 10 users counted under [count], 5 under [registeredUsers]. *)
Lemma device_breakdown_of_two :
  parse_aggregated_user doc_devices (VStr "india") VNone VNone
    (VInt 2022) (VInt 1) (VStr "1.json")
  = Ok [sample_header ++ [("registered_users", VInt 15); ("app_opens", VInt 7);
                          ("active_users", VNone)]].
Proof.
  apply (aggregated_user_device_breakdown
           doc_devices _ _ _ _ _ _ [("usersByDevice", VList devices)]
           (VDict [("brand", VStr "Xiaomi"); ("count", VInt 10)])
           [VDict [("registeredUsers", VInt 5); ("appOpens", VInt 7)]]);
    reflexivity.
Defined.

(** C5 as stated fails on an empty [usersByDevice] list: the payload has no
    summary key and does hold the list, and no row is emitted. *)
Lemma empty_device_list_yields_no_row :
  safe_get doc_no_devices ["data"] = VDict [("usersByDevice", VList [])]
  /\ existsb (fun k => has_key k [("usersByDevice", VList [])]) summary_keys = false
  /\ parse_aggregated_user doc_no_devices (VStr "india") VNone VNone
       (VInt 2022) (VInt 1) (VStr "1.json") = Ok [].
Proof. repeat split. Qed.

(** ** Map transaction documents *)

Lemma alias_chain_first (d : list (string * value)) (keys : list string)
  (dflt : value) :
  fold_right (fun k acc => or_lazy (get (VDict d) k) acc) (Ok dflt) keys
  = Ok match first_truthy d keys with Some v => v | None => dflt end.
Proof.
  unfold first_truthy.
  induction keys as [|k keys IH]; cbn [fold_right map find]; [reflexivity|].
  unfold or_lazy at 1. cbn [get rbind].
  destruct (truthy (dict_get d k)); [reflexivity | exact IH].
Qed.

(** C2, amended. In map-transaction extraction a hover entry with none of the
    keys metric, values and value yields total_tx_count = 0 and
    total_tx_amount = 0.0, not null. The two totals are null exactly when
    the first truthy value among those stored under metric, values and
    value, in this order, is not an object; then both are null. *)
Theorem map_transaction_absent_group_is_zero
  (source country state year quarter : value) (d : list (string * value)) :
  (lookup "metric" d = None -> lookup "values" d = None ->
   lookup "value" d = None ->
   exists name,
     map_transaction_item source country state year quarter (VDict d)
     = Ok [header source country state name year quarter
           ++ [("total_tx_count", VInt 0);
               ("total_tx_amount", VFloat float_zero)]])
  /\ (forall v,
        first_truthy d group_keys = Some v -> is_dict v = false ->
        exists name,
          map_transaction_item source country state year quarter (VDict d)
          = Ok [header source country state name year quarter
                ++ [("total_tx_count", VNone); ("total_tx_amount", VNone)]])
  /\ (forall r,
        map_transaction_item source country state year quarter (VDict d) = Ok [r] ->
        lookup "total_tx_count" r = Some VNone
        \/ lookup "total_tx_amount" r = Some VNone ->
        exists v, first_truthy d group_keys = Some v /\ is_dict v = false).
Proof.
  destruct (alias_chain_ok d ["name"; "district"; "state"] (VStr "Unknown"))
    as [name Hn].
  cbn [fold_right] in Hn.
  pose proof (alias_chain_first d group_keys (VDict [])) as Hg.
  unfold group_keys in Hg at 1. cbn [fold_right] in Hg.
  split; [|split].
  - intros Hm Hv Hv'.
    exists name. unfold map_transaction_item.
    cbn [is_dict negb]. rewrite Hn. cbn [rbind].
    unfold get, dict_get. rewrite Hm, Hv, Hv'. reflexivity.
  - intros v Hv Hd. exists name. unfold map_transaction_item.
    cbn [is_dict negb]. rewrite Hn. cbn [rbind]. rewrite Hg, Hv. cbn [rbind].
    unfold metric_int, metric_float. rewrite Hd. reflexivity.
  - intros r Hr Hnull.
    unfold map_transaction_item in Hr. cbn [is_dict negb] in Hr.
    rewrite Hn in Hr. cbn [rbind] in Hr. rewrite Hg in Hr. cbn [rbind] in Hr.
    destruct (first_truthy d group_keys) as [v|].
    + exists v. split; [reflexivity|].
      destruct (is_dict v) eqn:Hd; [|reflexivity].
      exfalso. unfold metric_int, metric_float in Hr. rewrite Hd in Hr.
      ok_inv. destruct Hnull as [H|H]; discriminate H.
    + exfalso. unfold metric_int, metric_float in Hr. cbn in Hr.
      injection Hr as <-. destruct Hnull as [H|H]; discriminate H.
Qed.

(** The entry [{"name": "Pune"}] carries no measurement group; the entry
    [{"name": "Pune", "metric": 5}] carries a number as its group. *)
Lemma hover_entry_without_group :
  (exists name,
     map_transaction_item (VStr "1.json") (VStr "india") VNone (VInt 2022) (VInt 1)
       (VDict hover_without_group)
     = Ok [header (VStr "1.json") (VStr "india") VNone name (VInt 2022) (VInt 1)
           ++ [("total_tx_count", VInt 0); ("total_tx_amount", VFloat float_zero)]])
  /\ (exists name,
        map_transaction_item (VStr "1.json") (VStr "india") VNone (VInt 2022) (VInt 1)
          (VDict hover_with_number)
        = Ok [header (VStr "1.json") (VStr "india") VNone name (VInt 2022) (VInt 1)
              ++ [("total_tx_count", VNone); ("total_tx_amount", VNone)]]).
Proof.
  split.
  - apply (proj1 (map_transaction_absent_group_is_zero
                    (VStr "1.json") (VStr "india") VNone (VInt 2022) (VInt 1)
                    hover_without_group));
      reflexivity.
  - apply (proj1 (proj2 (map_transaction_absent_group_is_zero
                           (VStr "1.json") (VStr "india") VNone (VInt 2022) (VInt 1)
                           hover_with_number)) (VInt 5));
      reflexivity.
Defined.

(** C2 as stated fails: the entry [{"name": "Pune"}] has none of the three
    group keys, and its row carries 0 and 0.0, not null. *)
Lemma absent_group_is_not_null :
  lookup "metric" hover_without_group = None
  /\ lookup "values" hover_without_group = None
  /\ lookup "value" hover_without_group = None
  /\ parse_map_json doc_hover_without_group "transaction"
       (VStr "india") VNone (VInt 2022) (VInt 1) (VStr "1.json")
     = Ok [header (VStr "1.json") (VStr "india") VNone (VStr "Pune")
             (VInt 2022) (VInt 1)
           ++ [("total_tx_count", VInt 0);
               ("total_tx_amount", VFloat float_zero)]].
Proof. repeat split. Qed.

(** The specification's example of a hover entry with its metric. *)
Lemma pune_row :
  parse_map_json doc_pune "transaction"
    (VStr "india") VNone (VInt 2022) (VInt 1) (VStr "1.json")
  = Ok [header (VStr "1.json") (VStr "india") VNone (VStr "Pune")
          (VInt 2022) (VInt 1)
        ++ [("total_tx_count", VInt 5);
            ("total_tx_amount", VFloat (dec 12005 (-1)))]].
Proof. vm_compute. reflexivity. Qed.

(** An object under metric comes before a number under value: the totals are
    those of the object, not null. *)
Lemma object_group_comes_first :
  first_truthy [("name", VStr "Pune"); ("metric", VDict [("count", VInt 5)]);
                ("value", VInt 7)] group_keys
  = Some (VDict [("count", VInt 5)])
  /\ map_transaction_item (VStr "1.json") (VStr "india") VNone (VInt 2022) (VInt 1)
       (VDict [("name", VStr "Pune"); ("metric", VDict [("count", VInt 5)]);
               ("value", VInt 7)])
     = Ok [header (VStr "1.json") (VStr "india") VNone (VStr "Pune")
             (VInt 2022) (VInt 1)
           ++ [("total_tx_count", VInt 5);
               ("total_tx_amount", VFloat float_zero)]].
Proof. split; reflexivity. Qed.

(** A group that is present but is a number: both totals are null. *)
Lemma numeric_group_is_null :
  parse_map_json
    (VDict [("data", VDict [("hoverDataList",
       VList [VDict [("name", VStr "Pune"); ("metric", VInt 5)]])])])
    "transaction" (VStr "india") VNone (VInt 2022) (VInt 1) (VStr "1.json")
  = Ok [header (VStr "1.json") (VStr "india") VNone (VStr "Pune")
          (VInt 2022) (VInt 1)
        ++ [("total_tx_count", VNone); ("total_tx_amount", VNone)]].
Proof. reflexivity. Qed.

(** ** Aggregated transaction documents *)

Lemma find_total_spec (insts : list value) :
  forallb is_instrument insts = true ->
  find_total insts
  = Ok match find is_total insts with
       | Some t => (field t "count", field t "amount")
       | None => (VNone, VNone)
       end.
Proof.
  induction insts as [|inst insts IH]; intro Hall; [reflexivity|].
  cbn [forallb] in Hall. apply andb_prop in Hall as [Hi Hall].
  destruct inst as [| | | | | |d]; try discriminate Hi.
  cbn [find_total get rbind find]. unfold is_total at 1. cbn [field].
  destruct (eq_str (dict_get d "type") "TOTAL"); [reflexivity | auto].
Qed.

Lemma count_read (inst : value) :
  is_instrument inst = true ->
  rbind (or_lazy (get inst "count") (Ok (VInt 0))) (fun v => int v)
  = Ok (count_of inst).
Proof.
  destruct inst as [| | | | | |d]; try discriminate.
  unfold is_instrument, count_of, field, or_lazy, get. cbn [rbind].
  intros H. apply andb_prop in H as [H _].
  destruct (dict_get d "count") as [| |n| | | |]; try discriminate H;
    cbn [truthy]; [reflexivity|].
  destruct (Z.eqb_spec n 0) as [->|]; reflexivity.
Qed.

Lemma amount_read (inst : value) :
  is_instrument inst = true ->
  rbind (or_lazy (get inst "amount") (Ok (VInt 0))) (fun v => to_float v)
  = Ok (amount_of inst).
Proof.
  destruct inst as [| | | | | |d]; try discriminate.
  unfold is_instrument, amount_of, field, or_lazy, get. cbn [rbind].
  intros H. apply andb_prop in H as [_ H].
  destruct (dict_get d "amount") as [| | |f| | |]; try discriminate H;
    [reflexivity|].
  destruct (truthy (VFloat f)); reflexivity.
Qed.

Lemma sum_counts_spec (insts : list value) :
  forallb is_instrument insts = true ->
  sum_counts insts = VInt (sum_int (map count_of insts)).
Proof.
  intro Hall. unfold sum_counts.
  rewrite (mapM_pure _ count_of); [reflexivity|].
  apply Forall_forall. intros i Hi. apply count_read.
  rewrite forallb_forall in Hall. auto.
Qed.

Lemma sum_amounts_spec (insts : list value) :
  forallb is_instrument insts = true ->
  sum_amounts insts = sum_float (map amount_of insts).
Proof.
  intro Hall. unfold sum_amounts.
  rewrite (mapM_pure _ amount_of); [reflexivity|].
  apply Forall_forall. intros i Hi. apply amount_read.
  rewrite forallb_forall in Hall. auto.
Qed.

Lemma float_of_sum (fs : list float) :
  float_or_none (sum_float fs) = Ok (VFloat (fold_left fadd fs float_zero)).
Proof. destruct fs; reflexivity. Qed.

Lemma find_total_instrument (insts : list value) (t : value) :
  forallb is_instrument insts = true -> find is_total insts = Some t ->
  is_instrument t = true.
Proof.
  intros Hall Hf. apply find_some in Hf as [Hin _].
  rewrite forallb_forall in Hall. auto.
Qed.

Lemma transaction_row_spec (hdr : row) (rec : value) :
  is_entry rec = true ->
  transaction_row hdr rec = Ok (expected_transaction_row hdr rec).
Proof.
  destruct rec as [| | | | | |d]; try discriminate.
  unfold is_entry, transaction_row, expected_transaction_row, instruments_of,
    get_default, get.
  cbn [rbind field]. intro He.
  assert (Hi : exists insts,
    match lookup "paymentInstruments" d with Some v => v | None => VList [] end
    = VList insts
    /\ match lookup "paymentInstruments" d with Some (VList l) => l | _ => [] end
       = insts
    /\ forallb is_instrument insts = true).
  { destruct (lookup "paymentInstruments" d) as [[| | | | |l|]|];
      try discriminate He; eauto. }
  destruct Hi as (insts & -> & -> & Hall).
  cbn [iterate rbind]. rewrite (find_total_spec _ Hall). cbn [rbind].
  unfold expected_count, expected_amount.
  rewrite (sum_counts_spec _ Hall), (sum_amounts_spec _ Hall).
  destruct (find is_total insts) as [t|] eqn:Hf; cbn [fst snd].
  - pose proof (find_total_instrument _ _ Hall Hf) as Ht.
    destruct t as [| | | | | |td]; try discriminate Ht.
    cbn [is_instrument] in Ht. apply andb_prop in Ht as [Hc Ha].
    cbn [field].
    destruct (dict_get td "count") as [| |n| | | |]; try discriminate Hc;
      destruct (dict_get td "amount") as [| | |f| | |]; try discriminate Ha;
      cbn [is_none]; try rewrite float_of_sum; reflexivity.
  - cbn [is_none]. rewrite float_of_sum. reflexivity.
Qed.

(** C3, amended. For every transaction-type entry of an aggregated-transaction
    document, exactly one row is emitted. Its transaction_count is the count
    of the first instrument tagged TOTAL when that instrument HAS a count;
    with no such instrument, or with one that has no count, it is the sum of
    all instruments' counts. The same holds, separately, for
    transaction_amount. *)
Theorem aggregated_transaction_total_or_sum
  (j country state district year quarter source : value) (recs : list value)
  (Hdata : safe_get j ["data"; "transactionData"] = VList recs)
  (Hrecs : forallb is_entry recs = true) :
  parse_aggregated_transaction j country state district year quarter source
  = Ok (map (expected_transaction_row
               (header source country state district year quarter)) recs).
Proof.
  unfold parse_aggregated_transaction. rewrite Hdata.
  assert (Hit : iterate (or_else (VList recs) (VList [])) = Ok recs)
    by (destruct recs; reflexivity).
  rewrite Hit. cbn [rbind].
  apply mapM_pure. apply Forall_forall. intros rec Hin.
  apply transaction_row_spec. rewrite forallb_forall in Hrecs. auto.
Qed.

(** The specification's example: the TOTAL instrument is used as it is,
    count 100 and amount 5000.0, not the sums 160 and 8000.0. *)
Lemma total_instrument_is_used :
  parse_aggregated_transaction (transaction_doc instruments_with_total)
    (VStr "india") VNone VNone (VInt 2022) (VInt 1) (VStr "1.json")
  = Ok [sample_header
        ++ [("transaction_type", VStr "Peer-to-peer payments");
            ("transaction_count", VInt 100);
            ("transaction_amount", VFloat (dec 5000 0))]].
Proof.
  apply (aggregated_transaction_total_or_sum
           (transaction_doc instruments_with_total) _ _ _ _ _ _
           [VDict [("name", VStr "Peer-to-peer payments");
                   ("paymentInstruments", VList instruments_with_total)]]);
    reflexivity.
Defined.

(** The specification's example of the fallback: counts 10 and 20, no TOTAL
    instrument, transaction_count = 30. *)
Lemma fallback_sum_is_30 :
  parse_aggregated_transaction (transaction_doc instruments_without_total)
    (VStr "india") VNone VNone (VInt 2022) (VInt 1) (VStr "1.json")
  = Ok [sample_header
        ++ [("transaction_type", VStr "Peer-to-peer payments");
            ("transaction_count", VInt 30);
            ("transaction_amount", VFloat (dec 4 0))]].
Proof. vm_compute. reflexivity. Qed.

(** C3 as stated fails: the first instrument is tagged TOTAL and has no
    count, yet the row's transaction_count is 60, the sum over all
    instruments, while its amount is the TOTAL instrument's. *)
Lemma total_without_count_falls_back_to_sum :
  find is_total instruments_total_without_count
  = Some (VDict [("type", VStr "TOTAL"); ("amount", VFloat (dec 5000 0))])
  /\ parse_aggregated_transaction (transaction_doc instruments_total_without_count)
       (VStr "india") VNone VNone (VInt 2022) (VInt 1) (VStr "1.json")
     = Ok [sample_header
           ++ [("transaction_type", VStr "Peer-to-peer payments");
               ("transaction_count", VInt 60);
               ("transaction_amount", VFloat (dec 5000 0))]].
Proof. split; vm_compute; reflexivity. Qed.

(** ** Numeric segments and file names *)

Lemma is_decimal_facts (c : ascii) :
  is_decimal c = true ->
  is_space c = false /\ is_digit_char c = true
  /\ (c =? "-")%char = false /\ (c =? "+")%char = false
  /\ (c =? "/")%char = false /\ (c =? ".")%char = false
  /\ (c =? "_")%char = false /\ (c =? "s")%char = false.
Proof.
  destruct c as [[] [] [] [] [] [] [] []]; intro H;
    first [discriminate H | repeat split; reflexivity].
Qed.

Lemma read_digits_decimal (s : string) :
  all_chars is_decimal s = true ->
  forall acc n,
    read_digits acc n s = (digits_value acc s, (n + String.length s)%nat, "").
Proof.
  induction s as [|c s IH]; intros H acc n.
  - simpl. now rewrite Nat.add_0_r.
  - cbn [all_chars] in H. apply andb_prop in H as [Hc Hs].
    cbn [read_digits digits_value String.length]. rewrite Hc.
    rewrite (IH Hs). f_equal. f_equal. lia.
Qed.

Lemma rstrip_no_space (s : string) :
  all_chars (fun c => negb (is_space c)) s = true -> rstrip s = s.
Proof.
  induction s as [|c s IH]; [reflexivity|].
  cbn [all_chars rstrip]. intro H. apply andb_prop in H as [Hc Hs].
  rewrite (IH Hs). destruct s; [|reflexivity].
  apply negb_true_iff in Hc. now rewrite Hc.
Qed.

Lemma all_chars_impl (p q : ascii -> bool) (s : string) :
  (forall c, p c = true -> q c = true) ->
  all_chars p s = true -> all_chars q s = true.
Proof.
  intros Hpq. induction s as [|c s IH]; [reflexivity|].
  cbn [all_chars]. intro H. apply andb_prop in H as [Hc Hs].
  rewrite (Hpq _ Hc), (IH Hs). reflexivity.
Qed.

Lemma decimal_cons (s : string) :
  decimal s = true ->
  exists c s', s = String c s' /\ is_decimal c = true
               /\ all_chars is_decimal s' = true.
Proof.
  unfold decimal. destruct s as [|c s']; [discriminate|].
  cbn [all_chars]. intro H. simpl in H. apply andb_prop in H as [Hc Hs]. eauto.
Qed.

Lemma decimal_all (s : string) :
  decimal s = true -> all_chars is_decimal s = true.
Proof. unfold decimal. intro H. now apply andb_prop in H as [_ H]. Qed.

Lemma decimal_isdigit (s : string) : decimal s = true -> isdigit s = true.
Proof.
  unfold decimal, isdigit. intro H. apply andb_prop in H as [Hne Hall].
  rewrite Hne. cbn [andb].
  apply (all_chars_impl is_decimal); [|assumption].
  intros c Hc. now apply is_decimal_facts in Hc.
Qed.

Lemma numeric_decimal (s : string) : numeric s = true -> decimal s = true.
Proof. unfold numeric. intro H. now apply andb_prop in H as [H _]. Qed.

(** [int] on a numeric segment: its value, unless it has too many digits. *)
Lemma int_of_decimal (s : string) :
  decimal s = true ->
  int (VStr s)
  = if numeric s then Ok (decimal_value s) else Raise ValueError.
Proof.
  intro H. pose proof (decimal_all _ H) as Hall.
  unfold numeric. rewrite H. cbn [andb].
  destruct (decimal_cons _ H) as (c & s' & -> & Hc & Hs').
  destruct (is_decimal_facts _ Hc) as (Hsp & _ & Hm & Hp & _).
  unfold int, int_of_str, strip.
  assert (Hl : lstrip (String c s') = String c s')
    by (cbn [lstrip]; now rewrite Hsp).
  rewrite Hl, rstrip_no_space.
  2:{ apply (all_chars_impl is_decimal); [|assumption].
      intros a Ha. apply is_decimal_facts in Ha as [-> _]. reflexivity. }
  assert (Hsign : read_sign (String c s') = (false, String c s')).
  { unfold read_sign.
    destruct c as [[] [] [] [] [] [] [] []]; try reflexivity; discriminate. }
  rewrite Hsign, (read_digits_decimal _ Hall).
  cbn [Nat.add String.length]. unfold int_max_str_digits.
  destruct (Z.of_nat (S (String.length s')) <=? 4300); reflexivity.
Qed.

Lemma int_of_numeric (s : string) :
  numeric s = true -> int (VStr s) = Ok (decimal_value s).
Proof.
  intro H. rewrite (int_of_decimal _ (numeric_decimal _ H)). now rewrite H.
Qed.

Lemma is_digit_char_facts (c : ascii) :
  is_digit_char c = true ->
  is_space c = false /\ (c =? "-")%char = false /\ (c =? "+")%char = false
  /\ (is_decimal c = false -> (c =? "_")%char = false).
Proof.
  destruct c as [[] [] [] [] [] [] [] []]; intro H;
    first [discriminate H | repeat split; try reflexivity; discriminate].
Qed.

(** A digit string with a superscript digit: [read_digits] stops at it. *)
Lemma read_digits_superscript (s : string) :
  all_chars is_digit_char s = true -> all_chars is_decimal s = false ->
  forall acc n, exists z m c r, read_digits acc n s = (z, m, String c r).
Proof.
  induction s as [|c s IH]; intros Hd Hn acc n; [discriminate Hn|].
  cbn [all_chars] in Hd, Hn. apply andb_prop in Hd as [Hc Hs].
  cbn [read_digits]. destruct (is_decimal c) eqn:Dc.
  - cbn [andb] in Hn. apply (IH Hs Hn).
  - destruct (is_digit_char_facts _ Hc) as (_ & _ & _ & Hu).
    rewrite (Hu Dc). eauto.
Qed.

(** [int] rejects a digit string that is not numeric. *)
Lemma int_of_superscript (s : string) :
  isdigit s = true -> decimal s = false -> int (VStr s) = Raise ValueError.
Proof.
  unfold isdigit, decimal. intros Hd Hn.
  apply andb_prop in Hd as [Hne Hall]. rewrite Hne in Hn. cbn [andb] in Hn.
  destruct s as [|c s']; [discriminate Hne|].
  pose proof Hall as Hall'. cbn [all_chars] in Hall'.
  apply andb_prop in Hall' as [Hc _].
  destruct (is_digit_char_facts _ Hc) as (Hsp & Hm & Hp & _).
  unfold int, int_of_str, strip.
  assert (Hl : lstrip (String c s') = String c s')
    by (cbn [lstrip]; now rewrite Hsp).
  rewrite Hl, rstrip_no_space.
  2:{ apply (all_chars_impl is_digit_char); [|assumption].
      intros a Ha. apply is_digit_char_facts in Ha as [-> _]. reflexivity. }
  assert (Hsign : read_sign (String c s') = (false, String c s')).
  { unfold read_sign.
    destruct c as [[] [] [] [] [] [] [] []]; try reflexivity; discriminate. }
  rewrite Hsign.
  destruct (read_digits_superscript _ Hall Hn 0 0%nat) as (z & m & a & r & ->).
  destruct m; reflexivity.
Qed.

(** [int] on a segment that [isdigit] accepts. *)
Lemma int_of_digits (s : string) :
  isdigit s = true ->
  int (VStr s) = if numeric s then Ok (decimal_value s) else Raise ValueError.
Proof.
  intro Hd. destruct (decimal s) eqn:Hdec.
  - now apply int_of_decimal.
  - rewrite (int_of_superscript _ Hd Hdec). unfold numeric. now rewrite Hdec.
Qed.

Lemma read_int_regular (s : string) :
  regular s ->
  forall x (set : Z -> context -> context),
    when (isdigit s)
      (bind (lift (int (VStr s))) (fun n => modify (set n))) x
    = (Ok tt, match read_int s with Some n => set n x | None => x end).
Proof.
  intros [Hd|Hn] x set; unfold read_int.
  - rewrite (decimal_isdigit _ (numeric_decimal _ Hd)), Hd. unfold when, bind, lift.
    rewrite (int_of_numeric _ Hd). reflexivity.
  - rewrite Hn. destruct (numeric s) eqn:Hd.
    + apply numeric_decimal, decimal_isdigit in Hd. congruence.
    + reflexivity.
Qed.

Lemma year_and_quarter_regular (tail : list string) (y l : string) :
  item_back tail 2 = Ok y -> item_back tail 1 = Ok l ->
  regular y -> regular (stem l) ->
  forall x,
    year_and_quarter tail x
    = (Ok tt, with_quarter (read_int (stem l)) (with_year (read_int y) x)).
Proof.
  intros Hy Hl Ry Rq x. unfold year_and_quarter.
  unfold bind at 1. unfold lift at 1. rewrite Hy.
  unfold bind at 1. rewrite (read_int_regular _ Ry).
  unfold bind at 1. unfold lift at 1. rewrite Hl.
  rewrite (read_int_regular _ Rq). reflexivity.
Qed.

Lemma split_no_slash (s : string) :
  all_chars (fun c => negb (c =? "/")%char) s = true -> split_on "/" s = [s].
Proof.
  induction s as [|c s IH]; [reflexivity|].
  cbn [all_chars split_on]. intro H. apply andb_prop in H as [Hc Hs].
  apply negb_true_iff in Hc. rewrite Hc, (IH Hs). reflexivity.
Qed.

Lemma rfind_suffix (q : string) :
  all_chars is_decimal q = true ->
  rfind "." (q ++ ".json") = Some (String.length q).
Proof.
  induction q as [|c q IH]; [reflexivity|].
  cbn [all_chars]. intro H. apply andb_prop in H as [Hc Hq].
  cbn [append rfind String.length]. rewrite (IH Hq). reflexivity.
Qed.

Lemma substring_prefix (q r : string) :
  substring 0 (String.length q) (q ++ r) = q.
Proof.
  induction q as [|c q IH]; simpl.
  - destruct r; reflexivity.
  - now rewrite IH.
Qed.

Lemma all_chars_app (p : ascii -> bool) (s r : string) :
  all_chars p (s ++ r) = all_chars p s && all_chars p r.
Proof.
  induction s as [|c s IH]; simpl; [reflexivity|].
  now rewrite IH, andb_assoc.
Qed.

Lemma length_app (s r : string) :
  String.length (s ++ r) = (String.length s + String.length r)%nat.
Proof. induction s as [|c s IH]; simpl; [reflexivity | now rewrite IH]. Qed.

Lemma stem_json (q : string) : decimal q = true -> stem (q ++ ".json") = q.
Proof.
  intro H. pose proof (decimal_all _ H) as Hall.
  destruct (decimal_cons _ H) as (c & q' & -> & Hc & Hq').
  unfold stem, name, path_tail.
  rewrite split_no_slash.
  2:{ rewrite all_chars_app. apply andb_true_intro. split; [|reflexivity].
      apply (all_chars_impl is_decimal); [|assumption].
      intros a Ha. apply is_decimal_facts in Ha as (_ & _ & _ & _ & -> & _).
      reflexivity. }
  assert (Hkeep : filter
            (fun x => negb (x =? "")%string && negb (x =? ".")%string)
            [(String c q' ++ ".json")%string]
          = [(String c q' ++ ".json")%string]).
  { cbn [filter append]. cbn [String.eqb].
    destruct (is_decimal_facts _ Hc) as (_ & _ & _ & _ & _ & Hdot & _).
    rewrite Hdot. reflexivity. }
  rewrite Hkeep. cbn [last]. rewrite (rfind_suffix _ Hall), length_app.
  assert (Hpos : ((0 <? String.length (String c q'))
                  && (String.length (String c q')
                      <? String.length (String c q') + String.length ".json" - 1))%nat
                 = true).
  { apply andb_true_intro. split; apply Nat.ltb_lt; simpl; lia. }
  rewrite Hpos. apply substring_prefix.
Qed.

(** ** Lists of segments *)

Lemma index_mem (m : string) (l : list string) (i : nat) :
  index m l = Ok i -> mem m l = true.
Proof.
  revert i. induction l as [|y l IH]; intros i H; [discriminate H|].
  cbn [index] in H. unfold mem. cbn [existsb].
  destruct (y =? m)%string; [reflexivity|].
  ok_inv. apply (IH _ Ha).
Qed.

Lemma mem_marker (m : string) (pre rest : list string) :
  mem m (pre ++ m :: rest) = true.
Proof.
  unfold mem. rewrite existsb_app. cbn [existsb].
  now rewrite String.eqb_refl, orb_true_r.
Qed.

Lemma index_marker (m : string) (pre rest : list string) :
  ~ In m pre -> index m (pre ++ m :: rest) = Ok (List.length pre).
Proof.
  induction pre as [|y pre IH]; intro Hn.
  - cbn [app index]. now rewrite String.eqb_refl.
  - cbn [app index List.length].
    destruct (String.eqb_spec y m) as [->|_]; [exfalso; apply Hn; now left|].
    rewrite IH; [reflexivity|]. intro Hin. apply Hn. now right.
Qed.

Lemma item_after_marker (m s : string) (pre post : list string) :
  item (pre ++ m :: s :: post) (List.length pre + 1) = Ok s.
Proof.
  unfold item. rewrite nth_error_app2 by lia.
  replace (List.length pre + 1 - List.length pre)%nat with 1%nat by lia.
  reflexivity.
Qed.

(** ** The branches of the resolver *)

Lemma when_try_pass_ok {S B} (c : bool) (body : M S unit) (k : unit -> M S B) s :
  bind (when c (try_pass body)) k s
  = k tt (if c then snd (body s) else s).
Proof. destruct c; reflexivity. Qed.

Lemma resolve_total tail x : fst (resolve tail x) = Ok tt.
Proof.
  unfold resolve.
  destruct (4 <=? List.length tail)%nat eqn:Hlen.
  - destruct tail as [|first tail']; [discriminate Hlen|].
    unfold when at 1. unfold bind at 1. unfold bind at 1. cbn [item nth_error lift].
    destruct (first =? "aggregated")%string.
    + rewrite when_try_pass_ok.
      unfold when at 1, try_pass at 1.
      destruct (mem "state" (first :: tail')); reflexivity.
    + rewrite when_try_pass_ok.
      unfold when at 1, try_pass at 1.
      destruct (mem "state-wise" (first :: tail')); reflexivity.
  - reflexivity.
Qed.

Lemma parse_path_context_total p : exists x, parse_path_context p = Ok x.
Proof.
  unfold parse_path_context.
  pose proof (resolve_total (tail_of p) no_context) as H.
  destruct (resolve (tail_of p) no_context) as [[u|e] x]; simpl in H.
  - eauto.
  - discriminate.
Qed.

Lemma resolve_unfold (first : string) (rest : list string) (x : context) :
  (4 <=? List.length (first :: rest))%nat = true ->
  resolve (first :: rest) x
  = let tail := first :: rest in
    (Ok tt,
     decoded
       (if (first =? "aggregated")%string then
          let x1 :=
            if mem "country" tail
            then snd ((ci <- lift (index "country" tail) ;;
                       c <- lift (item tail (ci + 1)) ;;
                       modify (set_country c) ;;
                       year_and_quarter tail)%io x)
            else x in
          if mem "state" tail
          then snd ((si <- lift (index "state" tail) ;;
                     st <- lift (item tail (si + 1)) ;;
                     modify (set_state st) ;;
                     year_and_quarter tail)%io x1)
          else x1
        else
          let x1 :=
            if mem "country" tail && mem "india" tail
            then snd (year_and_quarter tail x) else x in
          if mem "state-wise" tail
          then snd ((si <- lift (index "state-wise" tail) ;;
                     st <- lift (item tail (si + 1)) ;;
                     modify (set_state st))%io x1)
          else x1)).
Proof.
  intro Hlen. unfold resolve. rewrite Hlen.
  unfold when at 1. unfold bind at 1. unfold bind at 1.
  cbn [item nth_error lift].
  destruct (first =? "aggregated")%string.
  - rewrite when_try_pass_ok. unfold when at 1, try_pass at 1.
    destruct (mem "state" (first :: rest)); reflexivity.
  - rewrite when_try_pass_ok. unfold when at 1, try_pass at 1.
    destruct (mem "state-wise" (first :: rest)); reflexivity.
Qed.

Lemma resolve_short (tail : list string) (x : context) :
  (4 <=? List.length tail)%nat = false -> resolve tail x = (Ok tt, decoded x).
Proof. intro H. unfold resolve. rewrite H. reflexivity. Qed.

(** What [year_and_quarter] may leave behind. *)
Lemma year_and_quarter_cases (tail : list string) (x : context) :
  exists oy oq,
    snd (year_and_quarter tail x) = with_quarter oq (with_year oy x)
    /\ (oq <> None -> forall y, item_back tail 2 = Ok y ->
        isdigit y = true -> oy <> None).
Proof.
  unfold year_and_quarter, bind, lift, when, modify.
  destruct (item_back tail 2) as [y|e] eqn:Hy.
  2:{ exists None, None. split; [reflexivity | congruence]. }
  destruct (isdigit y) eqn:Dy.
  - destruct (int (VStr y)) as [n|e].
    2:{ exists None, None. split; [reflexivity | congruence]. }
    destruct (item_back tail 1) as [l|e].
    2:{ exists (Some n), None. split; [reflexivity | congruence]. }
    destruct (isdigit (stem l)).
    + destruct (int (VStr (stem l))) as [m|e].
      * exists (Some n), (Some m). split; [reflexivity | congruence].
      * exists (Some n), None. split; [reflexivity | congruence].
    + exists (Some n), None. split; [reflexivity | congruence].
  - destruct (item_back tail 1) as [l|e].
    2:{ exists None, None. split; [reflexivity | congruence]. }
    destruct (isdigit (stem l)).
    + destruct (int (VStr (stem l))) as [m|e].
      * exists None, (Some m). split; [reflexivity|].
        intros _ y' Hy' Dy'. congruence.
      * exists None, None. split; [reflexivity | congruence].
    + exists None, None. split; [reflexivity | congruence].
Qed.

(** A marker branch either stops before it names anything, or names the
    segment after the marker and goes on to the year and the quarter. *)
Lemma marker_branch_cases (m : string) (set : string -> context -> context)
  (tail : list string) (x : context) :
  let after :=
    snd ((i <- lift (index m tail) ;;
          s <- lift (item tail (i + 1)) ;;
          modify (set s) ;;
          year_and_quarter tail)%io x) in
  after = x
  \/ exists i s, index m tail = Ok i /\ item tail (i + 1) = Ok s
                 /\ after = snd (year_and_quarter tail (set s x)).
Proof.
  unfold bind, lift, modify.
  destruct (index m tail) as [i|e] eqn:Hi; [|now left].
  destruct (item tail (i + 1)) as [s|e] eqn:Hs; [|now left].
  right. exists i, s. split; [reflexivity|]. split; [exact Hs|].
  destruct (year_and_quarter tail (set s x)) as [[u|e] x']; reflexivity.
Qed.

(** ** Decoding [%20] *)

Lemma prefix_cons (a : ascii) (s1 : string) (b : ascii) (s2 : string) :
  String.prefix (String a s1) (String b s2)
  = (a =? b)%char && String.prefix s1 s2.
Proof.
  cbn [String.prefix].
  destruct (ascii_dec a b) as [->|Hne].
  - now rewrite Ascii.eqb_refl.
  - apply Ascii.eqb_neq in Hne. now rewrite Hne.
Qed.

Lemma prefix_nil (s : string) : String.prefix "" s = true.
Proof. destruct s; reflexivity. Qed.

Lemma decode_match (t : string) :
  replace_from "%20" " " 0 ("%20" ++ t) = String " " (replace_from "%20" " " 0 t).
Proof.
  destruct t; cbn [append]; cbn [replace_from]; rewrite !prefix_cons;
    reflexivity.
Qed.

Lemma decode_no_match (c : ascii) (s : string) :
  String.prefix "%20" (String c s) = false ->
  replace_from "%20" " " 0 (String c s) = String c (replace_from "%20" " " 0 s).
Proof. intro H. cbn [replace_from]. now rewrite H. Qed.

Lemma prefix_pct20 (s : string) :
  String.prefix "%20" s = true -> exists t, s = ("%20" ++ t)%string.
Proof.
  destruct s as [|a [|b [|c t]]]; try discriminate.
  - rewrite prefix_cons. destruct (_ =? a)%char; discriminate.
  - rewrite !prefix_cons.
    destruct (_ =? a)%char; [|discriminate]. destruct (_ =? b)%char; discriminate.
  - rewrite !prefix_cons.
    destruct (Ascii.eqb_spec "%" a) as [<-|]; [|discriminate].
    destruct (Ascii.eqb_spec "2" b) as [<-|]; [|discriminate].
    destruct (Ascii.eqb_spec "0" c) as [<-|]; [|discriminate].
    intros _. now exists t.
Qed.

Lemma decode_leaves_none_bounded (n : nat) :
  forall s, (String.length s <= n)%nat ->
    contains "%20" (replace_from "%20" " " 0 s) = false
    /\ (String.prefix "20" s = false ->
        String.prefix "20" (replace_from "%20" " " 0 s) = false)
    /\ (String.prefix "0" s = false ->
        String.prefix "0" (replace_from "%20" " " 0 s) = false).
Proof.
  induction n as [|n IH]; intros s Hlen.
  - destruct s; [|simpl in Hlen; lia]. repeat split; auto.
  - destruct s as [|c s']; [repeat split; auto|].
    destruct (String.prefix "%20" (String c s')) eqn:Hp.
    + destruct (prefix_pct20 _ Hp) as [t Ht]. rewrite Ht, decode_match.
      assert (Ht' : (String.length t <= n)%nat).
      { rewrite Ht in Hlen. simpl in Hlen. lia. }
      destruct (IH t Ht') as (Hc & _ & _).
      repeat split; try reflexivity.
      cbn [contains]. rewrite Hc. reflexivity.
    + rewrite (decode_no_match _ _ Hp).
      assert (Hs' : (String.length s' <= n)%nat) by (simpl in Hlen; lia).
      destruct (IH s' Hs') as (Hc & H20 & H0).
      split; [|split].
      * cbn [contains]. rewrite Hc, orb_false_r.
        rewrite prefix_cons in Hp |- *.
        destruct ("%" =? c)%char; [|reflexivity].
        cbn [andb] in Hp |- *. auto.
      * rewrite !prefix_cons. destruct ("2" =? c)%char; [|reflexivity].
        cbn [andb]. auto.
      * rewrite !prefix_cons, !prefix_nil. auto.
Qed.

Lemma decode_leaves_none (s : string) :
  contains "%20" (replace "%20" " " s) = false.
Proof.
  change (replace "%20" " " s) with (replace_from "%20" " " 0 s).
  apply (decode_leaves_none_bounded (String.length s)). lia.
Qed.

(** A name without [%20] is kept as it is. *)
Lemma decode_plain (s : string) :
  contains "%20" s = false -> replace "%20" " " s = s.
Proof.
  change (replace "%20" " " s) with (replace_from "%20" " " 0 s).
  induction s as [|c s IH]; [reflexivity|].
  cbn [contains]. intro H. apply orb_false_elim in H as [Hp Hc].
  rewrite (decode_no_match _ _ Hp), (IH Hc). reflexivity.
Qed.

(** ** The context of a path *)

Lemma parse_path_context_resolve (p : string) (x : context) :
  resolve (tail_of p) no_context = (Ok tt, x) -> parse_path_context p = Ok x.
Proof. unfold parse_path_context. now intros ->. Qed.

(** An aggregated path with a country marker and no state marker, whose year
    segment and file stem are regular. *)
Lemma aggregated_country_context
  (rest : list string) (ci : nat) (c y l : string) :
  let tail := "aggregated" :: rest in
  (4 <=? List.length tail)%nat = true ->
  index "country" tail = Ok ci -> item tail (ci + 1) = Ok c ->
  mem "state" tail = false ->
  item_back tail 2 = Ok y -> item_back tail 1 = Ok l ->
  regular y -> regular (stem l) ->
  resolve tail no_context
  = (Ok tt, Context (Some c) None None (read_int y) (read_int (stem l))).
Proof.
  intros tail Hlen Hci Hc Hst Hy Hl Ry Rq.
  unfold tail in *. rewrite (resolve_unfold _ _ _ Hlen). cbv zeta.
  rewrite String.eqb_refl, (index_mem _ _ _ Hci), Hst.
  unfold bind at 1. unfold lift at 1. rewrite Hci.
  unfold bind at 1. unfold lift at 1. rewrite Hc.
  unfold bind at 1. unfold modify at 1.
  rewrite (year_and_quarter_regular _ _ _ Hy Hl Ry Rq).
  cbn [snd]. destruct (read_int y), (read_int (stem l)); reflexivity.
Qed.

Lemma decimal_not_state (s r : string) :
  decimal s = true -> ((s ++ r)%string =? "state")%string = false.
Proof.
  intro H. destruct (decimal_cons _ H) as (a & s' & -> & Ha & _).
  cbn [append String.eqb].
  destruct (is_decimal_facts _ Ha) as (_ & _ & _ & _ & _ & _ & _ & ->).
  reflexivity.
Qed.

Lemma append_nil (s : string) : (s ++ "")%string = s.
Proof. induction s as [|c s IH]; simpl; [reflexivity | now rewrite IH]. Qed.

(** C8. For every path whose segments after the data segment are
    aggregated/<kind>/country/india/<year>/<quarter>.json, with a numeric
    year and quarter (of at most 4300 digits each, the most [int] converts),
    the resolver returns the country read after the country marker
    ("india"), no state, no district, the year and the quarter. *)
Theorem aggregated_country_path_context
  (p kind y q : string)
  (Htail : tail_of p
           = ["aggregated"; kind; "country"; "india"; y; (q ++ ".json")%string])
  (Hkind : In kind kinds)
  (Ny : numeric y = true) (Nq : numeric q = true) :
  parse_path_context p
  = Ok (Context (Some "india") None None
                (Some (decimal_value y)) (Some (decimal_value q))).
Proof.
  pose proof (numeric_decimal _ Ny) as Hy. pose proof (numeric_decimal _ Nq) as Hq.
  apply parse_path_context_resolve. rewrite Htail.
  pose proof (decimal_not_state y "" Hy) as Hys. rewrite append_nil in Hys.
  pose proof (decimal_not_state q ".json" Hq) as Hqs.
  assert (Hread : read_int y = Some (decimal_value y)
                  /\ read_int q = Some (decimal_value q))
    by (unfold read_int; now rewrite Ny, Nq).
  destruct Hread as [<- <-]. rewrite <- (stem_json q Hq) at 2.
  apply (aggregated_country_context _ 2 "india" y (q ++ ".json")).
  - reflexivity.
  - cbn in Hkind. destruct Hkind as [<-|[<-|[<-|[]]]]; reflexivity.
  - reflexivity.
  - unfold mem. cbn [existsb]. rewrite Hys, Hqs.
    cbn in Hkind. destruct Hkind as [<-|[<-|[<-|[]]]]; reflexivity.
  - reflexivity.
  - reflexivity.
  - now left.
  - left. now rewrite stem_json.
Qed.

(** The specification's example path: year 2022, quarter 1. *)
Lemma context_of_2022_quarter_1 :
  parse_path_context path_country
  = Ok (Context (Some "india") None None (Some 2022) (Some 1)).
Proof.
  apply (aggregated_country_path_context path_country "transaction" "2022" "1").
  - reflexivity.
  - left. reflexivity.
  - reflexivity.
  - reflexivity.
Defined.

(** ** The names of the states *)

Lemma prefix_app_l (a w r : string) :
  String.prefix a w = true -> String.prefix a (w ++ r) = true.
Proof.
  revert w. induction a as [|c a IH]; intros w H; [apply prefix_nil|].
  destruct w as [|c' w]; [discriminate H|].
  cbn [append]. rewrite prefix_cons in H |- *.
  apply andb_prop in H as [Hc Ha]. rewrite Hc. cbn [andb]. now apply IH.
Qed.

(** No occurrence of [%20] starts in a plain piece that is followed by
    [%20]. *)
Lemma plain_then_marker (w r : string) :
  String.prefix "%20" w = false ->
  w <> "" ->
  String.prefix "%20" (w ++ "%20" ++ r) = false.
Proof.
  intros H Hne.
  destruct w as [|a [|b [|c w]]]; [congruence| | |].
  - cbn [append]. rewrite !prefix_cons. destruct ("%" =? a)%char; reflexivity.
  - cbn [append]. rewrite !prefix_cons in H |- *.
    destruct ("%" =? a)%char; [|reflexivity].
    destruct ("2" =? b)%char; reflexivity.
  - cbn [append]. rewrite !prefix_cons, !prefix_nil in H |- *.
    destruct ("%" =? a)%char; [|reflexivity].
    destruct ("2" =? b)%char; [|reflexivity].
    destruct ("0" =? c)%char; [discriminate H | reflexivity].
Qed.

Lemma decode_piece (w r : string) :
  plain w ->
  replace_from "%20" " " 0 (w ++ "%20" ++ r)
  = (w ++ " " ++ replace_from "%20" " " 0 r)%string.
Proof.
  unfold plain. induction w as [|c w IH]; intro H.
  - cbn [append]. apply decode_match.
  - cbn [contains] in H. apply orb_false_elim in H as [Hp Hc].
    change ((String c w ++ "%20" ++ r)%string)
      with (String c (w ++ "%20" ++ r)%string).
    rewrite decode_no_match.
    + rewrite (IH Hc). reflexivity.
    + apply (plain_then_marker (String c w) r Hp). discriminate.
Qed.

(** Decoding puts a space where the pieces of a name were joined. *)
Lemma decode_pieces (pieces : list string) :
  Forall plain pieces ->
  replace "%20" " " (encoded_name pieces) = spaced_name pieces.
Proof.
  unfold encoded_name, spaced_name.
  change (replace "%20" " ")
    with (replace_from "%20" " " 0).
  induction 1 as [|w rest Hw Hrest IH]; [reflexivity|].
  destruct rest as [|w' rest].
  - cbn [String.concat]. apply (decode_plain w Hw).
  - change (String.concat "%20" (w :: w' :: rest))
      with (w ++ "%20" ++ String.concat "%20" (w' :: rest))%string.
    change (String.concat " " (w :: w' :: rest))
      with (w ++ " " ++ String.concat " " (w' :: rest))%string.
    rewrite (decode_piece _ _ Hw), IH. reflexivity.
Qed.

(** Every name is made of plain pieces. *)
Lemma name_has_pieces_bounded (n : nat) :
  forall s, (String.length s <= n)%nat ->
    exists w rest, s = encoded_name (w :: rest) /\ Forall plain (w :: rest).
Proof.
  induction n as [|n IH]; intros s Hlen.
  - destruct s; [|simpl in Hlen; lia].
    exists "", []. split; [reflexivity|]. repeat constructor.
  - destruct s as [|c s'].
    { exists "", []. split; [reflexivity|]. repeat constructor. }
    destruct (String.prefix "%20" (String c s')) eqn:Hp.
    + destruct (prefix_pct20 _ Hp) as [t Ht].
      assert (Ht' : (String.length t <= n)%nat).
      { rewrite Ht in Hlen. simpl in Hlen. lia. }
      destruct (IH t Ht') as (w & rest & Hw & Hall).
      exists "", (w :: rest). split.
      * rewrite Ht, Hw. reflexivity.
      * constructor; [reflexivity | exact Hall].
    + assert (Hs' : (String.length s' <= n)%nat) by (simpl in Hlen; lia).
      destruct (IH s' Hs') as (w & rest & Hw & Hall).
      exists (String c w), rest. split.
      * rewrite Hw. destruct rest; reflexivity.
      * inversion Hall as [|? ? Hpw Hrest]; subst. constructor; [|exact Hrest].
        unfold plain in *. cbn [contains]. rewrite Hpw, orb_false_r.
        destruct (String.prefix "%20" (String c w)) eqn:Hcw; [|reflexivity].
        rewrite <- Hp. symmetry.
        destruct rest as [|w' rest].
        -- cbn [encoded_name String.concat]. exact Hcw.
        -- change (encoded_name (w :: w' :: rest))
             with (w ++ ("%20" ++ encoded_name (w' :: rest)))%string.
           apply (prefix_app_l "%20" (String c w)). exact Hcw.
Qed.

Lemma name_has_pieces (s : string) :
  exists pieces, s = encoded_name pieces /\ Forall plain pieces.
Proof.
  destruct (name_has_pieces_bounded (String.length s) s (le_n _))
    as (w & rest & H). eauto.
Qed.

(** C9. For every map or top path (a tail of at least four segments that does
    not start with the aggregated segment) that has a state-wise marker with
    a segment after it, the state is that segment with every [%20] decoded:
    where the segment joins its pieces with [%20], the state joins them with
    spaces, and no [%20] is left in it. A segment in one piece, as Karnataka,
    is the state as it stands. *)
Theorem state_wise_path_state
  (p s : string) (pieces pre post : list string)
  (Htail : tail_of p = pre ++ "state-wise" :: s :: post)
  (Hfirst : ~ In "state-wise" pre)
  (Hlen : (4 <= List.length (tail_of p))%nat)
  (Hcat : hd "" (tail_of p) <> "aggregated")
  (Hs : s = encoded_name pieces)
  (Hpieces : Forall plain pieces) :
  exists x,
    parse_path_context p = Ok x
    /\ ctx_state x = Some (spaced_name pieces)
    /\ contains "%20" (spaced_name pieces) = false.
Proof.
  destruct (tail_of p) as [|first rest] eqn:Ht; [simpl in Hlen; lia|].
  apply Nat.leb_le in Hlen. cbn [hd] in Hcat.
  apply String.eqb_neq in Hcat.
  assert (Hx : exists y q, parse_path_context p
               = Ok (Context None (Some (replace "%20" " " s)) None y q)).
  { unfold parse_path_context. rewrite Ht.
    rewrite (resolve_unfold _ _ _ Hlen). cbv zeta. rewrite Hcat, Htail.
    rewrite mem_marker.
    unfold bind at 1. unfold lift at 1. rewrite (index_marker _ _ _ Hfirst).
    unfold bind at 1. unfold lift at 1. rewrite item_after_marker.
    unfold modify. cbn [snd].
    destruct (mem "country" (pre ++ "state-wise" :: s :: post)
              && mem "india" (pre ++ "state-wise" :: s :: post)).
    - destruct (year_and_quarter_cases (pre ++ "state-wise" :: s :: post) no_context)
        as (oy & oq & -> & _).
      exists oy, oq. destruct oy, oq; reflexivity.
    - exists None, None. reflexivity. }
  destruct Hx as (y & q & Hx).
  eexists. split; [exact Hx|]. cbn [ctx_state].
  rewrite <- (decode_pieces pieces Hpieces), <- Hs.
  split; [reflexivity | apply decode_leaves_none].
Qed.

(** The top path of Tamil%20Nadu and the map path of Karnataka. *)
Lemma state_of_state_wise_path :
  (exists x,
     parse_path_context path_state_wise = Ok x
     /\ ctx_state x = Some "Tamil Nadu"
     /\ contains "%20" "Tamil Nadu" = false)
  /\ (exists x,
        parse_path_context path_karnataka = Ok x
        /\ ctx_state x = Some "Karnataka"
        /\ contains "%20" "Karnataka" = false).
Proof.
  split.
  - apply (state_wise_path_state path_state_wise "Tamil%20Nadu" ["Tamil"; "Nadu"]
             ["top"; "transaction"] ["2022"; "1.json"]).
    + reflexivity.
    + intros [H|[H|[]]]; discriminate H.
    + apply Nat.leb_le. reflexivity.
    + discriminate.
    + reflexivity.
    + repeat constructor.
  - apply (state_wise_path_state path_karnataka "Karnataka" ["Karnataka"]
             ["map"; "transaction"; "hover"] ["2021"; "4.json"]).
    + reflexivity.
    + intros [H|[H|[H|[]]]]; discriminate H.
    + apply Nat.leb_le. reflexivity.
    + discriminate.
    + reflexivity.
    + repeat constructor.
Defined.

(** ** The order of the reads *)

Lemma year_and_quarter_reads (tail : list string) (y l : string) :
  item_back tail 2 = Ok y -> item_back tail 1 = Ok l ->
  forall x,
    snd (year_and_quarter tail x)
    = with_quarter (quarter_read y (stem l)) (with_year (year_read y) x).
Proof.
  intros Hy Hl x.
  unfold year_and_quarter, bind, lift, when, modify, ret.
  unfold year_read, quarter_read, read_segment.
  rewrite Hy.
  destruct (isdigit y) eqn:Dy.
  - rewrite (int_of_digits _ Dy). destruct (numeric y); [|reflexivity].
    rewrite Hl. destruct (isdigit (stem l)) eqn:Dq; [|reflexivity].
    rewrite (int_of_digits _ Dq). destruct (numeric (stem l)); reflexivity.
  - rewrite Hl. destruct (isdigit (stem l)) eqn:Dq; [|reflexivity].
    rewrite (int_of_digits _ Dq). destruct (numeric (stem l)); reflexivity.
Qed.

Lemma last_two_items (tail : list string) (l y : string) (r : list string) :
  rev tail = l :: y :: r ->
  item_back tail 2 = Ok y /\ item_back tail 1 = Ok l
  /\ List.length tail = (2 + List.length r)%nat.
Proof.
  intro H. apply (f_equal (@rev string)) in H. rewrite rev_involutive in H.
  cbn [rev] in H. rewrite <- !app_assoc in H. cbn [app] in H. subst tail.
  unfold item_back, item. rewrite !List.length_app, length_rev. cbn [List.length].
  repeat split.
  - replace (2 <=? List.length r + 2)%nat with true
      by (symmetry; apply Nat.leb_le; lia).
    rewrite nth_error_app2 by (rewrite length_rev; lia).
    rewrite length_rev.
    replace (List.length r + 2 - 2 - List.length r)%nat with 0%nat by lia.
    reflexivity.
  - replace (1 <=? List.length r + 2)%nat with true
      by (symmetry; apply Nat.leb_le; lia).
    rewrite nth_error_app2 by (rewrite length_rev; lia).
    rewrite length_rev.
    replace (List.length r + 2 - 1 - List.length r)%nat with 1%nat by lia.
    reflexivity.
  - lia.
Qed.

Lemma follower_index (m : string) (tail : list string) :
  match index m tail with
  | Ok i => item tail (i + 1)
            = match follower m tail with
              | Some s => Ok s
              | None => Raise IndexError
              end
  | Raise _ => follower m tail = None
  end.
Proof.
  induction tail as [|s rest IH]; [reflexivity|].
  cbn [index follower]. destruct (s =? m)%string.
  - cbn [Nat.add]. unfold item. cbn [nth_error]. destruct rest; reflexivity.
  - destruct (index m rest) as [i|e]; cbn [rbind]; [|exact IH].
    unfold item in *. cbn [Nat.add nth_error]. exact IH.
Qed.

(** A marker branch names the segment after the marker and goes on to the
    year and the quarter; without such a segment it changes nothing. *)
Lemma marker_branch_follower (m : string) (set : string -> context -> context)
  (tail : list string) (x : context) :
  snd ((i <- lift (index m tail) ;;
        s <- lift (item tail (i + 1)) ;;
        modify (set s) ;;
        year_and_quarter tail)%io x)
  = match follower m tail with
    | Some s => snd (year_and_quarter tail (set s x))
    | None => x
    end.
Proof.
  pose proof (follower_index m tail) as H.
  unfold bind, lift, modify.
  destruct (index m tail) as [i|e]; [|now rewrite H].
  rewrite H. destruct (follower m tail) as [s|]; [|reflexivity].
  destruct (year_and_quarter tail (set s x)) as [[u|e] x']; reflexivity.
Qed.

Lemma state_wise_follower (tail : list string) (x : context) :
  snd ((si <- lift (index "state-wise" tail) ;;
        st <- lift (item tail (si + 1)) ;;
        modify (set_state st))%io x)
  = match follower "state-wise" tail with
    | Some s => set_state s x
    | None => x
    end.
Proof.
  pose proof (follower_index "state-wise" tail) as H.
  unfold bind, lift, modify.
  destruct (index "state-wise" tail) as [i|e]; [|now rewrite H].
  rewrite H. destruct (follower "state-wise" tail) as [s|]; reflexivity.
Qed.

Lemma follower_mem (m : string) (tail : list string) :
  mem m tail = false -> follower m tail = None.
Proof.
  unfold mem. induction tail as [|s rest IH]; [reflexivity|].
  cbn [existsb follower]. destruct (s =? m)%string; [discriminate|]. exact IH.
Qed.

(** The resolver, in closed form. *)
Lemma resolve_expected (tail : list string) :
  resolve tail no_context = (Ok tt, expected_context tail).
Proof.
  unfold expected_context.
  destruct (rev tail) as [|l [|y [|a [|b r]]]] eqn:Hrev;
    try (rewrite resolve_short; [reflexivity|];
         apply (f_equal (@List.length string)) in Hrev;
         rewrite length_rev in Hrev; cbn in Hrev; rewrite Hrev; reflexivity).
  destruct (last_two_items _ _ _ _ Hrev) as (Hy & Hl & Hlen).
  assert (Hyq : forall x, snd (year_and_quarter tail x)
                          = with_quarter (quarter_read y (stem l))
                              (with_year (year_read y) x))
    by (apply year_and_quarter_reads; assumption).
  destruct tail as [|first rest]; [discriminate Hrev|].
  assert (H4 : (4 <=? List.length (first :: rest))%nat = true)
    by (rewrite Hlen; reflexivity).
  rewrite (resolve_unfold _ _ _ H4). cbv zeta. cbn [hd]. f_equal.
  set (tail := first :: rest) in *.
  destruct (first =? "aggregated")%string.
  - rewrite !marker_branch_follower.
    assert (Hc : (if mem "country" tail
                  then match follower "country" tail with
                       | Some s => snd (year_and_quarter tail (set_country s no_context))
                       | None => no_context
                       end
                  else no_context)
                 = match follower "country" tail with
                   | Some s => snd (year_and_quarter tail (set_country s no_context))
                   | None => no_context
                   end).
    { destruct (mem "country" tail) eqn:E; [reflexivity|].
      now rewrite (follower_mem _ _ E). }
    rewrite Hc. clear Hc.
    assert (Hs : forall x1,
                 (if mem "state" tail
                  then match follower "state" tail with
                       | Some s => snd (year_and_quarter tail (set_state s x1))
                       | None => x1
                       end
                  else x1)
                 = match follower "state" tail with
                   | Some s => snd (year_and_quarter tail (set_state s x1))
                   | None => x1
                   end).
    { intro x1. destruct (mem "state" tail) eqn:E; [reflexivity|].
      now rewrite (follower_mem _ _ E). }
    rewrite Hs. clear Hs.
    destruct (follower "country" tail) as [c|], (follower "state" tail) as [s|];
      rewrite ?Hyq;
      destruct (year_read y), (quarter_read y (stem l)); reflexivity.
  - rewrite state_wise_follower, Hyq.
    assert (Hs : forall x1,
                 (if mem "state-wise" tail
                  then match follower "state-wise" tail with
                       | Some s => set_state s x1
                       | None => x1
                       end
                  else x1)
                 = match follower "state-wise" tail with
                   | Some s => set_state s x1
                   | None => x1
                   end).
    { intro x1. destruct (mem "state-wise" tail) eqn:E; [reflexivity|].
      now rewrite (follower_mem _ _ E). }
    rewrite Hs. clear Hs.
    destruct (mem "country" tail && mem "india" tail),
      (follower "state-wise" tail) as [s|];
      destruct (year_read y), (quarter_read y (stem l)); reflexivity.
Qed.

Lemma parse_path_context_expected (p : string) :
  parse_path_context p = Ok (expected_context (tail_of p)).
Proof. apply parse_path_context_resolve, resolve_expected. Qed.

(** C4, amended. For every input path string the resolver returns its tuple
    without raising, and the district is null. The signals are not
    independent: the tuple is [expected_context] of the segments after the
    data segment. With fewer than four segments everything is null. The
    country (aggregated paths only) and the state are the segments after the
    first country marker and the first state marker (state-wise in a map or a
    top path), null when the marker is absent or last. The year and the
    quarter are read from the last two segments only when, in an aggregated
    path, a country or a state was read or, in a map or a top path, both a
    country and an india segment occur. When they are read, a year segment
    that is no digit string leaves only the year null, a year segment that
    is a digit string [int] rejects leaves the year and the quarter null,
    and a file stem that is no digit string, or a rejected one, leaves only
    the quarter null. *)
Theorem path_context_total_and_ordered (p : string) :
  exists x,
    parse_path_context p = Ok x
    /\ ctx_district x = None
    /\ x = expected_context (tail_of p).
Proof.
  exists (expected_context (tail_of p)).
  split; [apply parse_path_context_expected|]. split; [|reflexivity].
  unfold expected_context.
  destruct (rev (tail_of p)) as [|l [|y [|a [|b r]]]]; try reflexivity.
  destruct (hd "" (tail_of p) =? "aggregated")%string; reflexivity.
Qed.

(** Nothing follows the state marker, so the read of the state raises; the
    country branch has read the country and the year before, and the stem
    [state] is no digit string: only state and quarter are null. *)
Lemma dangling_state_keeps_year :
  exists x,
    parse_path_context path_state_after_year = Ok x
    /\ ctx_district x = None
    /\ x = Context (Some "india") None None (Some 2022) None.
Proof. exact (path_context_total_and_ordered path_state_after_year). Defined.

(** C4 as stated fails: in [data/aggregated/transaction/2022/state] nothing
    follows the state marker, so reading the state raises; the year segment
    2022 is numeric, and yet the year is null as well. *)
Lemma failed_state_loses_year :
  tail_of path_state_last = ["aggregated"; "transaction"; "2022"; "state"]
  /\ read_int "2022" = Some 2022
  /\ parse_path_context path_state_last = Ok (Context None None None None None).
Proof. repeat split. Qed.

(** Likewise, a digit string that [int] rejects as the year loses the
    quarter 3 of a well-formed file name. *)
Lemma rejected_year_loses_quarter :
  read_int (stem "3.json") = Some 3
  /\ parse_path_context path_superscript_year
     = Ok (Context (Some "india") None None None None).
Proof. split; vm_compute; reflexivity. Qed.

(** So does a year of 4301 digits, which [isdigit] accepts and [int]
    rejects. *)
Lemma overlong_year_loses_quarter :
  decimal (ones (Z.to_nat 4301)) = true
  /\ numeric (ones (Z.to_nat 4301)) = false
  /\ numeric (ones (Z.to_nat 4300)) = true
  /\ parse_path_context path_overlong_year
     = Ok (Context (Some "india") None None None None).
Proof. repeat split; vm_compute; reflexivity. Qed.

(** A year segment that is not numeric leaves only the year null. *)
Lemma plain_year_keeps_quarter :
  parse_path_context "data/aggregated/user/country/india/latest/3.json"
  = Ok (Context (Some "india") None None None (Some 3)).
Proof. vm_compute. reflexivity. Qed.

(** * The run *)

Section Run.

Variable w : world.

(** ** Reading a file *)

Lemma load_json_first (p : string) (j : value) (t : trace) :
  read_json w p Utf8 = Ok j ->
  load_json w p t = (Ok j, t ++ [Opened p Utf8]).
Proof.
  intro H. unfold load_json, try_except, bind, emit, modify, lift.
  now rewrite H.
Qed.

Lemma load_json_retry (p : string) (e : exn) (t : trace) :
  read_json w p Utf8 = Raise e ->
  load_json w p t
  = (read_json w p Latin1, t ++ [Opened p Utf8; Opened p Latin1]).
Proof.
  intro H. unfold load_json, try_except, bind, emit, modify, lift.
  rewrite H, <- app_assoc. reflexivity.
Qed.

Lemma body_load_raises (p : string) (e : exn) (t t' : trace) :
  load_json w p t = (Raise e, t') ->
  forall body, In body (bodies w) ->
  forall total, body total p t = (Raise e, t').
Proof.
  intros H body Hb total.
  destruct Hb as [<-|[<-|[<-|[]]]];
    unfold aggregated_file, map_file, top_file; unfold bind at 1;
    now rewrite H.
Qed.

Lemma for_files_raises (body : nat -> string -> M trace nat) (p : string) :
  (forall total t, exists e t', body total p t = (Raise e, t')) ->
  forall files, In p files ->
  forall total t, exists e t', for_files body files total t = (Raise e, t').
Proof.
  intros Hp. induction files as [|f files IH]; intros Hin total t; [destruct Hin|].
  cbn [for_files]. unfold bind.
  destruct (body total f t) as [[n|e] t1] eqn:Hf; [|eauto].
  destruct Hin as [->|Hin]; [|auto].
  destruct (Hp total t) as (e & t' & He). congruence.
Qed.

Lemma process_and_load_raises (p : string) :
  (forall body, In body (bodies w) ->
   forall total t, exists e t', body total p t = (Raise e, t')) ->
  forall c, In c categories -> In p (discovered w c) ->
  forall t, exists e t', process_and_load w t = (Raise e, t').
Proof.
  intros Hp c Hc Hin t. unfold process_and_load.
  assert (Ha : forall total t, In p (discovered w "aggregated") ->
            exists e t', for_files (aggregated_file w) (discovered w "aggregated") total t
                         = (Raise e, t')).
  { intros. apply (for_files_raises _ p); auto. intros. apply Hp. now left. }
  assert (Hm : forall total t, In p (discovered w "map") ->
            exists e t', for_files (map_file w) (discovered w "map") total t
                         = (Raise e, t')).
  { intros. apply (for_files_raises _ p); auto. intros. apply Hp. right. now left. }
  assert (Ht : forall total t, In p (discovered w "top") ->
            exists e t', for_files (top_file w) (discovered w "top") total t
                         = (Raise e, t')).
  { intros. apply (for_files_raises _ p); auto. intros. apply Hp.
    right. right. now left. }
  unfold bind at 1.
  destruct (for_files (aggregated_file w) _ 0%nat t) as [[n1|e1] t1] eqn:E1; [|eauto].
  unfold bind at 1.
  destruct (for_files (map_file w) _ n1 t1) as [[n2|e2] t2] eqn:E2; [|eauto].
  unfold bind at 1.
  destruct (for_files (top_file w) _ n2 t2) as [[n3|e3] t3] eqn:E3; [|eauto].
  exfalso.
  destruct Hc as [<-|[<-|[<-|[]]]].
  - destruct (Ha 0%nat t Hin) as (e & t' & He). congruence.
  - destruct (Hm n1 t1 Hin) as (e & t' & He). congruence.
  - destruct (Ht n2 t2 Hin) as (e & t' & He). congruence.
Qed.

(** C1, amended. For every source file whose first read/parse attempt (utf-8)
    fails, the loader makes exactly one fallback retry (latin-1) and goes on
    with what the retry yields. If the retry fails too, its exception is NOT
    caught: the loop stops at that file, nothing is logged, no later file is
    opened, and the run ends with an exception. *)
Theorem fallback_retry_then_abort (p : string) (e1 : exn)
  (Hfirst : read_json w p Utf8 = Raise e1) :
  (forall t, load_json w p t
             = (read_json w p Latin1, t ++ [Opened p Utf8; Opened p Latin1]))
  /\ (forall e2, read_json w p Latin1 = Raise e2 ->
      (forall body, In body (bodies w) ->
       forall rest total t,
         for_files body (p :: rest) total t
         = (Raise e2, t ++ [Opened p Utf8; Opened p Latin1]))
      /\ (forall c, In c categories -> In p (discovered w c) ->
          forall t, exists e t', process_and_load w t = (Raise e, t'))).
Proof.
  split; [intro t; now apply (load_json_retry p e1)|].
  intros e2 Hsecond.
  assert (Hload : forall t, load_json w p t
                  = (Raise e2, t ++ [Opened p Utf8; Opened p Latin1])).
  { intro t. rewrite (load_json_retry p e1 t Hfirst). now rewrite Hsecond. }
  split.
  - intros body Hb rest total t. cbn [for_files]. unfold bind.
    now rewrite (body_load_raises p e2 t _ (Hload t) body Hb total).
  - apply process_and_load_raises. intros body Hb total t.
    exists e2, (t ++ [Opened p Utf8; Opened p Latin1]).
    now apply (body_load_raises p e2 t).
Qed.


(** ** A file that holds the empty object *)

Lemma empty_document_no_rows (kind : string) (c s d y q src : value) :
  parse_aggregated_transaction (VDict []) c s d y q src = Ok []
  /\ parse_aggregated_user (VDict []) c s d y q src = Ok []
  /\ parse_aggregated_insurance (VDict []) c s d y q src = Ok []
  /\ parse_map_json (VDict []) kind c s y q src = Ok []
  /\ parse_top_json (VDict []) kind c s y q src = Ok [].
Proof.
  repeat split; try reflexivity.
  unfold parse_map_json.
  destruct (kind =? "transaction")%string; [reflexivity|].
  destruct (kind =? "user")%string; [reflexivity|].
  destruct (kind =? "insurance")%string; reflexivity.
Qed.

Lemma insert_nothing (table : string) (total : nat) (t : trace) :
  insert w (Ok []) table total t = (Ok total, t).
Proof. reflexivity. Qed.

Lemma body_empty_object (p : string) (t t' : trace) :
  load_json w p t = (Ok (VDict []), t') ->
  forall body, In body (bodies w) ->
  forall total, body total p t = (Ok total, t').
Proof.
  intros H body Hb total.
  destruct (parse_path_context_total p) as [x Hx].
  destruct Hb as [<-|[<-|[<-|[]]]];
    unfold aggregated_file, map_file, top_file; unfold bind at 1;
    rewrite H; unfold bind at 1; unfold lift at 1; rewrite Hx;
    repeat match goal with
      | |- context [if ?b then _ else _] => destruct b
      end; reflexivity.
Qed.

(** C7. For every category and kind, the empty JSON object yields zero rows
    from the extractor, without an exception. A file that yields zero rows
    causes no write to the row sink, and a file that holds the empty object
    changes nothing but the list of opened files: the loop goes on with the
    next file, with the same total. *)
Theorem empty_object_no_rows_no_write (p : string)
  (Hload : read_json w p Utf8 = Ok (VDict [])
           \/ (exists e, read_json w p Utf8 = Raise e)
              /\ read_json w p Latin1 = Ok (VDict [])) :
  (forall kind c s d y q src,
     parse_aggregated_transaction (VDict []) c s d y q src = Ok []
     /\ parse_aggregated_user (VDict []) c s d y q src = Ok []
     /\ parse_aggregated_insurance (VDict []) c s d y q src = Ok []
     /\ parse_map_json (VDict []) kind c s y q src = Ok []
     /\ parse_top_json (VDict []) kind c s y q src = Ok [])
  /\ (forall table total t, insert w (Ok []) table total t = (Ok total, t))
  /\ exists opens,
       (forall ev, In ev opens -> exists enc, ev = Opened p enc)
       /\ forall body, In body (bodies w) ->
          forall rest total t,
            for_files body (p :: rest) total t
            = for_files body rest total (t ++ opens).
Proof.
  split; [intros; apply empty_document_no_rows|].
  split; [intros; apply insert_nothing|].
  destruct Hload as [H1 | [[e H1] H2]].
  - exists [Opened p Utf8]. split.
    + intros ev [<-|[]]. eauto.
    + intros body Hb rest total t. cbn [for_files]. unfold bind.
      now rewrite (body_empty_object p t _ (load_json_first p _ t H1) body Hb).
  - exists [Opened p Utf8; Opened p Latin1]. split.
    + intros ev [<-|[<-|[]]]; eauto.
    + intros body Hb rest total t. cbn [for_files]. unfold bind.
      assert (Hl : load_json w p t
                   = (Ok (VDict []), t ++ [Opened p Utf8; Opened p Latin1])).
      { rewrite (load_json_retry p e t H1). now rewrite H2. }
      now rewrite (body_empty_object p t _ Hl body Hb).
Qed.


(** ** The segments of a path *)

Lemma In_skipn {A} (n : nat) (l : list A) (a : A) : In a (skipn n l) -> In a l.
Proof.
  revert l. induction n as [|n IH]; intros l H; [exact H|].
  destruct l as [|b l]; [exact H|]. right. apply IH. exact H.
Qed.

Lemma segment_not_empty (p s : string) : In s (tail_of p) -> s <> "".
Proof.
  unfold tail_of. intro H. apply In_skipn in H. unfold parts in H.
  apply in_app_or in H as [H|H].
  - unfold path_root in H.
    destruct p as [|a [|b [|c p]]]; try destruct H;
      repeat match goal with
      | H : In _ (match ?a with Ascii _ _ _ _ _ _ _ _ => _ end) |- _ =>
          destruct a as [[] [] [] [] [] [] [] []]
      end; cbn in H; repeat destruct H as [H|H]; subst; try discriminate;
      try contradiction.
  - unfold path_tail in H. apply filter_In in H as [_ H].
    apply andb_prop in H as [H _]. apply negb_true_iff, String.eqb_neq in H.
    exact H.
Qed.

Lemma follower_In (m : string) (tail : list string) (s : string) :
  follower m tail = Some s -> In s tail.
Proof.
  induction tail as [|a rest IH]; [discriminate|].
  cbn [follower]. destruct (a =? m)%string.
  - destruct rest as [|b rest]; [discriminate|].
    intro H. injection H as <-. right. now left.
  - intro H. right. now apply IH.
Qed.

Lemma country_is_a_segment (p : string) (x : context) (c : string) :
  parse_path_context p = Ok x -> ctx_country x = Some c -> In c (tail_of p).
Proof.
  rewrite parse_path_context_expected. intro H. injection H as <-.
  unfold expected_context.
  destruct (rev (tail_of p)) as [|l [|y [|a [|b r]]]]; try discriminate.
  destruct (hd "" (tail_of p) =? "aggregated")%string; [|discriminate].
  cbn [ctx_country]. apply follower_In.
Qed.

(** The country the extractors receive. *)
Lemma country_or_india_name (p : string) (x : context) :
  parse_path_context p = Ok x ->
  country_or_india x = VStr (country_name x) /\ country_name x <> "".
Proof.
  intro Hx. unfold country_or_india, country_name, or_else.
  destruct (ctx_country x) as [c|] eqn:Hc; cbn [of_str truthy].
  - pose proof (segment_not_empty p c (country_is_a_segment p x c Hx Hc)) as Hne.
    apply String.eqb_neq in Hne. rewrite Hne. cbn [negb].
    apply String.eqb_neq in Hne. auto.
  - split; [reflexivity | discriminate].
Qed.

(** ** The header of a row *)

Lemma transaction_rows_header j country state district year quarter p rows :
  parse_aggregated_transaction j country state district year quarter (VStr p) = Ok rows ->
  Forall (fun r => lookup "source_path" r = Some (VStr p)
                   /\ lookup "country" r = Some country) rows.
Proof.
  unfold parse_aggregated_transaction. intro H. ok_inv.
  revert H. apply mapM_Forall. intros rec r Hr.
  unfold transaction_row in Hr. ok_inv. split; reflexivity.
Qed.

Lemma user_rows_header j country state district year quarter p rows :
  parse_aggregated_user j country state district year quarter (VStr p) = Ok rows ->
  Forall (fun r => lookup "source_path" r = Some (VStr p)
                   /\ lookup "country" r = Some country) rows.
Proof.
  unfold parse_aggregated_user. intro H.
  destruct (or_else _ _) as [| | | | | |d]; try (injection H as <-; constructor).
  destruct (existsb _ _).
  - ok_inv; (constructor; [split; reflexivity | constructor]).
  - destruct (dict_get d "usersByDevice") as [| | | | |[|rec rest]|];
      try (injection H as <-; constructor).
    ok_inv. constructor; [split; reflexivity | constructor].
Qed.

Lemma insurance_rows_header j country state district year quarter p rows :
  parse_aggregated_insurance j country state district year quarter (VStr p) = Ok rows ->
  Forall (fun r => lookup "source_path" r = Some (VStr p)
                   /\ lookup "country" r = Some country) rows.
Proof.
  unfold parse_aggregated_insurance. intro H. ok_inv.
  revert H. apply mapM_Forall. intros rec r Hr.
  unfold insurance_row in Hr. ok_inv. split; reflexivity.
Qed.

Lemma map_insurance_metric_header source country state year quarter name metric r :
  map_insurance_metric source country state year quarter name metric = Ok r ->
  lookup "source_path" r = Some source /\ lookup "country" r = Some country.
Proof. unfold map_insurance_metric. intro H. ok_inv. split; reflexivity. Qed.

Lemma map_rows_header j kind country state year quarter p rows :
  parse_map_json j kind country state year quarter (VStr p) = Ok rows ->
  Forall (fun r => lookup "source_path" r = Some (VStr p)
                   /\ lookup "country" r = Some country) rows.
Proof.
  unfold parse_map_json. intro H.
  destruct (kind =? "transaction")%string.
  { revert H. apply flat_mapM_Forall. intros item rs Hi.
    unfold map_transaction_item in Hi. ok_inv; [constructor|].
    constructor; [split; reflexivity | constructor]. }
  destruct (kind =? "user")%string.
  { ok_inv. destruct a as [| | | | | |items]; try (injection H as <-; constructor).
    revert H. apply flat_mapM_Forall. intros [name metric] rs Hi.
    unfold map_user_item in Hi. ok_inv; [constructor|].
    constructor; [split; reflexivity | constructor]. }
  destruct (kind =? "insurance")%string; [|injection H as <-; constructor].
  revert H. apply flat_mapM_Forall. intros cand rs Hc.
  unfold map_insurance_candidate in Hc.
  destruct cand as [| | | | |items|d]; try (injection Hc as <-; constructor).
  - revert Hc. apply flat_mapM_Forall. intros item rs' Hi.
    ok_inv; [constructor|].
    constructor; [eapply map_insurance_metric_header; eauto | constructor].
  - revert Hc. apply flat_mapM_Forall. intros kv rs' Hi.
    ok_inv; [constructor|].
    constructor; [eapply map_insurance_metric_header; eauto | constructor].
Qed.

Lemma top_rows_header j kind country state year quarter p rows :
  parse_top_json j kind country state year quarter (VStr p) = Ok rows ->
  Forall (fun r => lookup "source_path" r = Some (VStr p)
                   /\ lookup "country" r = Some country) rows.
Proof.
  unfold parse_top_json. apply flat_mapM_Forall. intros item rs Hi.
  unfold top_item in Hi.
  ok_inv; try constructor; try (split; reflexivity); constructor.
Qed.

(** Every extractor copies the path of the file and the country it is given
    into each row. *)
Lemma extract_rows (category kind : string) (j : value) (x : context)
  (p : string) (rows : list row) :
  extract category kind j x p = Ok rows -> Forall (row_of p x) rows.
Proof.
  unfold extract, row_of.
  destruct (category =? "aggregated")%string;
    [destruct (kind =? "transaction")%string;
     [|destruct (kind =? "user")%string]
    |destruct (category =? "map")%string];
    eauto using transaction_rows_header, user_rows_header,
      insurance_rows_header, map_rows_header, top_rows_header.
Qed.

(** ** The batches of a run *)

Lemma linked_snoc (t : trace) (ev : event) :
  Forall (linked_event w) t -> linked_event w ev ->
  Forall (linked_event w) (t ++ [ev]).
Proof. intros Ht Hev. apply Forall_app. split; [assumption | now constructor]. Qed.

Lemma load_json_linked (p : string) (t : trace) :
  Forall (linked_event w) t -> Forall (linked_event w) (snd (load_json w p t)).
Proof.
  intro Ht. unfold load_json, try_except, bind, emit, modify, lift.
  destruct (read_json w p Utf8); cbn [snd].
  - now apply linked_snoc.
  - destruct (read_json w p Latin1); cbn [snd]; repeat apply linked_snoc; auto;
      exact I.
Qed.

Lemma load_json_read_as (p : string) (t t' : trace) (j : value) :
  load_json w p t = (Ok j, t') -> read_as w p j.
Proof.
  unfold load_json, try_except, bind, emit, modify, lift, read_as.
  destruct (read_json w p Utf8) as [j1|e1].
  - intro H. injection H as <- _. now left.
  - destruct (read_json w p Latin1) as [j2|e2]; intro H; [|discriminate H].
    injection H as <- _. right. eauto.
Qed.

Lemma insert_linked (rows : result (list row)) (table : string)
  (total : nat) (t : trace) :
  (forall df, rows = Ok df -> batch_of w table df) ->
  Forall (linked_event w) t ->
  Forall (linked_event w) (snd (insert w rows table total t)).
Proof.
  intros Hrows Ht. unfold insert, bind, lift.
  destruct rows as [df|e]; [|exact Ht].
  specialize (Hrows df eq_refl).
  destruct df as [|r df]; [exact Ht|].
  unfold bulk_insert, bind, emit, modify, ret, throw.
  assert (Hev : linked_event w (ToSql table (r :: df)))
    by (split; [discriminate | assumption]).
  destruct (to_sql w table (r :: df)); cbn [snd].
  - now apply linked_snoc.
  - apply linked_snoc; [now apply linked_snoc | exact I].
Qed.

Lemma body_linked (category : string) (body : nat -> string -> M trace nat) :
  In (category, body) (loops w) ->
  forall total p t,
    In p (discovered w category) ->
    Forall (linked_event w) t -> Forall (linked_event w) (snd (body total p t)).
Proof.
  intros Hb total p t Hp Ht.
  pose proof (load_json_linked p t Ht) as Hl.
  destruct (parse_path_context_total p) as [x Hx].
  destruct (country_or_india_name p x Hx) as [Hc _].
  assert (Hbatch : forall kind j rows,
            In kind kinds -> read_as w p j ->
            contains (route_marker category kind) (replace "\" "/" p) = true ->
            extract category kind j x p = Ok rows ->
            batch_of w (table_of category kind) rows).
  { intros kind j rows Hk Hj Hm Hrows. exists category, kind, p, j, x.
    repeat split; try assumption.
    destruct Hb as [H|[H|[H|[]]]]; injection H as <- _; cbn; auto. }
  destruct Hb as [H|[H|[H|[]]]]; injection H as <- <-;
    unfold aggregated_file, map_file, top_file; unfold bind at 1;
    (destruct (load_json w p t) as [[j|e] t1] eqn:Hload; [|exact Hl]);
    apply load_json_read_as in Hload;
    unfold bind at 1; unfold lift at 1; rewrite Hx, Hc; cbn [snd] in Hl;
    repeat match goal with
      | |- context [if contains ?a ?b then _ else _] =>
          destruct (contains a b) eqn:?
      end;
    try exact Hl;
    (apply insert_linked; [|exact Hl]); intros df Hdf.
  - apply (Hbatch "transaction" j df); cbn; auto.
  - apply (Hbatch "user" j df); cbn; auto.
  - apply (Hbatch "insurance" j df); cbn; auto.
  - apply (Hbatch "transaction" j df); cbn; auto.
  - apply (Hbatch "user" j df); cbn; auto.
  - apply (Hbatch "insurance" j df); cbn; auto.
  - apply (Hbatch "transaction" j df); cbn; auto.
  - apply (Hbatch "user" j df); cbn; auto.
  - apply (Hbatch "insurance" j df); cbn; auto.
Qed.

Lemma for_files_linked (category : string) (body : nat -> string -> M trace nat) :
  In (category, body) (loops w) ->
  forall files total t,
    incl files (discovered w category) ->
    Forall (linked_event w) t ->
    Forall (linked_event w) (snd (for_files body files total t)).
Proof.
  intros Hb. induction files as [|p files IH]; intros total t Hin Ht; [exact Ht|].
  cbn [for_files]. unfold bind.
  pose proof (body_linked category body Hb total p t (Hin p (or_introl eq_refl)) Ht)
    as Hp.
  destruct (body total p t) as [[n|e] t1]; cbn [snd] in Hp; [|exact Hp].
  apply IH; [|exact Hp]. intros q Hq. apply Hin. now right.
Qed.

Lemma process_and_load_linked (t : trace) :
  Forall (linked_event w) t ->
  Forall (linked_event w) (snd (process_and_load w t)).
Proof.
  intro Ht. unfold process_and_load.
  pose proof (for_files_linked "aggregated" (aggregated_file w) ltac:(now left)
                (discovered w "aggregated") 0%nat t (incl_refl _) Ht) as H1.
  unfold bind at 1.
  destruct (for_files (aggregated_file w) _ _ t) as [[n1|e1] t1];
    cbn [snd] in H1; [|exact H1].
  pose proof (for_files_linked "map" (map_file w) ltac:(right; now left)
                (discovered w "map") n1 t1 (incl_refl _) H1) as H2.
  unfold bind at 1.
  destruct (for_files (map_file w) _ _ t1) as [[n2|e2] t2];
    cbn [snd] in H2; [|exact H2].
  pose proof (for_files_linked "top" (top_file w) ltac:(right; right; now left)
                (discovered w "top") n2 t2 (incl_refl _) H2) as H3.
  unfold bind at 1.
  destruct (for_files (top_file w) _ _ t2) as [[n3|e3] t3];
    cbn [snd] in H3; [|exact H3].
  unfold bind, emit, modify, ret. cbn [snd].
  apply linked_snoc; [exact H3 | exact I].
Qed.

(** C10. Every row handed to the row sink by a full load pass, whatever the
    table, names a discovered file and carries the country of that file's
    path: the country the resolver returns for it or, when the resolver
    returns none, 'india'. The country is never null and never empty. *)
Theorem every_loaded_row_has_a_country
  (table : string) (rows : list row) (r : row)
  (Hev : In (ToSql table rows) (snd (process_and_load w [])))
  (Hr : In r rows) :
  exists category p x,
    In category categories /\ In p (discovered w category)
    /\ parse_path_context p = Ok x
    /\ lookup "source_path" r = Some (VStr p)
    /\ lookup "country" r
       = Some (VStr match ctx_country x with Some c => c | None => "india" end)
    /\ match ctx_country x with Some c => c | None => "india" end <> "".
Proof.
  pose proof (process_and_load_linked [] (Forall_nil _)) as Hs.
  rewrite Forall_forall in Hs.
  destruct (Hs _ Hev) as (_ & category & kind & p & j & x
                          & Hc & _ & Hp & _ & Hx & _ & _ & Hrows).
  apply extract_rows in Hrows. rewrite Forall_forall in Hrows.
  destruct (Hrows r Hr) as [Hsrc Hcountry].
  destruct (country_or_india_name p x Hx) as [_ Hne].
  exists category, p, x. repeat split; assumption.
Qed.

End Run.

(** ** Sample runs *)

(** [file_a] fails in both encodings. *)
Lemma unreadable_file_ends_the_run :
  (forall t, load_json world_unreadable file_a t
             = (read_json world_unreadable file_a Latin1,
                t ++ [Opened file_a Utf8; Opened file_a Latin1]))
  /\ (forall e2, read_json world_unreadable file_a Latin1 = Raise e2 ->
      (forall body, In body (bodies world_unreadable) ->
       forall rest total t,
         for_files body (file_a :: rest) total t
         = (Raise e2, t ++ [Opened file_a Utf8; Opened file_a Latin1]))
      /\ (forall c, In c categories -> In file_a (discovered world_unreadable c) ->
          forall t, exists e t', process_and_load world_unreadable t = (Raise e, t'))).
Proof.
  exact (fallback_retry_then_abort world_unreadable file_a ValueError eq_refl).
Defined.

(** C1 as stated fails: [file_a] cannot be read in either encoding and
    [file_b], next in the list, can; the run ends with the exception of the
    retry, having logged nothing and never opened [file_b]. *)
Lemma unreadable_file_aborts_the_run :
  discovered world_unreadable "aggregated" = [file_a; file_b]
  /\ read_json world_unreadable file_b Utf8 = Ok doc_summary
  /\ process_and_load world_unreadable []
     = (Raise ValueError, [Opened file_a Utf8; Opened file_a Latin1]).
Proof. repeat split; vm_compute; reflexivity. Qed.

(** [file_a] holds the empty object. *)
Lemma empty_object_file_is_passed_over :
  (forall kind c s d y q src,
     parse_aggregated_transaction (VDict []) c s d y q src = Ok []
     /\ parse_aggregated_user (VDict []) c s d y q src = Ok []
     /\ parse_aggregated_insurance (VDict []) c s d y q src = Ok []
     /\ parse_map_json (VDict []) kind c s y q src = Ok []
     /\ parse_top_json (VDict []) kind c s y q src = Ok [])
  /\ (forall table total t,
        insert world_empty_object (Ok []) table total t = (Ok total, t))
  /\ exists opens,
       (forall ev, In ev opens -> exists enc, ev = Opened file_a enc)
       /\ forall body, In body (bodies world_empty_object) ->
          forall rest total t,
            for_files body (file_a :: rest) total t
            = for_files body rest total (t ++ opens).
Proof.
  exact (empty_object_no_rows_no_write world_empty_object file_a
           (or_introl eq_refl)).
Defined.

(** The whole run over the empty [file_a] and the summary in [file_b]: one
    batch, for [file_b], and a total of one row. *)
Lemma run_over_an_empty_object :
  process_and_load world_empty_object []
  = (Ok 1%nat,
     [Opened file_a Utf8; Opened file_b Utf8;
      ToSql "aggregated_user"
        [header (VStr file_b) (VStr "india") VNone VNone (VInt 2022) (VInt 2)
         ++ [("registered_users", VInt 500); ("app_opens", VInt 0);
             ("active_users", VNone)]];
      Logged "INFO"]).
Proof. vm_compute. reflexivity. Qed.

Lemma run_over_a_summary :
  snd (process_and_load world_single [])
  = [Opened file_a Utf8; ToSql "aggregated_user" [summary_row]; Logged "INFO"].
Proof. vm_compute. reflexivity. Defined.

Lemma run_over_a_map_file :
  snd (process_and_load world_map [])
  = [Opened file_map Utf8; ToSql "map_map" [pune_map_row]; Logged "INFO"].
Proof. vm_compute. reflexivity. Defined.

(** The row loaded from a map file: the path names no country, and the row
    is loaded for 'india'. *)
Lemma loaded_map_row_is_for_india :
  exists x,
    In file_map (discovered world_map "map")
    /\ parse_path_context file_map = Ok x
    /\ ctx_country x = None
    /\ lookup "source_path" pune_map_row = Some (VStr file_map)
    /\ lookup "country" pune_map_row = Some (VStr "india").
Proof.
  destruct (every_loaded_row_has_a_country world_map "map_map"
              [pune_map_row] pune_map_row)
    as (category & p & x & Hc & Hp & Hx & Hsrc & Hcountry & Hne).
  - rewrite run_over_a_map_file. right. left. reflexivity.
  - left. reflexivity.
  - cbn in Hsrc. injection Hsrc as Hsrc. subst p.
    exists x. vm_compute in Hx. injection Hx as Hx. subst x.
    repeat split. left. reflexivity.
Defined.

(** * Further properties *)

(** ** Looking up a path of keys *)

Lemma safe_get_none (keys : list string) : safe_get VNone keys = VNone.
Proof. destruct keys; reflexivity. Qed.

(** X1. Looking up a path of keys in two steps is looking it up in one. *)
Theorem safe_get_app (d : value) (keys1 keys2 : list string) :
  safe_get d (keys1 ++ keys2) = safe_get (safe_get d keys1) keys2.
Proof.
  revert d. induction keys1 as [|k keys1 IH]; intro d; [reflexivity|].
  cbn [app safe_get].
  destruct d as [| | | | | |m]; try (now rewrite safe_get_none).
  destruct (dict_get m k) eqn:Hk; try apply IH.
  now rewrite safe_get_none.
Qed.

Lemma nested_not_none (keys : list string) (v : value) :
  v <> VNone -> nested keys v <> VNone.
Proof. destruct keys; [auto | discriminate]. Qed.

(** X2. [safe_get] finds what was stored under a path of keys, provided it is
    not null. *)
Theorem safe_get_nested (keys : list string) (v : value) (Hv : v <> VNone) :
  safe_get (nested keys v) keys = v.
Proof.
  induction keys as [|k keys IH]; [reflexivity|].
  cbn [nested safe_get]. unfold dict_get. cbn [lookup].
  rewrite String.eqb_refl.
  pose proof (nested_not_none keys v Hv) as Hn.
  destruct (nested keys v); try exact IH. now elim Hn.
Qed.

(** X3. A key that is missing, or a step through something that is not a
    dict, gives null, whatever follows. *)
Theorem safe_get_missing (d : value) (keys1 keys2 : list string) (k : string)
  (Hmiss : match safe_get d keys1 with
           | VDict m => lookup k m = None
           | _ => True
           end) :
  safe_get d (keys1 ++ k :: keys2) = VNone.
Proof.
  rewrite safe_get_app. cbn [safe_get].
  destruct (safe_get d keys1) as [| | | | | |m]; try reflexivity.
  unfold dict_get. now rewrite Hmiss.
Qed.

(** ** The two shapes of an aggregated user document *)



(** X5. The extractor returns no row exactly when the payload has neither
    shape. *)
Theorem aggregated_user_no_row_iff
  (j country state district year quarter source : value) :
  parse_aggregated_user j country state district year quarter source = Ok []
  <-> neither_shape (or_else (safe_get j ["data"]) (VDict [])) = true.
Proof.
  unfold parse_aggregated_user, neither_shape.
  destruct (or_else (safe_get j ["data"]) (VDict [])) as [| | | | | |d];
    try (split; reflexivity).
  destruct (existsb (fun k => has_key k d) summary_keys); cbn [negb andb].
  - split; [|discriminate]. intro H. ok_inv; discriminate.
  - destruct (dict_get d "usersByDevice") as [| | | | |[|rec rest]|];
      try (split; reflexivity).
    split; [|discriminate]. intro H. ok_inv; discriminate.
Qed.

(** ** Insurance documents *)

Lemma alias_float_read (d : list (string * value)) (k1 k2 : string) :
  float_or_missing d k1 = true -> float_or_missing d k2 = true ->
  rbind (or_lazy (get (VDict d) k1)
           (or_lazy (get (VDict d) k2) (Ok (VFloat float_zero))))
        (fun v => to_float v)
  = Ok (alias_float (VDict d) k1 k2).
Proof.
  unfold float_or_missing, alias_float, float_under, or_lazy, get, dict_get.
  intros H1 H2. cbn [rbind].
  destruct (lookup k1 d) as [[| | |f1| | |]|]; try discriminate H1;
    destruct (lookup k2 d) as [[| | |f2| | |]|]; try discriminate H2;
    try destruct f1; try destruct f2; reflexivity.
Qed.

Lemma insurance_row_spec (hdr : row) (rec : value) :
  is_policy rec = true ->
  insurance_row hdr rec = Ok (expected_insurance_row hdr rec).
Proof.
  destruct rec as [| | | | | |d]; try discriminate.
  cbn [is_policy]. intro H.
  apply andb_prop in H as [H H4]. apply andb_prop in H as [H H3].
  apply andb_prop in H as [H1 H2].
  unfold insurance_row, expected_insurance_row.
  rewrite (alias_read d _ _ H1 H2), (alias_float_read d _ _ H3 H4).
  unfold or_lazy at 1. cbn [get rbind field]. unfold or_else.
  destruct (truthy (dict_get d "name")); reflexivity.
Qed.

(** X6. One row per insurance entry, whether the container is a list or a
    single object; the type, the policy count and the premium are each read
    under their two names. *)
Theorem aggregated_insurance_rows
  (j country state district year quarter source : value) (recs : list value)
  (Htruthy : truthy (insurance_source j) = true)
  (Hshape : policies_of (insurance_source j) = Some recs)
  (Hrecs : forallb is_policy recs = true) :
  parse_aggregated_insurance j country state district year quarter source
  = Ok (map (expected_insurance_row
               (header source country state district year quarter)) recs).
Proof.
  unfold parse_aggregated_insurance.
  assert (Hsrc : or_else (safe_get j ["data"; "insurance"])
                   (or_else (safe_get j ["data"; "insuranceData"]) (VList []))
                 = insurance_source j).
  { unfold insurance_source, or_else in *.
    destruct (truthy (safe_get j ["data"; "insurance"])); [reflexivity|].
    now rewrite Htruthy. }
  rewrite Hsrc.
  assert (Hit : iterate (if is_dict (insurance_source j)
                         then VList [insurance_source j]
                         else insurance_source j) = Ok recs).
  { destruct (insurance_source j); try discriminate Hshape;
      injection Hshape as <-; reflexivity. }
  rewrite Hit. cbn [rbind].
  apply mapM_pure. apply Forall_forall. intros rec Hin.
  apply insurance_row_spec. rewrite forallb_forall in Hrecs. auto.
Qed.

(** The loop stops at the first entry that raises. *)
Lemma mapM_raises {A B} (f : A -> result B) (g : A -> B)
  (pre post : list A) (bad : A) (e : exn) :
  Forall (fun a => f a = Ok (g a)) pre -> f bad = Raise e ->
  mapM f (pre ++ bad :: post) = Raise e.
Proof.
  induction 1 as [|x pre Hx _ IH]; intro Hbad; cbn [app mapM].
  - now rewrite Hbad.
  - rewrite Hx. cbn [rbind]. now rewrite (IH Hbad).
Qed.

(** X7. An entry that is not an object is not skipped: it ends the extraction
    of the file with AttributeError, for transaction and insurance
    documents alike. *)
Theorem entry_that_is_no_object_raises
  (j country state district year quarter source : value)
  (pre post : list value) (bad : value)
  (Hbad : is_dict bad = false) :
  (safe_get j ["data"; "transactionData"] = VList (pre ++ bad :: post) ->
   forallb is_entry pre = true ->
   parse_aggregated_transaction j country state district year quarter source
   = Raise AttributeError)
  /\ (insurance_source j = VList (pre ++ bad :: post) ->
      forallb is_policy pre = true ->
      parse_aggregated_insurance j country state district year quarter source
      = Raise AttributeError).
Proof.
  assert (Hlist : forall l : list value,
            iterate (or_else (VList (pre ++ bad :: l)) (VList []))
            = Ok (pre ++ bad :: l))
    by (intro l; destruct pre; reflexivity).
  split.
  - intros Hdata Hpre. unfold parse_aggregated_transaction.
    rewrite Hdata, Hlist. cbn [rbind].
    apply (mapM_raises _ (expected_transaction_row
             (header source country state district year quarter))).
    + apply Forall_forall. intros rec Hin. apply transaction_row_spec.
      rewrite forallb_forall in Hpre. auto.
    + destruct bad; try discriminate Hbad; reflexivity.
  - intros Hsrc Hpre. unfold parse_aggregated_insurance.
    assert (Hs : or_else (safe_get j ["data"; "insurance"])
                   (or_else (safe_get j ["data"; "insuranceData"]) (VList []))
                 = VList (pre ++ bad :: post)).
    { unfold insurance_source, or_else in *.
      destruct (truthy (safe_get j ["data"; "insurance"])); [exact Hsrc|].
      rewrite Hsrc. destruct pre; reflexivity. }
    rewrite Hs. cbn [is_dict iterate rbind].
    apply (mapM_raises _ (expected_insurance_row
             (header source country state district year quarter))).
    + apply Forall_forall. intros rec Hin. apply insurance_row_spec.
      rewrite forallb_forall in Hpre. auto.
    + destruct bad; try discriminate Hbad; reflexivity.
Qed.

(** ** What the fallback sum forgives *)






(** X9. The count of the instrument tagged TOTAL is converted outside any
    handler: one that [int] rejects ends the extraction with that
    exception. *)
Theorem total_with_bad_count_raises
  (hdr : row) (d t : list (string * value)) (pre post : list value) (e : exn)
  (Hinsts : get_default (VDict d) "paymentInstruments" (VList [])
            = Ok (VList (pre ++ VDict t :: post)))
  (Hpre : forallb plain_instrument pre = true)
  (Htotal : is_total (VDict t) = true)
  (Hblank : not_blank (dict_get t "count") = true)
  (Hbad : int (dict_get t "count") = Raise e) :
  transaction_row hdr (VDict d) = Raise e.
Proof.
  assert (Hfind : find_total (pre ++ VDict t :: post)
                  = Ok (dict_get t "count", dict_get t "amount")).
  { clear Hinsts. induction pre as [|inst pre IH].
    - unfold is_total in Htotal. cbn [field] in Htotal.
      cbn [app find_total get rbind]. now rewrite Htotal.
    - cbn [forallb] in Hpre. apply andb_prop in Hpre as [Hi Hall].
      unfold plain_instrument in Hi. apply andb_prop in Hi as [Hd Ht].
      destruct inst as [| | | | | |m]; try discriminate Hd.
      unfold is_total in Ht. cbn [field] in Ht. apply negb_true_iff in Ht.
      cbn [app find_total get rbind]. rewrite Ht. auto. }
  unfold transaction_row. cbn [get rbind]. rewrite Hinsts.
  cbn [rbind iterate]. rewrite Hfind. cbn [rbind fst snd].
  assert (Hn : is_none (dict_get t "count") = false)
    by (destruct (dict_get t "count"); try reflexivity; discriminate Hblank).
  rewrite Hn. unfold int_or_none. rewrite Hblank, Hbad. reflexivity.
Qed.

(** ** Entries that are no objects *)

Lemma flat_mapM_skip {A B} (f : A -> result (list B)) (pre post : list A) (bad : A) :
  f bad = Ok [] -> flat_mapM f (pre ++ bad :: post) = flat_mapM f (pre ++ post).
Proof.
  intro Hbad. induction pre as [|x pre IH]; cbn [app flat_mapM].
  - rewrite Hbad. cbn [rbind]. destruct (flat_mapM f post); reflexivity.
  - now rewrite IH.
Qed.

Lemma flat_mapM_length {A B} (f : A -> result (list B)) (w : A -> nat) :
  (forall a bs, f a = Ok bs -> List.length bs = w a) ->
  forall l bs, flat_mapM f l = Ok bs ->
               List.length bs = fold_right (fun a n => w a + n)%nat 0%nat l.
Proof.
  intros Hf. induction l as [|x l IH]; cbn [flat_mapM fold_right]; intros bs H.
  - now injection H as <-.
  - ok_inv. rewrite List.length_app. erewrite Hf, IH; eauto.
Qed.

Lemma count_objects_sum (items : list value) :
  fold_right (fun a n => (if is_dict a then 1 else 0) + n)%nat 0%nat items
  = count_objects items.
Proof.
  unfold count_objects. induction items as [|x items IH]; [reflexivity|].
  cbn [fold_right filter]. rewrite IH. destruct (is_dict x); reflexivity.
Qed.

Lemma map_transaction_hover_list (country state year quarter source : value)
  (items : list value) :
  parse_map_json (data_doc "hoverDataList" (VList items))
    "transaction" country state year quarter source
  = flat_mapM (map_transaction_item source country state year quarter) items.
Proof.
  transitivity (flat_mapM (map_transaction_item source country state year quarter)
                  (items ++ [])); [reflexivity | now rewrite app_nil_r].
Qed.

Lemma map_user_hover_data (country state year quarter source : value)
  (kv : string * value) (m : list (string * value)) :
  parse_map_json (data_doc "hoverData" (VDict (kv :: m)))
    "user" country state year quarter source
  = flat_mapM (map_user_item source country state year quarter) (kv :: m).
Proof. reflexivity. Qed.

Lemma map_insurance_hover_list (country state year quarter source : value)
  (items : list value) :
  parse_map_json (data_doc "hoverDataList" (VList items))
    "insurance" country state year quarter source
  = rbind (map_insurance_candidate source country state year quarter (VList items))
          (fun bs => Ok (bs ++ [])).
Proof. reflexivity. Qed.

(** X10. An entry that is not an object is skipped by the map extractor: the
    document with it and the document without it give the same result, for
    each of the three kinds. *)
Theorem map_skips_what_is_no_object
  (country state year quarter source : value)
  (pre post : list value) (bad : value)
  (mpre mpost : list (string * value)) (name : string)
  (Hbad : is_dict bad = false) :
  parse_map_json (data_doc "hoverDataList" (VList (pre ++ bad :: post)))
    "transaction" country state year quarter source
  = parse_map_json (data_doc "hoverDataList" (VList (pre ++ post)))
      "transaction" country state year quarter source
  /\ parse_map_json (data_doc "hoverData" (VDict (mpre ++ (name, bad) :: mpost)))
       "user" country state year quarter source
     = parse_map_json (data_doc "hoverData" (VDict (mpre ++ mpost)))
         "user" country state year quarter source
  /\ parse_map_json (data_doc "hoverDataList" (VList (pre ++ bad :: post)))
       "insurance" country state year quarter source
     = parse_map_json (data_doc "hoverDataList" (VList (pre ++ post)))
         "insurance" country state year quarter source.
Proof.
  split; [|split].
  - rewrite !map_transaction_hover_list.
    apply flat_mapM_skip. unfold map_transaction_item. now rewrite Hbad.
  - destruct mpre as [|kv mpre]; cbn [app].
    + rewrite map_user_hover_data. cbn [flat_mapM].
      unfold map_user_item at 1. rewrite Hbad. cbn [negb rbind].
      destruct mpost as [|kv mpost]; [reflexivity|].
      rewrite map_user_hover_data.
      destruct (flat_mapM _ (kv :: mpost)); reflexivity.
    + rewrite !map_user_hover_data.
      apply (flat_mapM_skip _ (kv :: mpre) mpost (name, bad)).
      unfold map_user_item. now rewrite Hbad.
  - rewrite !map_insurance_hover_list. unfold map_insurance_candidate.
    rewrite (flat_mapM_skip _ pre post bad); [reflexivity|].
    now rewrite Hbad.
Qed.

(** X11. A data payload that is truthy and is not a dict makes the user kind
    raise AttributeError, where the insurance kind returns no row and the
    transaction kind takes a list payload as the list of entries. *)
Theorem map_payload_that_is_no_dict
  (j country state year quarter source : value) (v : value)
  (Hdata : safe_get j ["data"] = v)
  (Htruthy : truthy v = true) (Hdict : is_dict v = false) :
  parse_map_json j "user" country state year quarter source = Raise AttributeError
  /\ parse_map_json j "insurance" country state year quarter source = Ok []
  /\ parse_map_json j "transaction" country state year quarter source
     = flat_mapM (map_transaction_item source country state year quarter)
         (match v with VList l => l | _ => [] end).
Proof.
  unfold parse_map_json. rewrite Hdata. unfold or_else. rewrite Htruthy.
  cbn [String.eqb Ascii.eqb Bool.eqb].
  destruct v as [| | | | |l|d]; try discriminate Hdict;
    (split; [reflexivity | split; [reflexivity|]]); try reflexivity.
  cbn [transaction_candidates List.concat]. now rewrite app_nil_r.
Qed.

Lemma flat_mapM_nothing {A B} (f : A -> result (list B)) :
  (forall a bs, f a = Ok bs -> bs = []) ->
  forall l bs, flat_mapM f l = Ok bs -> bs = [].
Proof.
  intros Hf. induction l as [|x l IH]; cbn [flat_mapM]; intros bs H.
  - now injection H as <-.
  - ok_inv. now rewrite (Hf _ _ Ha), (IH _ Ha0).
Qed.

(** X12. A kind other than transaction, user and insurance yields no row:
    [parse_map_json] returns the empty list, and [parse_top_json] returns it
    whenever it returns. *)
Theorem unknown_kind_yields_no_row
  (j country state year quarter source : value) (kind : string)
  (Hkind : ~ In kind kinds) :
  parse_map_json j kind country state year quarter source = Ok []
  /\ forall rows,
       parse_top_json j kind country state year quarter source = Ok rows ->
       rows = [].
Proof.
  assert (Ht : (kind =? "transaction")%string = false)
    by (apply String.eqb_neq; intros ->; apply Hkind; cbn; auto).
  assert (Hu : (kind =? "user")%string = false)
    by (apply String.eqb_neq; intros ->; apply Hkind; cbn; auto).
  assert (Hi : (kind =? "insurance")%string = false)
    by (apply String.eqb_neq; intros ->; apply Hkind; cbn; auto).
  split.
  - unfold parse_map_json. now rewrite Ht, Hu, Hi.
  - unfold parse_top_json. apply flat_mapM_nothing. intros item bs H.
    unfold top_item in H. rewrite Ht, Hu, Hi in H. ok_inv; reflexivity.
Qed.

(** ** The lists of a top document *)

Lemma find_lists_cons (k : string) (v : value) (d : list (string * value)) :
  find_lists (VDict ((k, v) :: d))
  = match v with
    | VList l => [l]
    | VDict _ => find_lists v
    | _ => []
    end ++ find_lists (VDict d).
Proof. reflexivity. Qed.

Lemma size_cons (k : string) (v : value) (d : list (string * value)) :
  size (VDict ((k, v) :: d)) = (size v + size (VDict d))%nat.
Proof. cbn [size]. lia. Qed.

Lemma size_positive (v : value) : (0 < size v)%nat.
Proof. destruct v; cbn [size]; lia. Qed.

Lemma held_list_cons (k : string) (v : value) (d : list (string * value))
  (l : list value) :
  held_list (VDict d) l -> held_list (VDict ((k, v) :: d)) l.
Proof.
  inversion 1; subst.
  - eapply held_here. right. eassumption.
  - eapply held_below; [right; eassumption | assumption].
Qed.

Lemma find_lists_sound_bounded (n : nat) :
  forall v, (size v <= n)%nat ->
  forall l, In l (find_lists v) -> held_list v l.
Proof.
  induction n as [|n IH]; intros v Hn l Hin.
  - pose proof (size_positive v). lia.
  - destruct v as [| | | | | |d]; try destruct Hin.
    induction d as [|[k x] d IHd]; [destruct Hin|].
    rewrite find_lists_cons in Hin. rewrite size_cons in Hn.
    pose proof (size_positive x). pose proof (size_positive (VDict d)).
    apply in_app_or in Hin as [Hx|Hd].
    + destruct x as [| | | | |lx|dx];
        try (now destruct Hx).
      * destruct Hx as [<-|[]]. eapply held_here. left. reflexivity.
      * eapply held_below; [left; reflexivity|].
        apply IH; [lia | exact Hx].
    + apply held_list_cons. apply IHd; [lia | exact Hd].
Qed.

Lemma find_lists_complete (v : value) (l : list value) :
  held_list v l -> In l (find_lists v).
Proof.
  induction 1 as [d k l Hin | d d' k l Hin _ IH].
  - induction d as [|[k' x] d IHd]; [destruct Hin|].
    rewrite find_lists_cons. apply in_or_app.
    destruct Hin as [Heq|Hin]; [|right; auto].
    injection Heq as -> ->. left. now left.
  - induction d as [|[k' x] d IHd]; [destruct Hin|].
    rewrite find_lists_cons. apply in_or_app.
    destruct Hin as [Heq|Hin]; [|right; auto].
    injection Heq as -> ->. left. exact IH.
Qed.

(** X13. [find_lists] finds exactly the lists held under a key of the payload
    or of a dict reached through dict values; it does not look inside
    lists. *)
Theorem find_lists_held (v : value) (l : list value) :
  In l (find_lists v) <-> held_list v l.
Proof.
  split; [apply (find_lists_sound_bounded (size v)); lia
         | apply find_lists_complete].
Qed.

Lemma top_item_length (kind : string) (source country state year quarter : value)
  (item : value) (bs : list row) :
  In kind kinds ->
  top_item kind source country state year quarter item = Ok bs ->
  List.length bs = if is_dict item then 1%nat else 0%nat.
Proof.
  intros Hk H. unfold top_item in H.
  destruct (is_dict item); cbn [negb] in H; [|now injection H as <-].
  ok_inv; try reflexivity. exfalso.
  repeat match goal with
    | E : (kind =? _)%string = false |- _ => apply String.eqb_neq in E
    end.
  cbn in Hk. intuition congruence.
Qed.

(** X14. For each of the three kinds, a top document that is extracted gives
    one row for every object in every list found, whatever the list is. *)
Theorem top_one_row_per_object
  (j country state year quarter source : value) (kind : string)
  (rows : list row)
  (Hkind : In kind kinds)
  (Hrows : parse_top_json j kind country state year quarter source = Ok rows) :
  List.length rows = count_objects (top_items (payload_of j)).
Proof.
  unfold parse_top_json in Hrows. unfold top_items, payload_of.
  rewrite <- count_objects_sum.
  apply (flat_mapM_length _ (fun a => if is_dict a then 1 else 0)%nat)
    with (2 := Hrows).
  intros a bs. now apply top_item_length.
Qed.

(** ** More on the context of a path *)

Lemma resolve_decoded (tail : list string) :
  exists x, resolve tail no_context = (Ok tt, decoded x).
Proof.
  destruct (4 <=? List.length tail)%nat eqn:Hlen.
  - destruct tail as [|first rest]; [discriminate Hlen|].
    rewrite (resolve_unfold _ _ _ Hlen). cbv zeta. eauto.
  - rewrite (resolve_short _ _ Hlen). eauto.
Qed.

(** X15. A path with fewer than four segments after the data segment resolves
    to nothing at all, whatever markers and numbers it holds. *)
Theorem short_path_has_no_context (p : string)
  (Hshort : (List.length (tail_of p) < 4)%nat) :
  parse_path_context p = Ok no_context.
Proof.
  apply parse_path_context_resolve.
  rewrite resolve_short; [reflexivity|].
  apply Nat.leb_gt. exact Hshort.
Qed.

(** X16. The state the resolver returns never contains [%20]. *)
Theorem resolved_state_is_decoded (p : string) (x : context) (s : string)
  (Hx : parse_path_context p = Ok x) (Hs : ctx_state x = Some s) :
  contains "%20" s = false.
Proof.
  unfold parse_path_context in Hx.
  destruct (resolve_decoded (tail_of p)) as [x' Hr]. rewrite Hr in Hx.
  injection Hx as <-. unfold decoded in Hs.
  destruct (ctx_state x') as [st|] eqn:Hst.
  - cbn in Hs. injection Hs as <-. apply decode_leaves_none.
  - congruence.
Qed.

Lemma country_source_step (tail : list string) (x : context) :
  country_source tail x -> country_source tail (snd (year_and_quarter tail x)).
Proof.
  destruct (year_and_quarter_cases tail x) as (oy & oq & -> & _).
  destruct oy, oq; exact (fun H => H).
Qed.

Lemma country_source_decoded (tail : list string) (x : context) :
  country_source tail x -> country_source tail (decoded x).
Proof. unfold decoded. destruct (ctx_state x); exact (fun H => H). Qed.

Lemma country_source_start (tail : list string) : country_source tail no_context.
Proof. intros c H. discriminate H. Qed.

Lemma resolve_country_source (tail : list string) :
  country_source tail (snd (resolve tail no_context)).
Proof.
  destruct (4 <=? List.length tail)%nat eqn:Hlen.
  2:{ rewrite (resolve_short _ _ Hlen).
      apply country_source_decoded, country_source_start. }
  destruct tail as [|first rest]; [discriminate Hlen|].
  rewrite (resolve_unfold _ _ _ Hlen). cbv zeta. cbn [snd].
  apply country_source_decoded.
  destruct (String.eqb_spec first "aggregated") as [->|Hne].
  - set (tail := "aggregated" :: rest).
    assert (H1 : country_source tail
        (if mem "country" tail
         then snd ((ci <- lift (index "country" tail) ;;
                    c <- lift (item tail (ci + 1)) ;;
                    modify (set_country c) ;;
                    year_and_quarter tail)%io no_context)
         else no_context)).
    { destruct (mem "country" tail); [|apply country_source_start].
      destruct (marker_branch_cases "country" set_country tail no_context)
        as [->|(i & s & Hi & Hs & ->)]; [apply country_source_start|].
      apply country_source_step. intros c Hc. injection Hc as <-.
      exists rest, i. auto. }
    destruct (mem "state" tail); [|exact H1].
    destruct (marker_branch_cases "state" set_state tail
                (if mem "country" tail
                 then snd ((ci <- lift (index "country" tail) ;;
                            c <- lift (item tail (ci + 1)) ;;
                            modify (set_country c) ;;
                            year_and_quarter tail)%io no_context)
                 else no_context))
      as [->|(i & s & _ & _ & ->)]; [exact H1|].
    apply country_source_step. exact H1.
  - assert (H1 : country_source (first :: rest)
        (if mem "country" (first :: rest) && mem "india" (first :: rest)
         then snd (year_and_quarter (first :: rest) no_context)
         else no_context)).
    { destruct (_ && _); [apply country_source_step|];
        apply country_source_start. }
    destruct (mem "state-wise" (first :: rest)); [|exact H1].
    unfold bind, lift, modify.
    destruct (index _ _) as [i|e]; [|exact H1].
    destruct (item _ _) as [s|e]; exact H1.
Qed.

(** X17. A country is returned only for an aggregated path, and it is the
    segment after the first country marker: a map or a top path never names
    a country. *)
Theorem country_only_from_aggregated_marker (p : string) (x : context) (c : string)
  (Hx : parse_path_context p = Ok x) (Hc : ctx_country x = Some c) :
  exists rest i,
    tail_of p = "aggregated" :: rest
    /\ index "country" (tail_of p) = Ok i
    /\ item (tail_of p) (i + 1) = Ok c.
Proof.
  pose proof (resolve_country_source (tail_of p)) as H.
  unfold parse_path_context in Hx.
  destruct (resolve (tail_of p) no_context) as [[[]|e] x']; [|discriminate Hx].
  injection Hx as <-. exact (H c Hc).
Qed.

Lemma marker_branch_found (m : string) (set : string -> context -> context)
  (tail : list string) (x : context) (i : nat) (s : string) :
  index m tail = Ok i -> item tail (i + 1) = Ok s ->
  snd ((i <- lift (index m tail) ;;
        s <- lift (item tail (i + 1)) ;;
        modify (set s) ;;
        year_and_quarter tail)%io x)
  = snd (year_and_quarter tail (set s x)).
Proof.
  intros Hi Hs. unfold bind, lift, modify. rewrite Hi, Hs.
  destruct (year_and_quarter tail (set s x)) as [[u|e] x']; reflexivity.
Qed.

(** X18. The layout of a state file of the aggregated category,
    aggregated/<kind>/country/india/state/<name>/<year>/<quarter>.json, with
    a numeric year and quarter of at most 4300 digits each: country, decoded
    state name, year and quarter are all returned. *)
Theorem aggregated_state_path_context
  (p kind s y q : string)
  (Htail : tail_of p
           = ["aggregated"; kind; "country"; "india"; "state"; s; y;
              (q ++ ".json")%string])
  (Hkind : In kind kinds)
  (Ny : numeric y = true) (Nq : numeric q = true) :
  parse_path_context p
  = Ok (Context (Some "india") (Some (replace "%20" " " s)) None
                (Some (decimal_value y)) (Some (decimal_value q))).
Proof.
  pose proof (numeric_decimal _ Nq) as Hq.
  apply parse_path_context_resolve. rewrite Htail.
  assert (Hyq : forall x,
    year_and_quarter
      ["aggregated"; kind; "country"; "india"; "state"; s; y; (q ++ ".json")%string] x
    = (Ok tt, set_quarter (decimal_value q) (set_year (decimal_value y) x))).
  { intro x.
    rewrite (year_and_quarter_regular _ y (q ++ ".json"));
      try reflexivity; [| now left | left; now rewrite stem_json].
    unfold read_int. rewrite stem_json, Ny, Nq by assumption. reflexivity. }
  rewrite resolve_unfold by reflexivity. cbv zeta.
  cbn [String.eqb Ascii.eqb Bool.eqb].
  assert (Hmc : mem "country"
            ["aggregated"; kind; "country"; "india"; "state"; s; y; (q ++ ".json")%string]
          = true).
  { unfold mem. cbn [existsb]. cbn in Hkind.
    destruct Hkind as [<-|[<-|[<-|[]]]]; reflexivity. }
  assert (Hms : mem "state"
            ["aggregated"; kind; "country"; "india"; "state"; s; y; (q ++ ".json")%string]
          = true).
  { unfold mem. cbn [existsb]. cbn in Hkind.
    destruct Hkind as [<-|[<-|[<-|[]]]]; reflexivity. }
  assert (Hic : index "country"
            ["aggregated"; kind; "country"; "india"; "state"; s; y; (q ++ ".json")%string]
          = Ok 2%nat).
  { cbn in Hkind. destruct Hkind as [<-|[<-|[<-|[]]]]; reflexivity. }
  assert (His : index "state"
            ["aggregated"; kind; "country"; "india"; "state"; s; y; (q ++ ".json")%string]
          = Ok 4%nat).
  { cbn in Hkind. destruct Hkind as [<-|[<-|[<-|[]]]]; reflexivity. }
  rewrite Hmc, Hms.
  rewrite (marker_branch_found "state" set_state _ _ 4 s His eq_refl), Hyq.
  rewrite (marker_branch_found "country" set_country _ _ 2 "india" Hic eq_refl), Hyq.
  reflexivity.
Qed.

(** X19. A map or a top path with no state-wise segment names neither a
    country nor a state: the [state] segment of
    .../country/india/state/<name>/... is not read. Its year and quarter are
    read only when both a country and an india segment occur; the year
    segment and the file stem are taken to be regular, that is numeric with
    at most 4300 digits, or no digit strings at all. *)
Theorem map_or_top_path_context
  (p first y l : string) (rest : list string)
  (Htail : tail_of p = first :: rest)
  (Hcat : first <> "aggregated")
  (Hlen : (4 <= List.length (tail_of p))%nat)
  (Hwise : mem "state-wise" (tail_of p) = false)
  (Hy : item_back (tail_of p) 2 = Ok y) (Hl : item_back (tail_of p) 1 = Ok l)
  (Ry : regular y) (Rq : regular (stem l)) :
  parse_path_context p
  = Ok (if mem "country" (tail_of p) && mem "india" (tail_of p)
        then Context None None None (read_int y) (read_int (stem l))
        else no_context).
Proof.
  apply parse_path_context_resolve. rewrite Htail in *.
  apply Nat.leb_le in Hlen. apply String.eqb_neq in Hcat.
  rewrite (resolve_unfold _ _ _ Hlen). cbv zeta. rewrite Hcat, Hwise.
  destruct (mem "country" (first :: rest) && mem "india" (first :: rest));
    [|reflexivity].
  rewrite (year_and_quarter_regular _ _ _ Hy Hl Ry Rq). cbn [snd].
  destruct (read_int y), (read_int (stem l)); reflexivity.
Qed.

(** ** What the row sink is handed *)

Section Batches.

Variable w : world.

(** X20. Every batch handed to the row sink is non-empty, and it is what the
    extractor of its table returned for one discovered file of the table's
    category: on the document the file was read as, with the context of the
    file's path. *)
Theorem every_batch_is_routed (table : string) (rows : list row)
  (Hev : In (ToSql table rows) (snd (process_and_load w []))) :
  rows <> [] /\ batch_of w table rows.
Proof.
  pose proof (process_and_load_linked w [] (Forall_nil _)) as Hs.
  rewrite Forall_forall in Hs. exact (Hs _ Hev).
Qed.

End Batches.

(** ** The columns of a row *)

Lemma batch_of_batch (w : world) (table : string) (rows : list row) :
  batch_of w table rows -> batch table rows.
Proof.
  intros (category & kind & p & j & x & Hc & Hk & _ & _ & _ & _ & -> & Hrows).
  cbn in Hc, Hk.
  destruct Hc as [<-|[<-|[<-|[]]]]; destruct Hk as [<-|[<-|[<-|[]]]];
    cbn in Hrows |- *; econstructor; exact Hrows.
Qed.

Lemma batch_fits (table : string) (rows : list row) :
  batch table rows -> Forall (fits table) rows.
Proof.
  destruct 1 as [j c s d y q src rows H | j c s d y q src rows H
                | j c s d y q src rows H | j c s y q src rows H
                | j c s y q src rows H | j c s y q src rows H
                | j c s y q src rows H | j c s y q src rows H
                | j c s y q src rows H].
  - unfold parse_aggregated_transaction in H. ok_inv.
    revert H. apply mapM_Forall. intros rec r Hr.
    unfold transaction_row in Hr. ok_inv. reflexivity.
  - unfold parse_aggregated_user in H.
    destruct (or_else _ _) as [| | | | | |m]; try (injection H as <-; constructor).
    destruct (existsb _ _).
    + ok_inv; (constructor; [reflexivity | constructor]).
    + destruct (dict_get m "usersByDevice") as [| | | | |[|rec rest]|];
        try (injection H as <-; constructor).
      ok_inv. constructor; [reflexivity | constructor].
  - unfold parse_aggregated_insurance in H. ok_inv.
    revert H. apply mapM_Forall. intros rec r Hr.
    unfold insurance_row in Hr. ok_inv. reflexivity.
  - unfold parse_map_json in H. cbn [String.eqb Ascii.eqb Bool.eqb] in H.
    revert H. apply flat_mapM_Forall. intros item rs Hi.
    unfold map_transaction_item in Hi. ok_inv; [constructor|].
    constructor; [reflexivity | constructor].
  - unfold parse_map_json in H. cbn [String.eqb Ascii.eqb Bool.eqb] in H.
    ok_inv. destruct a as [| | | | | |items]; try (injection H as <-; constructor).
    revert H. apply flat_mapM_Forall. intros [name metric] rs Hi.
    unfold map_user_item in Hi. ok_inv; [constructor|].
    constructor; [reflexivity | constructor].
  - unfold parse_map_json in H. cbn [String.eqb Ascii.eqb Bool.eqb] in H.
    revert H. apply flat_mapM_Forall. intros cand rs Hc.
    unfold map_insurance_candidate in Hc.
    destruct cand as [| | | | |items|m]; try (injection Hc as <-; constructor).
    + revert Hc. apply flat_mapM_Forall. intros item rs' Hi.
      ok_inv; [constructor|]. unfold map_insurance_metric in Ha0. ok_inv.
      constructor; [reflexivity | constructor].
    + revert Hc. apply flat_mapM_Forall. intros kv rs' Hi.
      ok_inv; [constructor|]. unfold map_insurance_metric in Ha. ok_inv.
      constructor; [reflexivity | constructor].
  - unfold parse_top_json in H. revert H. apply flat_mapM_Forall.
    intros item rs Hi. unfold top_item in Hi.
    cbn [String.eqb Ascii.eqb Bool.eqb] in Hi.
    ok_inv; try constructor; try reflexivity; constructor.
  - unfold parse_top_json in H. revert H. apply flat_mapM_Forall.
    intros item rs Hi. unfold top_item in Hi.
    cbn [String.eqb Ascii.eqb Bool.eqb] in Hi.
    ok_inv; try constructor; try reflexivity; constructor.
  - unfold parse_top_json in H. revert H. apply flat_mapM_Forall.
    intros item rs Hi. unfold top_item in Hi.
    cbn [String.eqb Ascii.eqb Bool.eqb] in Hi.
    ok_inv; try constructor; try reflexivity; constructor.
Qed.

(** X21. Every row handed to the row sink supplies exactly the columns its
    table declares, the generated id apart, in the table's order. *)
Theorem every_row_fits_its_table
  (w : world) (table : string) (rows : list row) (r : row)
  (Hev : In (ToSql table rows) (snd (process_and_load w [])))
  (Hr : In r rows) :
  lookup table DDLS = Some ("id" :: map fst r).
Proof.
  pose proof (process_and_load_linked w [] (Forall_nil _)) as Hs.
  rewrite Forall_forall in Hs. destruct (Hs _ Hev) as [_ Hb].
  pose proof (batch_fits table rows (batch_of_batch w table rows Hb)) as Hf.
  rewrite Forall_forall in Hf. exact (Hf r Hr).
Qed.

(** ** The accounts of a run *)

Lemma rows_written_app (t1 t2 : trace) :
  rows_written (t1 ++ t2) = (rows_written t1 + rows_written t2)%nat.
Proof.
  unfold rows_written. induction t1 as [|ev t1 IH]; [reflexivity|].
  cbn [app fold_right]. rewrite IH. destruct ev; lia.
Qed.

Lemma opened_first_app (t1 t2 : trace) :
  opened_first (t1 ++ t2) = opened_first t1 ++ opened_first t2.
Proof. unfold opened_first. apply flat_map_app. Qed.

Section Accounts.

Variable w : world.

Lemma load_json_rows (p : string) (t : trace) :
  rows_written (snd (load_json w p t)) = rows_written t.
Proof.
  unfold load_json, try_except, bind, emit, modify, lift.
  destruct (read_json w p Utf8); cbn [snd].
  - rewrite rows_written_app. cbn. lia.
  - destruct (read_json w p Latin1); cbn [snd];
      rewrite !rows_written_app; cbn; lia.
Qed.

Lemma insert_rows (rows : result (list row)) (table : string)
  (total n : nat) (t t' : trace) :
  insert w rows table total t = (Ok n, t') ->
  (n + rows_written t = total + rows_written t')%nat.
Proof.
  unfold insert, bind, lift.
  destruct rows as [df|e]; [|discriminate].
  destruct df as [|r df]; [intro H; injection H as <- <-; lia|].
  unfold bulk_insert, bind, emit, modify, ret, throw.
  destruct (to_sql w table (r :: df)); [|discriminate].
  intro H. injection H as <- <-. rewrite rows_written_app. cbn. lia.
Qed.

Lemma body_rows (body : nat -> string -> M trace nat) :
  In body (bodies w) ->
  forall total p t n t',
    body total p t = (Ok n, t') ->
    (n + rows_written t = total + rows_written t')%nat.
Proof.
  intros Hb total p t n t'.
  pose proof (load_json_rows p t) as Hl.
  destruct (parse_path_context_total p) as [x Hx].
  destruct Hb as [<-|[<-|[<-|[]]]];
    unfold aggregated_file, map_file, top_file; unfold bind at 1;
    (destruct (load_json w p t) as [[j|e] t1]; [|discriminate]);
    unfold bind at 1; unfold lift at 1; rewrite Hx; cbn [snd] in Hl;
    repeat match goal with
      | |- context [if contains ?a ?b then _ else _] => destruct (contains a b)
      end;
    intro H;
    first [ apply insert_rows in H; lia
          | injection H as <- <-; lia ].
Qed.

Lemma for_files_rows (body : nat -> string -> M trace nat) :
  In body (bodies w) ->
  forall files total t n t',
    for_files body files total t = (Ok n, t') ->
    (n + rows_written t = total + rows_written t')%nat.
Proof.
  intros Hb. induction files as [|p files IH]; intros total t n t' H.
  - injection H as <- <-. lia.
  - cbn [for_files] in H. unfold bind in H.
    destruct (body total p t) as [[m|e] t1] eqn:Hp; [|discriminate].
    apply (body_rows body Hb) in Hp. apply IH in H. lia.
Qed.

Lemma process_and_load_rows (t : trace) (n : nat) (t' : trace) :
  process_and_load w t = (Ok n, t') ->
  (n + rows_written t = rows_written t')%nat.
Proof.
  intro Hrun.
  unfold process_and_load in Hrun. unfold bind at 1 in Hrun.
  destruct (for_files (aggregated_file w) _ _ _) as [[n1|e1] t1] eqn:E1;
    [|discriminate].
  unfold bind at 1 in Hrun.
  destruct (for_files (map_file w) _ _ _) as [[n2|e2] t2] eqn:E2;
    [|discriminate].
  unfold bind at 1 in Hrun.
  destruct (for_files (top_file w) _ _ _) as [[n3|e3] t3] eqn:E3;
    [|discriminate].
  unfold bind, emit, modify, ret in Hrun. injection Hrun as <- <-.
  apply (for_files_rows _ ltac:(now left)) in E1.
  apply (for_files_rows _ ltac:(right; now left)) in E2.
  apply (for_files_rows _ ltac:(right; right; now left)) in E3.
  rewrite rows_written_app. cbn in *. lia.
Qed.

(** X22. The total a completed run returns is the number of rows it handed to
    the row sink. *)
Theorem total_is_rows_written (n : nat) (t : trace)
  (Hrun : process_and_load w [] = (Ok n, t)) :
  n = rows_written t.
Proof. apply process_and_load_rows in Hrun. cbn in Hrun. lia. Qed.

End Accounts.

(** ** When the sink fails *)

Section Failures.

Variable w : world.

Lemma no_error_snoc (t : trace) (ev : event) :
  no_error t -> ev <> Logged "ERROR" -> no_error (t ++ [ev]).
Proof.
  intros Ht Hev Hin. apply in_app_or in Hin as [Hin|[Hin|[]]]; auto.
Qed.

Lemma load_json_outcome (p : string) (t : trace) :
  no_error t -> no_error (snd (load_json w p t)).
Proof.
  intro Ht. unfold load_json, try_except, bind, emit, modify, lift.
  destruct (read_json w p Utf8); cbn [snd].
  - apply no_error_snoc; [assumption | discriminate].
  - destruct (read_json w p Latin1); cbn [snd];
      repeat apply no_error_snoc; auto; discriminate.
Qed.

Lemma insert_outcome (rows : result (list row)) (table : string)
  (total : nat) (t : trace) :
  no_error t -> outcome_ok w (insert w rows table total t).
Proof.
  intro Ht. unfold insert, bind, lift, outcome_ok.
  destruct rows as [df|e]; [|now left].
  destruct df as [|r df]; [exact Ht|].
  unfold bulk_insert, bind, emit, modify, ret, throw.
  destruct (to_sql w table (r :: df)) as [u|e] eqn:Hsql; cbn [fst snd].
  - apply no_error_snoc; [assumption | discriminate].
  - right. exists t, table, (r :: df). split; [|exact Hsql].
    now rewrite <- app_assoc.
Qed.

Lemma body_outcome (body : nat -> string -> M trace nat) :
  In body (bodies w) ->
  forall total p t, no_error t -> outcome_ok w (body total p t).
Proof.
  intros Hb total p t Ht.
  pose proof (load_json_outcome p t Ht) as Hl.
  destruct (parse_path_context_total p) as [x Hx].
  destruct Hb as [<-|[<-|[<-|[]]]];
    unfold aggregated_file, map_file, top_file; unfold bind at 1;
    (destruct (load_json w p t) as [[j|e] t1]; [|now left]);
    unfold bind at 1; unfold lift at 1; rewrite Hx; cbn [snd] in Hl;
    repeat match goal with
      | |- context [if contains ?a ?b then _ else _] => destruct (contains a b)
      end;
    first [ now apply insert_outcome | exact Hl ].
Qed.

Lemma for_files_outcome (body : nat -> string -> M trace nat) :
  In body (bodies w) ->
  forall files total t, no_error t -> outcome_ok w (for_files body files total t).
Proof.
  intros Hb. induction files as [|p files IH]; intros total t Ht; [exact Ht|].
  cbn [for_files]. unfold bind.
  pose proof (body_outcome body Hb total p t Ht) as Hp.
  destruct (body total p t) as [[n|e] t1]; [apply IH; exact Hp | exact Hp].
Qed.

Lemma process_and_load_outcome : outcome_ok w (process_and_load w []).
Proof.
  unfold process_and_load.
  pose proof (for_files_outcome (aggregated_file w) ltac:(now left)
                (discovered w "aggregated") 0%nat [] (fun H => H)) as H1.
  unfold bind at 1.
  destruct (for_files (aggregated_file w) _ _ _) as [[n1|e1] t1]; [|exact H1].
  pose proof (for_files_outcome (map_file w) ltac:(right; now left)
                (discovered w "map") n1 t1 H1) as H2.
  unfold bind at 1.
  destruct (for_files (map_file w) _ _ t1) as [[n2|e2] t2]; [|exact H2].
  pose proof (for_files_outcome (top_file w) ltac:(right; right; now left)
                (discovered w "top") n2 t2 H2) as H3.
  unfold bind at 1.
  destruct (for_files (top_file w) _ _ t2) as [[n3|e3] t3]; [|exact H3].
  unfold bind, emit, modify, ret, outcome_ok. cbn [fst snd].
  apply no_error_snoc; [exact H3 | discriminate].
Qed.

(** X23. A run logs an error only when the row sink refused a batch; that
    batch and the ERROR line are the last things the run does, and it ends
    with the very exception the sink raised. *)
Theorem sink_failure_ends_the_run (res : result nat) (t : trace)
  (Hrun : process_and_load w [] = (res, t))
  (Herr : In (Logged "ERROR") t) :
  exists t0 table rows e,
    t = t0 ++ [ToSql table rows; Logged "ERROR"]
    /\ to_sql w table rows = Raise e
    /\ res = Raise e.
Proof.
  pose proof process_and_load_outcome as H. rewrite Hrun in H.
  unfold outcome_ok in H. cbn [fst snd] in H.
  destruct res as [n|e]; [now elim H|].
  destruct H as [H|(t0 & table & rows & Ht & Hsql)]; [now elim H|].
  exists t0, table, rows, e. auto.
Qed.

End Failures.

(** ** The order of the files *)

Section Order.

Variable w : world.

Lemma load_json_opened (p : string) (t : trace) :
  opened_first (snd (load_json w p t)) = opened_first t ++ [p].
Proof.
  unfold load_json, try_except, bind, emit, modify, lift.
  destruct (read_json w p Utf8); cbn [snd].
  - now rewrite opened_first_app.
  - destruct (read_json w p Latin1); cbn [snd];
      rewrite !opened_first_app; cbn; now rewrite app_nil_r.
Qed.

Lemma insert_opened (rows : result (list row)) (table : string)
  (total : nat) (t : trace) :
  opened_first (snd (insert w rows table total t)) = opened_first t.
Proof.
  unfold insert, bind, lift.
  destruct rows as [df|e]; [|reflexivity].
  destruct df as [|r df]; [reflexivity|].
  unfold bulk_insert, bind, emit, modify, ret, throw.
  destruct (to_sql w table (r :: df)); cbn [snd];
    rewrite !opened_first_app; cbn; now rewrite ?app_nil_r.
Qed.

Lemma body_opened (body : nat -> string -> M trace nat) :
  In body (bodies w) ->
  forall total p t,
    opened_first (snd (body total p t)) = opened_first t ++ [p].
Proof.
  intros Hb total p t.
  pose proof (load_json_opened p t) as Hl.
  destruct (parse_path_context_total p) as [x Hx].
  destruct Hb as [<-|[<-|[<-|[]]]];
    unfold aggregated_file, map_file, top_file; unfold bind at 1;
    (destruct (load_json w p t) as [[j|e] t1]; [|exact Hl]);
    unfold bind at 1; unfold lift at 1; rewrite Hx; cbn [snd] in Hl;
    repeat match goal with
      | |- context [if contains ?a ?b then _ else _] => destruct (contains a b)
      end;
    rewrite ?insert_opened; exact Hl.
Qed.

Lemma for_files_opened (body : nat -> string -> M trace nat) :
  In body (bodies w) ->
  forall files total t n t',
    for_files body files total t = (Ok n, t') ->
    opened_first t' = opened_first t ++ files.
Proof.
  intros Hb. induction files as [|p files IH]; intros total t n t' H.
  - injection H as <- <-. now rewrite app_nil_r.
  - cbn [for_files] in H. unfold bind in H.
    pose proof (body_opened body Hb total p t) as Hp.
    destruct (body total p t) as [[m|e] t1]; [|discriminate].
    cbn [snd] in Hp. apply IH in H. rewrite H, Hp, <- app_assoc. reflexivity.
Qed.

Lemma process_and_load_opened (t : trace) (n : nat) (t' : trace) :
  process_and_load w t = (Ok n, t') ->
  opened_first t'
  = opened_first t
    ++ discovered w "aggregated" ++ discovered w "map" ++ discovered w "top".
Proof.
  intro Hrun.
  unfold process_and_load in Hrun. unfold bind at 1 in Hrun.
  destruct (for_files (aggregated_file w) _ _ _) as [[n1|e1] t1] eqn:E1;
    [|discriminate].
  unfold bind at 1 in Hrun.
  destruct (for_files (map_file w) _ _ _) as [[n2|e2] t2] eqn:E2;
    [|discriminate].
  unfold bind at 1 in Hrun.
  destruct (for_files (top_file w) _ _ _) as [[n3|e3] t3] eqn:E3;
    [|discriminate].
  unfold bind, emit, modify, ret in Hrun. injection Hrun as <- <-.
  apply (for_files_opened _ ltac:(now left)) in E1.
  apply (for_files_opened _ ltac:(right; now left)) in E2.
  apply (for_files_opened _ ltac:(right; right; now left)) in E3.
  rewrite opened_first_app, E3, E2, E1. cbn.
  now rewrite app_nil_r, <- !app_assoc.
Qed.

(** X24. A completed run has opened every discovered file as utf-8 exactly
    once, in the order of the lists: the aggregated files, then the map
    files, then the top files. *)
Theorem files_are_opened_in_order (n : nat) (t : trace)
  (Hrun : process_and_load w [] = (Ok n, t)) :
  opened_first t
  = discovered w "aggregated" ++ discovered w "map" ++ discovered w "top".
Proof. exact (process_and_load_opened [] n t Hrun). Qed.

(** X25. A file whose path holds the marker of no table is read, and its path
    resolved, but nothing is written for it and the total stays as it
    was. *)
Theorem unrouted_file_writes_nothing (p : string) (j : value)
  (Hread : read_json w p Utf8 = Ok j)
  (Hroute : forall category kind,
      In category categories -> In kind kinds ->
      contains (route_marker category kind) (replace "\" "/" p) = false) :
  forall body, In body (bodies w) ->
  forall total t, body total p t = (Ok total, t ++ [Opened p Utf8]).
Proof.
  intros body Hb total t.
  assert (Hl : load_json w p t = (Ok j, t ++ [Opened p Utf8])).
  { unfold load_json, try_except, bind, emit, modify, lift. now rewrite Hread. }
  destruct (parse_path_context_total p) as [x Hx].
  assert (Hr : forall c k, In c categories -> In k kinds ->
             contains (route_marker c k) (replace "\" "/" p) = false)
    by exact Hroute.
  destruct Hb as [<-|[<-|[<-|[]]]];
    unfold aggregated_file, map_file, top_file; unfold bind at 1;
    rewrite Hl; unfold bind at 1; unfold lift at 1; rewrite Hx.
  - pose proof (Hr "aggregated" "transaction") as H1.
    pose proof (Hr "aggregated" "user") as H2.
    pose proof (Hr "aggregated" "insurance") as H3.
    unfold route_marker in H1, H2, H3. cbn [append] in H1, H2, H3.
    rewrite H1, H2, H3; cbn; auto 10.
  - pose proof (Hr "map" "transaction") as H1.
    pose proof (Hr "map" "user") as H2.
    pose proof (Hr "map" "insurance") as H3.
    unfold route_marker in H1, H2, H3. cbn [append] in H1, H2, H3.
    rewrite H1, H2, H3; cbn; auto 10.
  - pose proof (Hr "top" "transaction") as H1.
    pose proof (Hr "top" "user") as H2.
    pose proof (Hr "top" "insurance") as H3.
    unfold route_marker in H1, H2, H3. cbn [append] in H1, H2, H3.
    rewrite H1, H2, H3; cbn; auto 10.
Qed.

End Order.

(** ** The discovery of the files *)

Lemma ascii_compare_lt_trans (a b c : ascii) :
  Ascii.compare a b = Lt -> Ascii.compare b c = Lt -> Ascii.compare a c = Lt.
Proof.
  unfold Ascii.compare. rewrite !N.compare_lt_iff. apply N.lt_trans.
Qed.

Lemma string_compare_trans (s1 : string) :
  forall s2 s3,
    String.compare s1 s2 <> Gt -> String.compare s2 s3 <> Gt ->
    String.compare s1 s3 <> Gt.
Proof.
  induction s1 as [|a s1 IH]; intros [|b s2] [|c s3]; cbn [String.compare];
    try congruence.
  destruct (Ascii.compare a b) eqn:Hab; try congruence;
    destruct (Ascii.compare b c) eqn:Hbc; try congruence; intros H12 H23.
  - apply Ascii.compare_eq_iff in Hab, Hbc. subst.
    assert (Hcc : Ascii.compare c c = Eq)
      by (unfold Ascii.compare; apply N.compare_refl).
    rewrite Hcc. eauto.
  - apply Ascii.compare_eq_iff in Hab. subst. now rewrite Hbc.
  - apply Ascii.compare_eq_iff in Hbc. subst. now rewrite Hab.
  - now rewrite (ascii_compare_lt_trans _ _ _ Hab Hbc).
Qed.

Lemma leb_path_trans : Transitive leb_path.
Proof.
  intros s1 s2 s3. unfold leb_path, String.leb. intros H12 H23.
  pose proof (string_compare_trans s1 s2 s3) as H.
  destruct (String.compare s1 s2); try discriminate H12;
    destruct (String.compare s2 s3); try discriminate H23;
    destruct (String.compare s1 s3); try reflexivity;
    exfalso; apply H; congruence.
Qed.

Lemma sort_sorted (l : list string) : StronglySorted leb_path (sort l).
Proof. apply PathSort.StronglySorted_sort. exact leb_path_trans. Qed.

Lemma sort_permutation (l : list string) : Permutation l (sort l).
Proof. apply PathSort.Permuted_sort. Qed.

(** Two sorted lists with the same elements are the same list. *)
Lemma sorted_unique (l1 : list string) :
  forall l2, StronglySorted leb_path l1 -> StronglySorted leb_path l2 ->
             Permutation l1 l2 -> l1 = l2.
Proof.
  induction l1 as [|x l1 IH]; intros l2 H1 H2 Hp.
  - apply Permutation_nil in Hp. now subst.
  - destruct l2 as [|y l2];
      [apply Permutation_sym, Permutation_nil in Hp; discriminate|].
    apply StronglySorted_inv in H1 as [H1 Hx].
    apply StronglySorted_inv in H2 as [H2 Hy].
    rewrite Forall_forall in Hx, Hy.
    assert (Hxy : x = y).
    { assert (Hin_y : In y (x :: l1))
        by (apply (Permutation_in _ (Permutation_sym Hp)); now left).
      assert (Hin_x : In x (y :: l2))
        by (apply (Permutation_in _ Hp); now left).
      destruct Hin_y as [->|Hin_y]; [reflexivity|].
      destruct Hin_x as [->|Hin_x]; [reflexivity|].
      apply String.leb_antisym; [apply Hx | apply Hy]; assumption. }
    subst y. f_equal. apply IH; auto.
    now apply Permutation_cons_inv in Hp.
Qed.

Lemma category_files_spec (fs : tree) (c : string) (t : trace) :
  category_files fs c t
  = (listing fs c, t ++ if is_missing fs c then [Logged "WARNING"] else []).
Proof.
  unfold category_files, listing, is_missing, bind, lift, emit, modify, ret.
  destruct (exists_dir fs c) as [[|]|e]; cbn [rbind]; rewrite ?app_nil_r;
    reflexivity.
Qed.

Lemma for_categories_ok (fs : tree) (cats : list string) :
  (forall c, In c cats -> exists l, listing fs c = Ok l) ->
  forall t,
    for_categories fs cats t
    = (Ok (map (fun c => (c, found fs c)) cats),
       t ++ map (fun _ => Logged "WARNING") (filter (is_missing fs) cats)).
Proof.
  induction cats as [|c cats IH]; intros Hok t.
  - cbn. now rewrite app_nil_r.
  - cbn [for_categories map filter]. unfold bind at 1.
    rewrite category_files_spec. unfold found.
    destruct (Hok c (or_introl eq_refl)) as [l Hl]. rewrite Hl.
    unfold bind at 1. rewrite IH by (intros; apply Hok; now right).
    unfold ret. f_equal.
    destruct (is_missing fs c); cbn [map]; now rewrite <- app_assoc.
Qed.

(** The first category that cannot be examined ends the discovery. *)
Lemma for_categories_raise (fs : tree) (pre : list string) :
  forall (c : string) (post : list string) (e : exn),
    (forall c', In c' pre -> exists l, listing fs c' = Ok l) ->
    listing fs c = Raise e ->
    forall t, fst (for_categories fs (pre ++ c :: post) t) = Raise e.
Proof.
  induction pre as [|c' pre IH]; intros c post e Hok He t.
  - cbn [app for_categories]. unfold bind at 1.
    rewrite category_files_spec, He. reflexivity.
  - cbn [app for_categories]. unfold bind at 1. rewrite category_files_spec.
    destruct (Hok c' (or_introl eq_refl)) as [l Hl]. rewrite Hl.
    unfold bind at 1.
    pose proof (IH c post e (fun a Ha => Hok a (or_intror Ha)) He
                  (t ++ (if is_missing fs c' then [Logged "WARNING"] else [])))
      as Hr.
    destruct (for_categories fs (pre ++ c :: post) _) as [[r|e'] t'];
      cbn [fst] in Hr; [discriminate Hr | exact Hr].
Qed.

Lemma discover_json_files_spec (fs : tree) (t : trace) :
  (forall c, In c categories -> exists l, listing fs c = Ok l) ->
  discover_json_files fs t
  = (Ok [("aggregated", sort (found fs "aggregated"));
         ("map", sort (found fs "map"));
         ("top", sort (found fs "top"))],
     t ++ map (fun _ => Logged "WARNING") (missing fs) ++ [Logged "INFO"]).
Proof.
  intro Hok. unfold discover_json_files. unfold bind at 1.
  rewrite (for_categories_ok fs _ Hok).
  unfold bind, emit, modify, ret. cbn [map fst snd].
  now rewrite <- app_assoc.
Qed.

Lemma discover_json_files_raise (fs : tree) (pre post : list string)
  (c : string) (e : exn) (t : trace) :
  categories = pre ++ c :: post ->
  (forall c', In c' pre -> exists l, listing fs c' = Ok l) ->
  listing fs c = Raise e ->
  fst (discover_json_files fs t) = Raise e.
Proof.
  intros Hc Hok He. unfold discover_json_files. unfold bind at 1.
  change ["aggregated"; "map"; "top"] with categories. rewrite Hc.
  pose proof (for_categories_raise fs pre c post e Hok He t) as Hr.
  destruct (for_categories fs (pre ++ c :: post) t) as [[r|e'] t'];
    cbn [fst] in Hr; [discriminate Hr | now rewrite Hr].
Qed.

(** A discovery that returns has examined every category. *)
Lemma discovery_returns (fs : tree) (t t' : trace)
  (files : list (string * list string)) :
  discover_json_files fs t = (Ok files, t') ->
  forall c, In c categories -> exists l, listing fs c = Ok l.
Proof.
  intros Hrun.
  assert (Hfst : forall e, fst (discover_json_files fs t) <> Raise e)
    by (rewrite Hrun; discriminate).
  destruct (listing fs "aggregated") as [l1|e1] eqn:H1.
  2:{ exfalso. apply (Hfst e1).
      apply (discover_json_files_raise fs [] ["map"; "top"] "aggregated");
        [reflexivity | intros ? [] | exact H1]. }
  destruct (listing fs "map") as [l2|e2] eqn:H2.
  2:{ exfalso. apply (Hfst e2).
      apply (discover_json_files_raise fs ["aggregated"] ["top"] "map");
        [reflexivity | intros ? [<-|[]]; eauto | exact H2]. }
  destruct (listing fs "top") as [l3|e3] eqn:H3.
  2:{ exfalso. apply (Hfst e3).
      apply (discover_json_files_raise fs ["aggregated"; "map"] [] "top");
        [reflexivity | intros ? [<-|[<-|[]]]; eauto | exact H3]. }
  intros c [<-|[<-|[<-|[]]]]; eauto.
Qed.

(** X26. When each of the three category folders can be examined, discovery
    returns, for each category, the files found under it, each once, in
    ascending order of their paths; a folder that does not exist gives the
    empty list and one warning, and is no error. The first folder that
    cannot be examined ends the discovery with the exception it raised. *)
Theorem discovery_is_sorted (fs : tree) (t : trace) :
  ((forall category, In category categories ->
      exists l, listing fs category = Ok l) ->
   exists files,
     discover_json_files fs t
     = (Ok files,
        t ++ map (fun _ => Logged "WARNING") (missing fs) ++ [Logged "INFO"])
     /\ map fst files = categories
     /\ forall category, In category categories ->
          StronglySorted leb_path (files_get files category)
          /\ Permutation (found fs category) (files_get files category))
  /\ (forall pre category post e,
        categories = pre ++ category :: post ->
        (forall c, In c pre -> exists l, listing fs c = Ok l) ->
        listing fs category = Raise e ->
        fst (discover_json_files fs t) = Raise e).
Proof.
  split.
  - intro Hok. eexists. split; [apply (discover_json_files_spec fs t Hok)|].
    split; [reflexivity|].
    intros c [<-|[<-|[<-|[]]]]; cbn; auto using sort_sorted, sort_permutation.
  - intros pre category post e. apply discover_json_files_raise.
Qed.

Lemma sort_same (l1 l2 : list string) : Permutation l1 l2 -> sort l1 = sort l2.
Proof.
  intro Hp. apply sorted_unique; try apply sort_sorted.
  eapply Permutation_trans; [apply Permutation_sym, sort_permutation|].
  eapply Permutation_trans; [exact Hp | apply sort_permutation].
Qed.

(** X27. The lists do not depend on the order in which the file system lists
    the files: two trees that hold the same files, or cannot be examined for
    the same reason, give the same result. *)
Theorem discovery_is_canonical (fs1 fs2 : tree) (t1 t2 : trace)
  (Hsame : forall category, In category categories ->
             same_files (listing fs1 category) (listing fs2 category)) :
  fst (discover_json_files fs1 t1) = fst (discover_json_files fs2 t2).
Proof.
  pose proof (Hsame "aggregated" ltac:(cbn; auto)) as Ha.
  pose proof (Hsame "map" ltac:(cbn; auto)) as Hm.
  pose proof (Hsame "top" ltac:(cbn; auto)) as Ht.
  unfold same_files in Ha, Hm, Ht.
  destruct (listing fs1 "aggregated") as [a1|e1] eqn:A1,
           (listing fs2 "aggregated") as [a2|e2] eqn:A2; try contradiction.
  2:{ subst e2.
      rewrite (discover_json_files_raise fs1 [] ["map"; "top"] "aggregated" e1 t1),
              (discover_json_files_raise fs2 [] ["map"; "top"] "aggregated" e1 t2);
        try reflexivity; try assumption; intros ? []. }
  destruct (listing fs1 "map") as [m1|e1] eqn:M1,
           (listing fs2 "map") as [m2|e2] eqn:M2; try contradiction.
  2:{ subst e2.
      rewrite (discover_json_files_raise fs1 ["aggregated"] ["top"] "map" e1 t1),
              (discover_json_files_raise fs2 ["aggregated"] ["top"] "map" e1 t2);
        try reflexivity; try assumption; intros ? [<-|[]]; eauto. }
  destruct (listing fs1 "top") as [p1|e1] eqn:T1,
           (listing fs2 "top") as [p2|e2] eqn:T2; try contradiction.
  2:{ subst e2.
      rewrite (discover_json_files_raise fs1 ["aggregated"; "map"] [] "top" e1 t1),
              (discover_json_files_raise fs2 ["aggregated"; "map"] [] "top" e1 t2);
        try reflexivity; try assumption; intros ? [<-|[<-|[]]]; eauto. }
  rewrite !discover_json_files_spec
    by (intros c [<-|[<-|[<-|[]]]]; eauto).
  cbn [fst]. unfold found. rewrite A1, A2, M1, M2, T1, T2.
  now rewrite (sort_same _ _ Ha), (sort_same _ _ Hm), (sort_same _ _ Ht).
Qed.

(** ** The whole load *)

Lemma discovery_log_is_silent (fs : tree) :
  opened_first (map (fun _ : string => Logged "WARNING") (missing fs)
                ++ [Logged "INFO"]) = []
  /\ rows_written (map (fun _ : string => Logged "WARNING") (missing fs)
                   ++ [Logged "INFO"]) = 0%nat.
Proof.
  rewrite opened_first_app, rows_written_app.
  induction (missing fs) as [|c l [IH1 IH2]]; split; auto.
Qed.

(** X28. A completed load, discovery included, opens the files of the
    aggregated, the map and the top category in that order and, within a
    category, in ascending order of their paths, each file once; and it
    returns the number of rows it handed to the row sink. *)
Theorem load_opens_files_in_sorted_order
  (fs : tree) (read : string -> encoding -> result value)
  (sql : string -> list row -> result unit) (n : nat) (t : trace)
  (Hrun : discover_and_load fs read sql [] = (Ok n, t)) :
  opened_first t
  = sort (found fs "aggregated") ++ sort (found fs "map") ++ sort (found fs "top")
  /\ n = rows_written t.
Proof.
  unfold discover_and_load, bind in Hrun.
  destruct (discover_json_files fs []) as [[files|e] t0] eqn:Hd;
    [|discriminate Hrun].
  rewrite (discover_json_files_spec fs [] (discovery_returns fs [] t0 files Hd))
    in Hd.
  injection Hd as <- <-. cbn [app] in Hrun.
  destruct (discovery_log_is_silent fs) as [Ho Hr].
  split.
  - apply process_and_load_opened in Hrun. rewrite Hrun, Ho. reflexivity.
  - apply process_and_load_rows in Hrun. rewrite Hr in Hrun. lia.
Qed.

(** ** Further sample runs *)

Lemma stored_list_is_found :
  safe_get (nested ["data"; "transactionData"] (VList [VInt 1]))
    ["data"; "transactionData"] = VList [VInt 1].
Proof. apply safe_get_nested. discriminate. Defined.

Lemma missing_key_gives_null :
  safe_get doc_summary (["data"] ++ "usersByDevice" :: ["brand"]) = VNone.
Proof. apply safe_get_missing. reflexivity. Defined.


Lemma single_policy_object :
  parse_aggregated_insurance doc_policy
    (VStr "india") VNone VNone (VInt 2022) (VInt 1) (VStr "1.json")
  = Ok [sample_header ++ [("insurance_type", VStr "Insurance");
                          ("total_policies", VInt 3);
                          ("total_premium", VFloat (dec 1005 (-1)))]].
Proof.
  apply (aggregated_insurance_rows doc_policy _ _ _ _ _ _ [policy]); reflexivity.
Defined.

Lemma number_among_transactions_raises :
  parse_aggregated_transaction
    (VDict [("data", VDict [("transactionData", VList [VInt 7])])])
    (VStr "india") VNone VNone (VInt 2022) (VInt 1) (VStr "1.json")
  = Raise AttributeError.
Proof.
  apply (proj1 (entry_that_is_no_object_raises
                  (VDict [("data", VDict [("transactionData", VList [VInt 7])])])
                  (VStr "india") VNone VNone (VInt 2022) (VInt 1) (VStr "1.json")
                  [] [] (VInt 7) eq_refl));
    reflexivity.
Defined.


Lemma text_count_of_total_raises :
  transaction_row sample_header (VDict entry_with_text_total) = Raise ValueError.
Proof.
  apply (total_with_bad_count_raises sample_header entry_with_text_total
           [("type", VStr "TOTAL"); ("count", VStr "abc")] [] []);
    reflexivity.
Defined.

Lemma number_among_hover_entries_is_skipped :
  parse_map_json (data_doc "hoverDataList" (VList ([] ++ VInt 1 :: [pune])))
    "transaction" (VStr "india") VNone (VInt 2022) (VInt 1) (VStr "1.json")
  = parse_map_json (data_doc "hoverDataList" (VList ([] ++ [pune])))
      "transaction" (VStr "india") VNone (VInt 2022) (VInt 1) (VStr "1.json").
Proof.
  apply (proj1 (map_skips_what_is_no_object
                  (VStr "india") VNone (VInt 2022) (VInt 1) (VStr "1.json")
                  [] [pune] (VInt 1) [] [] "Pune" eq_refl)).
Defined.

Lemma list_payload_of_a_user_map_raises :
  parse_map_json (VDict [("data", VList [pune])]) "user"
    (VStr "india") VNone (VInt 2022) (VInt 1) (VStr "1.json")
  = Raise AttributeError.
Proof.
  apply (proj1 (map_payload_that_is_no_dict
                  (VDict [("data", VList [pune])])
                  (VStr "india") VNone (VInt 2022) (VInt 1) (VStr "1.json")
                  (VList [pune]) eq_refl eq_refl eq_refl)).
Defined.

Lemma refunds_kind_yields_no_row :
  parse_map_json doc_pune "refunds"
    (VStr "india") VNone (VInt 2022) (VInt 1) (VStr "1.json") = Ok [].
Proof.
  apply (proj1 (unknown_kind_yields_no_row doc_pune
                  (VStr "india") VNone (VInt 2022) (VInt 1) (VStr "1.json")
                  "refunds"
                  ltac:(intros [H|[H|[H|[]]]]; discriminate H))).
Defined.

Lemma top_document_row_count :
  List.length top_rows = count_objects (top_items (payload_of doc_top)).
Proof.
  apply (top_one_row_per_object doc_top
           (VStr "india") VNone (VInt 2022) (VInt 1) (VStr "1.json")
           "transaction" top_rows).
  - left. reflexivity.
  - vm_compute. reflexivity.
Defined.

Lemma three_segments_resolve_to_nothing :
  parse_path_context path_short = Ok no_context.
Proof.
  apply short_path_has_no_context. apply Nat.ltb_lt. reflexivity.
Defined.

Lemma tamil_nadu_is_decoded : contains "%20" "Tamil Nadu" = false.
Proof.
  apply (resolved_state_is_decoded path_state_wise
           (Context None (Some "Tamil Nadu") None None None) "Tamil Nadu");
    reflexivity.
Defined.

Lemma india_comes_after_the_marker :
  exists rest i,
    tail_of path_country = "aggregated" :: rest
    /\ index "country" (tail_of path_country) = Ok i
    /\ item (tail_of path_country) (i + 1) = Ok "india".
Proof.
  apply (country_only_from_aggregated_marker path_country
           (Context (Some "india") None None (Some 2022) (Some 1)) "india");
    reflexivity.
Defined.

Lemma context_of_a_state_file :
  parse_path_context path_aggregated_state
  = Ok (Context (Some "india") (Some "tamil-nadu") None (Some 2022) (Some 1)).
Proof.
  apply (aggregated_state_path_context path_aggregated_state
           "transaction" "tamil-nadu" "2022" "1");
    try reflexivity.
  left. reflexivity.
Defined.

Lemma map_state_file_names_no_state :
  parse_path_context path_map_state
  = Ok (Context None None None (Some 2022) (Some 1)).
Proof.
  apply (map_or_top_path_context path_map_state "map" "2022" "1.json"
           ["transaction"; "hover"; "country"; "india"; "state"; "tamil-nadu";
            "2022"; "1.json"]);
    try reflexivity.
  - discriminate.
  - apply Nat.leb_le. reflexivity.
  - left. reflexivity.
  - left. reflexivity.
Defined.

Lemma summary_batch_is_routed :
  [summary_row] <> [] /\ batch_of world_single "aggregated_user" [summary_row].
Proof.
  apply (every_batch_is_routed world_single "aggregated_user" [summary_row]).
  rewrite run_over_a_summary. right. left. reflexivity.
Defined.

Lemma summary_row_fits_aggregated_user :
  lookup "aggregated_user" DDLS = Some ("id" :: map fst summary_row).
Proof.
  apply (every_row_fits_its_table world_single "aggregated_user"
           [summary_row] summary_row).
  - rewrite run_over_a_summary. right. left. reflexivity.
  - left. reflexivity.
Defined.

Lemma run_over_a_summary_returns :
  process_and_load world_single []
  = (Ok 1%nat,
     [Opened file_a Utf8; ToSql "aggregated_user" [summary_row]; Logged "INFO"]).
Proof. vm_compute. reflexivity. Defined.

Lemma one_row_was_written :
  1%nat = rows_written
            [Opened file_a Utf8; ToSql "aggregated_user" [summary_row];
             Logged "INFO"].
Proof.
  apply (total_is_rows_written world_single). exact run_over_a_summary_returns.
Defined.

Lemma run_with_the_sink_down :
  process_and_load world_sink_down []
  = (Raise DatabaseError,
     [Opened file_a Utf8; ToSql "aggregated_user" [summary_row]; Logged "ERROR"]).
Proof. vm_compute. reflexivity. Defined.

Lemma refused_batch_ends_the_run :
  exists t0 table rows e,
    [Opened file_a Utf8; ToSql "aggregated_user" [summary_row]; Logged "ERROR"]
    = t0 ++ [ToSql table rows; Logged "ERROR"]
    /\ to_sql world_sink_down table rows = Raise e
    /\ @Raise nat DatabaseError = Raise e.
Proof.
  apply (sink_failure_ends_the_run world_sink_down).
  - exact run_with_the_sink_down.
  - right. right. left. reflexivity.
Defined.

Lemma summary_file_is_opened_once :
  opened_first
    [Opened file_a Utf8; ToSql "aggregated_user" [summary_row]; Logged "INFO"]
  = discovered world_single "aggregated" ++ discovered world_single "map"
    ++ discovered world_single "top".
Proof.
  apply (files_are_opened_in_order world_single 1).
  exact run_over_a_summary_returns.
Defined.

Lemma misc_file_writes_nothing :
  aggregated_file world_unrouted 0 file_unrouted []
  = (Ok 0%nat, [Opened file_unrouted Utf8])
  /\ map_file world_unrouted 0 file_unrouted []
     = (Ok 0%nat, [Opened file_unrouted Utf8])
  /\ top_file world_unrouted 0 file_unrouted []
     = (Ok 0%nat, [Opened file_unrouted Utf8]).
Proof.
  pose proof (unrouted_file_writes_nothing world_unrouted file_unrouted
                doc_summary eq_refl) as H.
  assert (Hroute : forall category kind,
            In category categories -> In kind kinds ->
            contains (route_marker category kind) (replace "\" "/" file_unrouted)
            = false)
    by (intros category kind [<-|[<-|[<-|[]]]] [<-|[<-|[<-|[]]]]; reflexivity).
  specialize (H Hroute).
  repeat split; apply H; cbn; auto.
Defined.

Lemma listing_order_does_not_matter :
  fst (discover_json_files tree_ab []) = fst (discover_json_files tree_ba []).
Proof.
  apply discovery_is_canonical.
  intros category [<-|[<-|[<-|[]]]].
  - apply perm_swap.
  - apply perm_nil.
  - apply perm_nil.
Defined.

(** Both folders of [tree_ab] that exist or are missing can be examined. *)
Lemma discovery_of_two_files :
  exists files,
    discover_json_files tree_ab []
    = (Ok files, [] ++ map (fun _ => Logged "WARNING") (missing tree_ab)
                    ++ [Logged "INFO"])
    /\ map fst files = categories
    /\ forall category, In category categories ->
         StronglySorted leb_path (files_get files category)
         /\ Permutation (found tree_ab category) (files_get files category).
Proof.
  apply (proj1 (discovery_is_sorted tree_ab [])).
  intros category [<-|[<-|[<-|[]]]]; eexists; reflexivity.
Defined.

(** The map folder of [tree_locked] cannot be examined: the discovery ends
    with its exception, after the aggregated folder was listed. *)
Lemma locked_folder_ends_the_discovery :
  discover_json_files tree_locked [] = (Raise OSError, []).
Proof. vm_compute. reflexivity. Qed.

Lemma load_of_a_reversed_listing :
  opened_first
    (snd (discover_and_load tree_ba (fun _ _ => Ok doc_summary) (fun _ _ => Ok tt) []))
  = sort (found tree_ba "aggregated") ++ sort (found tree_ba "map")
    ++ sort (found tree_ba "top")
  /\ 2%nat
     = rows_written
         (snd (discover_and_load tree_ba (fun _ _ => Ok doc_summary)
                 (fun _ _ => Ok tt) [])).
Proof.
  apply (load_opens_files_in_sorted_order tree_ba
           (fun _ _ => Ok doc_summary) (fun _ _ => Ok tt) 2).
  vm_compute. reflexivity.
Defined.

(** The reversed listing is opened in ascending order all the same. *)
Lemma reversed_listing_is_sorted :
  sort (found tree_ba "aggregated") = [file_a; file_b].
Proof. vm_compute. reflexivity. Qed.
